(** * Evangadi Forum client: session lifecycle and request pipeline

    A shallow embedding of the client-side code that owns the authenticated
    session: [retryRequest] and the response-error interceptor of
    [client/src/API/axios.js], the [register] wrapper of the [useAuth] hook,
    and the state machine of [client/src/context/UserProvider.jsx]
    (token refresh, refresh and inactivity timers, login, logout).

    JavaScript numbers that hold counts, HTTP statuses, seconds and
    milliseconds are integers of [Z]; a JavaScript string is held as the
    bytes of its UTF-8 encoding, in a [string]; [localStorage] and the
    host's table of pending timeouts are finite maps. *)

From Stdlib Require Import ZArith Lia.
From stdpp Require Import gmap strings list pretty.

Open Scope Z_scope.

(** ** JavaScript string helpers *)

(** [s.includes(needle)]: [needle] occurs somewhere in [s]. *)
Fixpoint includes (needle s : string) : bool :=
  String.prefix needle s ||
  match s with
  | EmptyString => false
  | String _ rest => includes needle rest
  end.

(** [xs.join(sep)] on an array of strings. *)
Fixpoint join (sep : string) (xs : list string) : string :=
  match xs with
  | [] => ""
  | [x] => x
  | x :: rest => x +:+ sep +:+ join sep rest
  end.

(** Truthiness of a JavaScript string: only the empty string is falsy. *)
Definition truthy (s : string) : bool :=
  match s with EmptyString => false | _ => true end.

(** [a || fallback] on strings. *)
Definition or_default (a fallback : string) : string :=
  if truthy a then a else fallback.

(** How many UTF-16 code units the character that starts with byte [b]
    takes, and none for a continuation byte: one for a character of one,
    two or three bytes, two (a surrogate pair) for one of four bytes. *)
Definition utf16_units (b : Ascii.ascii) : nat :=
  let n := Ascii.N_of_ascii b in
  if (n <? 128)%N then 1%nat
  else if (n <? 192)%N then 0%nat
  else if (n <? 240)%N then 1%nat
  else 2%nat.

(** [s.length]: the number of UTF-16 code units of [s]. *)
Fixpoint js_length (s : string) : nat :=
  match s with
  | EmptyString => 0%nat
  | String b rest => (utf16_units b + js_length rest)%nat
  end.

(** ** [retryRequest] (client/src/API/axios.js) *)

Module Retry.
Section RetryRequest.
(** [T] is what the wrapped request resolves to, [E] the Error objects it
    rejects with; [message] reads [error.message], which may be absent. *)
Context {T E : Type}.
Variable message : E -> option string.

(** The wrapped [requestFn] is effectful: its outcome may differ from one
    invocation to the next.  [requestFn n] is the outcome of the
    invocation made after [n] earlier ones. *)
Variable requestFn : nat -> T + E.

(** What the caller can observe of one run: how often [requestFn] was
    invoked and the [setTimeout] delays awaited, oldest first. *)
Record trace := { calls : nat; sleeps : list Z }.

Definition invoke (w : trace) : trace :=
  {| calls := S (calls w); sleeps := sleeps w |}.
Definition sleep (ms : Z) (w : trace) : trace :=
  {| calls := calls w; sleeps := sleeps w ++ [ms] |}.

(** Settlement of the promise returned by [retryRequest]; the thrown value
    is [None] for JavaScript's [undefined]. *)
Inductive settled :=
| Returns (v : T)
| Throws (e : option E).

(** [error.message?.includes('Authentication') || ... ]. *)
Definition no_retry (m : option string) : bool :=
  match m with
  | None => false
  | Some s =>
      includes "Authentication" s || includes "Access denied" s
      || includes "validation" s
  end.

Variables maxRetries delay : Z.

(** The [for] loop; [fuel] bounds the iterations so that the definition is
    structural, [None] means the bound was too small. *)
Fixpoint retry_loop (fuel : nat) (attempt : Z) (lastError : option E)
    (w : trace) : option (settled * trace) :=
  match fuel with
  | O => None
  | S fuel' =>
      if attempt <=? maxRetries then
        match requestFn (calls w) with
        | inl v => Some (Returns v, invoke w)
        | inr error =>
            let w1 := invoke w in
            if no_retry (message error) then Some (Throws (Some error), w1)
            else
              let w2 := if attempt <? maxRetries
                        then sleep (delay * attempt) w1 else w1 in
              retry_loop fuel' (attempt + 1) (Some error) w2
        end
      else Some (Throws lastError, w)
  end.

Definition retryRequest : option (settled * trace) :=
  retry_loop (S (Z.to_nat maxRetries)) 1 None {| calls := 0; sleeps := [] |}.

(** What a finished run of the loop guarantees, relative to the trace [w]
    it started from at attempt number [attempt]. *)
Definition loop_post (attempt : Z) (lastError : option E) (w : trace)
    (r : settled) (w' : trace) : Prop :=
  let n := (calls w' - calls w)%nat in
  (calls w <= calls w')%nat /\
  Z.of_nat n <= Z.max 0 (maxRetries + 1 - attempt) /\
  (attempt <= maxRetries -> (1 <= n)%nat) /\
  sleeps w' = sleeps w ++ (Z.mul delay <$> seqZ attempt (Z.of_nat n - 1)) /\
  (forall j, (calls w <= j)%nat -> (S j < calls w')%nat ->
     exists e, requestFn j = inr e /\ no_retry (message e) = false) /\
  match r with
  | Returns v => (1 <= n)%nat /\ requestFn (pred (calls w')) = inl v
  | Throws x =>
      if decide (n = 0%nat) then x = lastError
      else exists e, x = Some e /\ requestFn (pred (calls w')) = inr e /\
             (no_retry (message e) = true \/
              Z.of_nat n = maxRetries + 1 - attempt)
  end.
End RetryRequest.

(** A request that fails twice with a transient error, then succeeds. *)
Definition flaky (n : nat) : string + string :=
  if (n <? 2)%nat then inr "Network error. Please check your connection."
  else inl "ok".

(** A request that is always refused as invalid, and one that is always
    answered 401 with the message of the response-error interceptor. *)
Definition always_invalid (_ : nat) : string + string :=
  inr "Validation failed".
Definition always_unauthenticated (_ : nat) : string + string :=
  inr "Authentication required".

(** A request that is refused each time with the message [m]. *)
Definition always_refused (m : string) (_ : nat) : string + string := inr m.
End Retry.

(** ** The response-error interceptor (client/src/API/axios.js) *)

Module Interceptor.
(** A value that may be interpolated into a template literal. *)
Inductive jsval :=
| JUndefined
| JNull
| JNum (n : Z)
| JStr (s : string).

(** [`${v}`] *)
Definition template (v : jsval) : string :=
  match v with
  | JUndefined => "undefined"
  | JNull => "null"
  | JNum n => pretty n
  | JStr s => s
  end.

(** A value of the [errors] object of a 422 body: one message or an array
    of messages. *)
Inductive field_value :=
| One (s : string)
| Many (ss : list string).

Record response_data := {
  errors : option (list (string * field_value));
  data_message : option string }.

Record response := {
  r_status : Z;
  r_data : option response_data }.

Record config := {
  url : option string;
  method : option string;
  csrf_header : option string }.

(** The rejection value the error handler receives.  [e_status] and
    [e_retryAfter] are the error object's own [status] and [retryAfter]
    properties (the request interceptor sets both on the error it throws
    when the client-side rate limiter refuses a request); [e_response] is
    [error.response], absent when no response arrived. *)
Record axios_error := {
  e_status : option Z;
  e_retryAfter : jsval;
  e_response : option response;
  e_config : option config }.

Inductive event_kind :=
| RATE_LIMIT_VIOLATION
| SERVER_SECURITY_EVENT
| RATE_LIMIT_EXCEEDED
| UNAUTHORIZED_ACCESS
| ACCESS_FORBIDDEN
| CSRF_TOKEN_MISMATCH
| SERVER_ERROR
| NETWORK_ERROR.

Inductive meta :=
| MString (s : option string)
| MValue (v : jsval)
| MBool (b : bool)
| MNumber (n : Z).

Record security_event := {
  kind : event_kind;
  details : list (string * meta) }.

(** What the handler reads and writes besides the error: the session
    manager, [localStorage], [window.location], [navigator] and the CSRF
    token provider. *)
Record host := {
  currentSession : option string;
  securityLog : list security_event;
  localStorage : gmap string string;
  pathname : string;
  navigations : list string;
  csrfGenerations : nat;
  userAgent : string }.

(** Modelled from the spec: [sessionManager.logSecurityEvent] lives in
    [client/src/security/sessionManager], which is not among the sources;
    the spec describes a SecurityEvent as an append-only log record. *)
Definition logSecurityEvent (k : event_kind) (d : list (string * meta))
    (h : host) : host :=
  {| currentSession := currentSession h;
     securityLog := securityLog h ++ [{| kind := k; details := d |}];
     localStorage := localStorage h;
     pathname := pathname h;
     navigations := navigations h;
     csrfGenerations := csrfGenerations h;
     userAgent := userAgent h |}.

(** Modelled from the spec: [csrfProtection.generateToken] lives in
    [client/src/security/csrfProtection], which is not among the sources;
    the spec says the CSRF token is regenerated. Only the number of
    regenerations is kept. *)
Definition generateToken (h : host) : host :=
  {| currentSession := currentSession h;
     securityLog := securityLog h;
     localStorage := localStorage h;
     pathname := pathname h;
     navigations := navigations h;
     csrfGenerations := S (csrfGenerations h);
     userAgent := userAgent h |}.

(** [sessionManager.currentSession = null; localStorage.removeItem('token');
    localStorage.removeItem('refreshToken')] *)
Definition clear_session_and_tokens (h : host) : host :=
  {| currentSession := None;
     securityLog := securityLog h;
     localStorage := delete "refreshToken" (delete "token" (localStorage h));
     pathname := pathname h;
     navigations := navigations h;
     csrfGenerations := csrfGenerations h;
     userAgent := userAgent h |}.

(** [if (!window.location.pathname.includes('/login'))
      window.location.href = '/login'] *)
Definition redirect_to_login (h : host) : host :=
  if includes "/login" (pathname h) then h
  else
    {| currentSession := currentSession h;
       securityLog := securityLog h;
       localStorage := localStorage h;
       pathname := pathname h;
       navigations := navigations h ++ ["/login"];
       csrfGenerations := csrfGenerations h;
       userAgent := userAgent h |}.

(** [config?.url], [config?.method], [!!config?.headers?.['X-CSRF-Token']] *)
Definition config_url (e : axios_error) : option string :=
  match e_config e with Some c => url c | None => None end.
Definition config_method (e : axios_error) : option string :=
  match e_config e with Some c => method c | None => None end.
Definition config_has_csrf (e : axios_error) : bool :=
  match e_config e with
  | Some c => match csrf_header c with Some t => truthy t | None => false end
  | None => false
  end.

(** [response?.status === n] and [response?.status >= 500] *)
Definition response_status_is (e : axios_error) (n : Z) : bool :=
  match e_response e with Some r => r_status r =? n | None => false end.
Definition response_status_ge (e : axios_error) (n : Z) : bool :=
  match e_response e with Some r => n <=? r_status r | None => false end.

(** [response.data?.errors] and [response?.data?.message] *)
Definition response_errors (r : response)
    : option (list (string * field_value)) :=
  match r_data r with Some d => errors d | None => None end.
Definition response_message (r : response) : option string :=
  match r_data r with
  | Some d => match data_message d with
              | Some m => if truthy m then Some m else None
              | None => None
              end
  | None => None
  end.

(** [Object.values(validationErrors).flat()] *)
Definition flat_values (errs : list (string * field_value)) : list string :=
  flat_map (fun kv => match snd kv with One s => [s] | Many ss => ss end) errs.

(** The [async (error) => ...] handler. The result is the message of the
    [Error] the returned promise rejects with, and the host afterwards.
    The development-mode [console.log] has no effect on the host. *)
Definition on_response_error (error : axios_error) (h : host)
    : string * host :=
  if bool_decide (e_status error = Some 429) then
    let h := logSecurityEvent RATE_LIMIT_EXCEEDED
               [("endpoint", MString (config_url error));
                ("retryAfter", MValue (e_retryAfter error))] h in
    ("Rate limit exceeded. Try again in "
       +:+ template (e_retryAfter error) +:+ " seconds.", h)
  else if response_status_is error 401 then
    let h := logSecurityEvent UNAUTHORIZED_ACCESS
               [("endpoint", MString (config_url error));
                ("userAgent", MString (Some (userAgent h)))] h in
    let h := clear_session_and_tokens h in
    let h := redirect_to_login h in
    ("Authentication required", h)
  else if response_status_is error 403 then
    let h := logSecurityEvent ACCESS_FORBIDDEN
               [("endpoint", MString (config_url error));
                ("method", MString (config_method error));
                ("hasCSRF", MBool (config_has_csrf error))] h in
    ("Access denied", h)
  else if response_status_is error 404 then
    ("Resource not found", h)
  else if response_status_is error 419 then
    let h := logSecurityEvent CSRF_TOKEN_MISMATCH
               [("endpoint", MString (config_url error));
                ("method", MString (config_method error))] h in
    let h := generateToken h in
    ("Security token expired. Please try again.", h)
  else if response_status_ge error 500 then
    let h := logSecurityEvent SERVER_ERROR
               [("status", match e_response error with
                           | Some r => MNumber (r_status r)
                           | None => MValue JUndefined
                           end);
                ("endpoint", MString (config_url error));
                ("method", MString (config_method error))] h in
    ("Server error. Please try again later.", h)
  else
    match e_response error with
    | None =>
        let h := logSecurityEvent NETWORK_ERROR
                   [("endpoint", MString (config_url error));
                    ("method", MString (config_method error))] h in
        ("Network error. Please check your connection.", h)
    | Some r =>
        match (if r_status r =? 422 then response_errors r else None) with
        | Some validationErrors =>
            (join ", " (flat_values validationErrors), h)
        | None =>
            match response_message r with
            | Some m => (m, h)
            | None => ("An unexpected error occurred", h)
            end
        end
    end.

(** *** The classification table, as the specification words it *)

Record rule := {
  applies : axios_error -> bool;
  emits : option event_kind;
  says : axios_error -> string }.

Definition has_field_errors (e : axios_error) : bool :=
  match e_response e with
  | Some r => (r_status r =? 422) && bool_decide (is_Some (response_errors r))
  | None => false
  end.

Definition has_server_message (e : axios_error) : bool :=
  match e_response e with
  | Some r => bool_decide (is_Some (response_message r))
  | None => false
  end.

Definition classification_table : list rule :=
  [ {| applies := fun e => bool_decide (e_status e = Some 429);
       emits := Some RATE_LIMIT_EXCEEDED;
       says := fun e => "Rate limit exceeded. Try again in "
                          +:+ template (e_retryAfter e) +:+ " seconds." |};
    {| applies := fun e => response_status_is e 401;
       emits := Some UNAUTHORIZED_ACCESS;
       says := fun _ => "Authentication required" |};
    {| applies := fun e => response_status_is e 403;
       emits := Some ACCESS_FORBIDDEN;
       says := fun _ => "Access denied" |};
    {| applies := fun e => response_status_is e 404;
       emits := None;
       says := fun _ => "Resource not found" |};
    {| applies := fun e => response_status_is e 419;
       emits := Some CSRF_TOKEN_MISMATCH;
       says := fun _ => "Security token expired. Please try again." |};
    {| applies := fun e => response_status_ge e 500;
       emits := Some SERVER_ERROR;
       says := fun _ => "Server error. Please try again later." |};
    {| applies := fun e => bool_decide (e_response e = None);
       emits := Some NETWORK_ERROR;
       says := fun _ => "Network error. Please check your connection." |};
    {| applies := has_field_errors;
       emits := None;
       says := fun e =>
         match e_response e with
         | Some r => join ", " (flat_values (default [] (response_errors r)))
         | None => ""
         end |};
    {| applies := has_server_message;
       emits := None;
       says := fun e =>
         match e_response e with
         | Some r => default "" (response_message r)
         | None => ""
         end |};
    {| applies := fun _ => true;
       emits := None;
       says := fun _ => "An unexpected error occurred" |} ].

(** The first rule of the table that applies. *)
Definition classify (e : axios_error) : option rule :=
  List.find (fun r => applies r e) classification_table.

(** The events a handler run appended to the log. *)
Definition emitted (before after : host) : list security_event :=
  drop (length (securityLog before)) (securityLog after).
(** Sample inputs: a 401 answer to a GET, the error the request interceptor
    throws when the client-side rate limiter refuses a request, and a host
    with a signed-in user on page [path]. *)
Definition unauthorized : axios_error :=
  {| e_status := Some 401; e_retryAfter := JUndefined;
     e_response := Some {| r_status := 401; r_data := None |};
     e_config := Some {| url := Some "/questions"; method := Some "get";
                         csrf_header := None |} |}.

Definition rate_limited : axios_error :=
  {| e_status := Some 429; e_retryAfter := JNum 5;
     e_response := None;
     e_config := None |}.

Definition browsing (path : string) : host :=
  {| currentSession := Some "session-1"; securityLog := [];
     localStorage := <["refreshToken" := "r1"]> (<["token" := "t1"]> ∅);
     pathname := path; navigations := []; csrfGenerations := 0;
     userAgent := "Mozilla/5.0" |}.
End Interceptor.

(** ** [register] of the [useAuth] hook (client/src/hooks/useAuth) *)

Module UseAuth.
(** [{ isValid, errors }], the result of [validatePassword]. *)
Record password_validation := { isValid : bool; pw_errors : list string }.

(** [{ success: true }] or [{ success: false, error }]. *)
Inductive auth_result :=
| Success
| Failure (error : string).

(** One validation step: whether it fails, and the message thrown if so. *)
Definition check : Type := bool * string.

(** The message of the first failing check, if any. *)
Fixpoint first_failure (cs : list check) : option string :=
  match cs with
  | [] => None
  | (fails, msg) :: rest => if fails then Some msg else first_failure rest
  end.

Section Register.
(** [isValidEmail] and [validatePassword] come from [client/src/utils/auth],
    which is not among the sources: they are parameters.  [contextRegister]
    is the provider's [register], the only step that reaches the network. *)
Variable isValidEmail : string -> bool.
Variable validatePassword : string -> password_validation.
Variable contextRegister : string -> string -> string -> auth_result.

(** The [try] block: [inl msg] is [throw new Error(msg)].  The second
    component lists the calls made to [contextRegister]. *)
Definition register_try (username email password confirmPassword : string)
    : (string + auth_result) * list (string * string * string) :=
  if negb (truthy username) || negb (truthy email) || negb (truthy password)
     || negb (truthy confirmPassword)
  then (inl "All fields are required", [])
  else if negb (isValidEmail email)
  then (inl "Please enter a valid email address", [])
  else
    let passwordValidation := validatePassword password in
    if negb (isValid passwordValidation)
    then (inl (join ", " (pw_errors passwordValidation)), [])
    else if negb (String.eqb password confirmPassword)
    then (inl "Passwords do not match", [])
    else if Z.of_nat (js_length username) <? 3
    then (inl "Username must be at least 3 characters long", [])
    else
      let result := contextRegister username email password in
      match result with
      | Success => (inr result, [(username, email, password)])
      | Failure error => (inl error, [(username, email, password)])
      end.

(** [register]: the [catch] turns a thrown error into a failed result. *)
Definition register (username email password confirmPassword : string)
    : auth_result * list (string * string * string) :=
  match register_try username email password confirmPassword with
  | (inr result, net) => (result, net)
  | (inl msg, net) => (Failure (or_default msg "Registration failed"), net)
  end.

(** The local checks in the order the code runs them. *)
Definition checks_in_code_order (username email password confirmPassword : string)
    : list check :=
  [ (negb (truthy username) || negb (truthy email) || negb (truthy password)
       || negb (truthy confirmPassword), "All fields are required");
    (negb (isValidEmail email), "Please enter a valid email address");
    (negb (isValid (validatePassword password)),
       join ", " (pw_errors (validatePassword password)));
    (negb (String.eqb password confirmPassword), "Passwords do not match");
    (Z.of_nat (js_length username) <? 3,
       "Username must be at least 3 characters long") ].

(** The local checks in the order the specification lists them: username
    length, email format, password strength, confirmation. *)
Definition checks_in_spec_order (username email password confirmPassword : string)
    : list check :=
  [ (Z.of_nat (js_length username) <? 3,
       "Username must be at least 3 characters long");
    (negb (isValidEmail email), "Please enter a valid email address");
    (negb (isValid (validatePassword password)),
       join ", " (pw_errors (validatePassword password)));
    (negb (String.eqb password confirmPassword), "Passwords do not match") ].
End Register.

(** Sample helpers to run [register] on concrete inputs: an address is
    accepted when it contains an at sign, a password when it has eight
    characters or more. *)
Definition sample_isValidEmail (email : string) : bool := includes "@" email.
Definition sample_validatePassword (password : string) : password_validation :=
  if Z.of_nat (js_length password) <? 8
  then {| isValid := false;
          pw_errors := ["Password must be at least 8 characters long"] |}
  else {| isValid := true; pw_errors := [] |}.
Definition sample_contextRegister (_ _ _ : string) : auth_result := Success.
End UseAuth.

(** ** The session provider (client/src/context/UserProvider.jsx) *)

Module UserProvider.
Record user_record := {
  id : Z;
  username : string;
  role : string;
  permissions : list string }.

(** What a pending timeout runs.  The refresh timer calls the [refreshToken]
    closure that [scheduleTokenRefresh] captured; of a render's values that
    closure reads only [isRefreshing], so the captured value identifies it. *)
Inductive timer_callback :=
| CallRefreshToken (closure_isRefreshing : bool)
| CallHandleSessionTimeout.

Record timer := { fires_at : Z; callback : timer_callback }.

(** [{ success: true }] or [{ success: false, error }]. *)
Inductive op_result :=
| Success
| Failure (error : string).

Inductive promise_state :=
| Pending
| Settled (r : op_result).

(** A request handed to the transport; [bearer] is the token of the
    Authorization header the caller sets, if it sets one. *)
Record request := { endpoint : string; bearer : option string }.

(** The body of a successful authentication response. *)
Record auth_response := {
  token : string;
  refreshToken : option string;
  a_user : user_record;
  expiresIn : Z }.

(** The provider's store: the host clock and [localStorage], the React
    state (each field holds the value most recently set, which the next
    render reads), the three refs, the host's pending timeouts, the promises
    created by [refreshToken], the requests handed to the transport and the
    alerts shown. Timer ids are positive, as in browsers, hence truthy. *)
#[projections(primitive)] Record state := {
  now : Z;
  storage : gmap string string;
  user : option user_record;
  sessionExpiry : option Z;
  lastActivity : Z;
  isRefreshing : bool;
  loading : bool;
  refreshTimeoutRef : option positive;
  activityTimeoutRef : option positive;
  refreshPromiseRef : option nat;
  timers : gmap positive timer;
  nextTimer : positive;
  promises : list promise_state;
  requests : list request;
  alerts : list string }.

Definition set_now (v : Z) (st : state) : state :=
  {| now := v; storage := storage st; user := user st;
     sessionExpiry := sessionExpiry st; lastActivity := lastActivity st;
     isRefreshing := isRefreshing st; loading := loading st;
     refreshTimeoutRef := refreshTimeoutRef st;
     activityTimeoutRef := activityTimeoutRef st;
     refreshPromiseRef := refreshPromiseRef st; timers := timers st;
     nextTimer := nextTimer st; promises := promises st;
     requests := requests st; alerts := alerts st |}.
Definition set_storage (v : gmap string string) (st : state) : state :=
  {| now := now st; storage := v; user := user st;
     sessionExpiry := sessionExpiry st; lastActivity := lastActivity st;
     isRefreshing := isRefreshing st; loading := loading st;
     refreshTimeoutRef := refreshTimeoutRef st;
     activityTimeoutRef := activityTimeoutRef st;
     refreshPromiseRef := refreshPromiseRef st; timers := timers st;
     nextTimer := nextTimer st; promises := promises st;
     requests := requests st; alerts := alerts st |}.
Definition set_user (v : option user_record) (st : state) : state :=
  {| now := now st; storage := storage st; user := v;
     sessionExpiry := sessionExpiry st; lastActivity := lastActivity st;
     isRefreshing := isRefreshing st; loading := loading st;
     refreshTimeoutRef := refreshTimeoutRef st;
     activityTimeoutRef := activityTimeoutRef st;
     refreshPromiseRef := refreshPromiseRef st; timers := timers st;
     nextTimer := nextTimer st; promises := promises st;
     requests := requests st; alerts := alerts st |}.
Definition set_sessionExpiry (v : option Z) (st : state) : state :=
  {| now := now st; storage := storage st; user := user st;
     sessionExpiry := v; lastActivity := lastActivity st;
     isRefreshing := isRefreshing st; loading := loading st;
     refreshTimeoutRef := refreshTimeoutRef st;
     activityTimeoutRef := activityTimeoutRef st;
     refreshPromiseRef := refreshPromiseRef st; timers := timers st;
     nextTimer := nextTimer st; promises := promises st;
     requests := requests st; alerts := alerts st |}.
Definition set_lastActivity (v : Z) (st : state) : state :=
  {| now := now st; storage := storage st; user := user st;
     sessionExpiry := sessionExpiry st; lastActivity := v;
     isRefreshing := isRefreshing st; loading := loading st;
     refreshTimeoutRef := refreshTimeoutRef st;
     activityTimeoutRef := activityTimeoutRef st;
     refreshPromiseRef := refreshPromiseRef st; timers := timers st;
     nextTimer := nextTimer st; promises := promises st;
     requests := requests st; alerts := alerts st |}.
Definition set_isRefreshing (v : bool) (st : state) : state :=
  {| now := now st; storage := storage st; user := user st;
     sessionExpiry := sessionExpiry st; lastActivity := lastActivity st;
     isRefreshing := v; loading := loading st;
     refreshTimeoutRef := refreshTimeoutRef st;
     activityTimeoutRef := activityTimeoutRef st;
     refreshPromiseRef := refreshPromiseRef st; timers := timers st;
     nextTimer := nextTimer st; promises := promises st;
     requests := requests st; alerts := alerts st |}.
Definition set_loading (v : bool) (st : state) : state :=
  {| now := now st; storage := storage st; user := user st;
     sessionExpiry := sessionExpiry st; lastActivity := lastActivity st;
     isRefreshing := isRefreshing st; loading := v;
     refreshTimeoutRef := refreshTimeoutRef st;
     activityTimeoutRef := activityTimeoutRef st;
     refreshPromiseRef := refreshPromiseRef st; timers := timers st;
     nextTimer := nextTimer st; promises := promises st;
     requests := requests st; alerts := alerts st |}.
Definition set_refreshTimeoutRef (v : option positive) (st : state) : state :=
  {| now := now st; storage := storage st; user := user st;
     sessionExpiry := sessionExpiry st; lastActivity := lastActivity st;
     isRefreshing := isRefreshing st; loading := loading st;
     refreshTimeoutRef := v; activityTimeoutRef := activityTimeoutRef st;
     refreshPromiseRef := refreshPromiseRef st; timers := timers st;
     nextTimer := nextTimer st; promises := promises st;
     requests := requests st; alerts := alerts st |}.
Definition set_activityTimeoutRef (v : option positive) (st : state) : state :=
  {| now := now st; storage := storage st; user := user st;
     sessionExpiry := sessionExpiry st; lastActivity := lastActivity st;
     isRefreshing := isRefreshing st; loading := loading st;
     refreshTimeoutRef := refreshTimeoutRef st; activityTimeoutRef := v;
     refreshPromiseRef := refreshPromiseRef st; timers := timers st;
     nextTimer := nextTimer st; promises := promises st;
     requests := requests st; alerts := alerts st |}.
Definition set_refreshPromiseRef (v : option nat) (st : state) : state :=
  {| now := now st; storage := storage st; user := user st;
     sessionExpiry := sessionExpiry st; lastActivity := lastActivity st;
     isRefreshing := isRefreshing st; loading := loading st;
     refreshTimeoutRef := refreshTimeoutRef st;
     activityTimeoutRef := activityTimeoutRef st; refreshPromiseRef := v;
     timers := timers st; nextTimer := nextTimer st;
     promises := promises st; requests := requests st;
     alerts := alerts st |}.
Definition set_timers (v : gmap positive timer) (st : state) : state :=
  {| now := now st; storage := storage st; user := user st;
     sessionExpiry := sessionExpiry st; lastActivity := lastActivity st;
     isRefreshing := isRefreshing st; loading := loading st;
     refreshTimeoutRef := refreshTimeoutRef st;
     activityTimeoutRef := activityTimeoutRef st;
     refreshPromiseRef := refreshPromiseRef st; timers := v;
     nextTimer := nextTimer st; promises := promises st;
     requests := requests st; alerts := alerts st |}.
Definition set_nextTimer (v : positive) (st : state) : state :=
  {| now := now st; storage := storage st; user := user st;
     sessionExpiry := sessionExpiry st; lastActivity := lastActivity st;
     isRefreshing := isRefreshing st; loading := loading st;
     refreshTimeoutRef := refreshTimeoutRef st;
     activityTimeoutRef := activityTimeoutRef st;
     refreshPromiseRef := refreshPromiseRef st; timers := timers st;
     nextTimer := v; promises := promises st; requests := requests st;
     alerts := alerts st |}.
Definition set_promises (v : list promise_state) (st : state) : state :=
  {| now := now st; storage := storage st; user := user st;
     sessionExpiry := sessionExpiry st; lastActivity := lastActivity st;
     isRefreshing := isRefreshing st; loading := loading st;
     refreshTimeoutRef := refreshTimeoutRef st;
     activityTimeoutRef := activityTimeoutRef st;
     refreshPromiseRef := refreshPromiseRef st; timers := timers st;
     nextTimer := nextTimer st; promises := v; requests := requests st;
     alerts := alerts st |}.
Definition set_requests (v : list request) (st : state) : state :=
  {| now := now st; storage := storage st; user := user st;
     sessionExpiry := sessionExpiry st; lastActivity := lastActivity st;
     isRefreshing := isRefreshing st; loading := loading st;
     refreshTimeoutRef := refreshTimeoutRef st;
     activityTimeoutRef := activityTimeoutRef st;
     refreshPromiseRef := refreshPromiseRef st; timers := timers st;
     nextTimer := nextTimer st; promises := promises st; requests := v;
     alerts := alerts st |}.
Definition set_alerts (v : list string) (st : state) : state :=
  {| now := now st; storage := storage st; user := user st;
     sessionExpiry := sessionExpiry st; lastActivity := lastActivity st;
     isRefreshing := isRefreshing st; loading := loading st;
     refreshTimeoutRef := refreshTimeoutRef st;
     activityTimeoutRef := activityTimeoutRef st;
     refreshPromiseRef := refreshPromiseRef st; timers := timers st;
     nextTimer := nextTimer st; promises := promises st;
     requests := requests st; alerts := v |}.

(** [localStorage.getItem(k)] read for truthiness: a missing or empty value
    is falsy. *)
Definition getItem (k : string) (st : state) : option string :=
  match storage st !! k with
  | Some v => if truthy v then Some v else None
  | None => None
  end.
Definition setItem (k v : string) (st : state) : state :=
  set_storage (<[k := v]> (storage st)) st.
Definition removeItem (k : string) (st : state) : state :=
  set_storage (delete k (storage st)) st.

(** The delay the host waits for: [setTimeout] takes its delay as a signed
    32-bit integer (a WebIDL [long]), so the number given wraps around
    modulo 2^32 into the range from -2^31 to 2^31 - 1, and a negative
    delay counts as 0. *)
Definition host_delay (delay : Z) : Z :=
  Z.max ((delay + 2147483648) mod 4294967296 - 2147483648) 0.

(** [clearTimeout(id)] and [setTimeout(cb, delay)]. *)
Definition clearTimeout (id : positive) (st : state) : state :=
  set_timers (delete id (timers st)) st.
Definition setTimeout (cb : timer_callback) (delay : Z) (st : state)
    : positive * state :=
  let id := nextTimer st in
  (id, set_nextTimer (Pos.succ id)
         (set_timers (<[id := {| fires_at := now st + host_delay delay;
                                 callback := cb |}]>
                        (timers st)) st)).

(** [axiosInstance.post]/[get]: the request reaches the transport. *)
Definition send (r : request) (st : state) : state :=
  set_requests (requests st ++ [r]) st.

Definition updateActivity (st : state) : state :=
  set_lastActivity (now st) st.

(** [scheduleTokenRefresh(delay)] of the render whose [isRefreshing] is
    [closure]. *)
Definition scheduleTokenRefresh (closure : bool) (delay : Z) (st : state)
    : state :=
  let st := match refreshTimeoutRef st with
            | Some id => clearTimeout id st
            | None => st
            end in
  let '(id, st) := setTimeout (CallRefreshToken closure)
                     (Z.max (delay - 60000) 0) st in
  set_refreshTimeoutRef (Some id) st.

Definition scheduleActivityTimeout (st : state) : state :=
  let st := match activityTimeoutRef st with
            | Some id => clearTimeout id st
            | None => st
            end in
  let '(id, st) := setTimeout CallHandleSessionTimeout (30 * 60 * 1000) st in
  set_activityTimeoutRef (Some id) st.

Definition handleLogout (st : state) : state :=
  let st := removeItem "token" st in
  let st := removeItem "refreshToken" st in
  let st := set_user None st in
  let st := set_sessionExpiry None st in
  let st := match refreshTimeoutRef st with
            | Some id => set_refreshTimeoutRef None (clearTimeout id st)
            | None => st
            end in
  match activityTimeoutRef st with
  | Some id => set_activityTimeoutRef None (clearTimeout id st)
  | None => st
  end.

Definition handleSessionTimeout (st : state) : state :=
  let st := handleLogout st in
  set_alerts (alerts st ++
    ["Your session has expired due to inactivity. Please log in again."]) st.

Definition logout (st : state) : state := handleLogout st.

(** [if (refreshToken) localStorage.setItem('refreshToken', refreshToken)] *)
Definition store_refresh_token (r : option string) (st : state) : state :=
  match r with
  | Some v => if truthy v then setItem "refreshToken" v st else st
  | None => st
  end.

Definition loginWithTokens (tok : string) (refreshTok : option string)
    (userData : user_record) (st : state) : op_result * state :=
  let st := setItem "token" tok st in
  let st := store_refresh_token refreshTok st in
  let st := set_user (Some userData) st in
  let st := set_sessionExpiry (Some (now st + 15 * 60 * 1000)) st in
  let st := scheduleActivityTimeout st in
  (Success, st).

(** [error.response?.data?.message || fallback] *)
Definition server_message (m : option string) (fallback : string) : string :=
  match m with
  | Some s => or_default s fallback
  | None => fallback
  end.

(** [login], from the call to the return after the awaited POST. [reply]
    is how the POST settled: the response body, or the rejection with the
    server's message if it carried one. [now] is the time of resumption. *)
Definition login (closure : bool) (reply : auth_response + option string)
    (st : state) : op_result * state :=
  let st := send {| endpoint := "/auth/login"; bearer := None |} st in
  match reply with
  | inl data =>
      let st := setItem "token" (token data) st in
      let st := store_refresh_token (refreshToken data) st in
      let st := set_user (Some (a_user data)) st in
      let st := set_sessionExpiry (Some (now st + expiresIn data * 1000)) st in
      let st := scheduleTokenRefresh closure (expiresIn data * 1000) st in
      let st := scheduleActivityTimeout st in
      (Success, st)
  | inr m => (Failure (server_message m "Login failed"), st)
  end.

Definition register (closure : bool) (reply : auth_response + option string)
    (st : state) : op_result * state :=
  let st := send {| endpoint := "/auth/register"; bearer := None |} st in
  match reply with
  | inl data =>
      let st := setItem "token" (token data) st in
      let st := set_user (Some (a_user data)) st in
      let st := set_sessionExpiry (Some (now st + expiresIn data * 1000)) st in
      let st := scheduleTokenRefresh closure (expiresIn data * 1000) st in
      let st := scheduleActivityTimeout st in
      (Success, st)
  | inr m => (Failure (server_message m "Registration failed"), st)
  end.

(** [initializeAuth] of the mount effect; [reply] is how GET /auth/verify
    settled, consulted only when a token is stored. *)
Definition initializeAuth (closure : bool) (reply : option auth_response)
    (st : state) : state :=
  let st :=
    match getItem "token" st with
    | Some tok =>
        let st := send {| endpoint := "/auth/verify"; bearer := Some tok |} st in
        match reply with
        | Some data =>
            let st := set_user (Some (a_user data)) st in
            let st := set_sessionExpiry
                        (Some (now st + expiresIn data * 1000)) st in
            let st := scheduleTokenRefresh closure (expiresIn data * 1000) st in
            scheduleActivityTimeout st
        | None => handleLogout st
        end
    | None => st
    end in
  set_loading false st.

(** [initializeAuth] up to its [await]: with a token stored the
    verification is sent and the rest waits for the answer; without one the
    function ends at once. *)
Definition initializeAuth_call (st : state) : state :=
  match getItem "token" st with
  | Some tok => send {| endpoint := "/auth/verify"; bearer := Some tok |} st
  | None => set_loading false st
  end.

(** The rest of [initializeAuth], resumed when its GET /auth/verify has
    settled with [reply]; [closure] is the [isRefreshing] of the render
    whose effect started it. The storage is not read again. *)
Definition initializeAuth_resume (closure : bool)
    (reply : option auth_response) (st : state) : state :=
  let st :=
    match reply with
    | Some data =>
        let st := set_user (Some (a_user data)) st in
        let st := set_sessionExpiry
                    (Some (now st + expiresIn data * 1000)) st in
        let st := scheduleTokenRefresh closure (expiresIn data * 1000) st in
        scheduleActivityTimeout st
    | None => handleLogout st
    end in
  set_loading false st.

(** The cleanup of the mount effect. *)
Definition cleanup (st : state) : state :=
  let st := match refreshTimeoutRef st with
            | Some id => clearTimeout id st
            | None => st
            end in
  match activityTimeoutRef st with
  | Some id => clearTimeout id st
  | None => st
  end.

(** The [finally] block of the refresh body. *)
Definition refresh_finally (st : state) : state :=
  set_refreshPromiseRef None (set_isRefreshing false st).

(** [refreshToken()] called through the closure of a render whose
    [isRefreshing] is [closure], up to the point where it returns a promise:
    either the promise held by [refreshPromiseRef], or a new one whose body
    has run as far as its first [await] (or to its end when no token is
    stored). *)
Definition refreshToken_call (closure : bool) (st : state) : nat * state :=
  match (if closure then refreshPromiseRef st else None) with
  | Some p => (p, st)
  | None =>
      let p := length (promises st) in
      let st := set_isRefreshing true st in
      match getItem "token" st with
      | None =>
          let st := handleLogout st in
          let st := refresh_finally st in
          let st := set_promises
                      (promises st ++ [Settled (Failure "Session expired")]) st in
          (p, set_refreshPromiseRef (Some p) st)
      | Some tok =>
          let st := send {| endpoint := "/auth/refresh"; bearer := Some tok |} st in
          let st := set_promises (promises st ++ [Pending]) st in
          (p, set_refreshPromiseRef (Some p) st)
      end
  end.

(** The rest of the refresh body of promise [p], resumed when its POST has
    settled with [reply]. A promise that is not pending has nothing left to
    run. *)
Definition refreshToken_resume (closure : bool) (p : nat)
    (reply : option auth_response) (st : state) : state :=
  match promises st !! p with
  | Some Pending =>
      match reply with
      | Some data =>
          let st := setItem "token" (token data) st in
          let st := set_user (Some (a_user data)) st in
          let st := set_sessionExpiry
                      (Some (now st + expiresIn data * 1000)) st in
          let st := scheduleTokenRefresh closure (expiresIn data * 1000) st in
          let st := refresh_finally st in
          set_promises (<[p := Settled Success]> (promises st)) st
      | None =>
          let st := handleLogout st in
          let st := refresh_finally st in
          set_promises
            (<[p := Settled (Failure "Session expired")]> (promises st)) st
      end
  | _ => st
  end.

(** The document's activity listener. *)
Definition handleActivity (st : state) : state :=
  scheduleActivityTimeout (updateActivity st).

(** A timeout is due at [t] once its delay has elapsed. *)
Definition due (t : Z) (tm : timer) : bool := fires_at tm <=? t.

(** The host runs a pending timeout that has come due. *)
Definition fire (id : positive) (st : state) : state :=
  match timers st !! id with
  | Some tm =>
      if due (now st) tm then
        let st := set_timers (delete id (timers st)) st in
        match callback tm with
        | CallRefreshToken closure => snd (refreshToken_call closure st)
        | CallHandleSessionTimeout => handleSessionTimeout st
        end
      else st
  | None => st
  end.

(** The wall clock moves on. *)
Definition tick (dt : N) (st : state) : state :=
  set_now (now st + Z.of_N dt) st.

(** The mount effect runs again. Its dependencies are
    [scheduleTokenRefresh], [scheduleActivityTimeout] and [handleLogout];
    the last two are created once, but [scheduleTokenRefresh] is recreated
    with [refreshToken], and [refreshToken] with [isRefreshing]. So when a
    render finds [isRefreshing] changed, React runs the cleanup of the
    effect and then the effect, which starts [initializeAuth] anew; the
    answer to its verification comes later, as an operation of its own. *)
Definition rerun_effect (st : state) : state :=
  initializeAuth_call (cleanup st).

(** The render that follows an operation: [rendered] is the [isRefreshing]
    of the render before. The updates of one run are applied together, so
    a value set and set back causes no re-run. *)
Definition commit (rendered : bool) (st : state) : state :=
  if Bool.eqb (isRefreshing st) rendered then st else rerun_effect st.

(** The provider's operations, with what their environment answers.
    [InitializeAuth] is the mount with its verification answered;
    [VerifyResume] is the answer to a verification that a later run of
    the effect has sent. The operation does not check that one is
    outstanding, so the sequences of operations include all those of the
    provider. *)
Inductive op :=
| Login (closure : bool) (reply : auth_response + option string)
| Register (closure : bool) (reply : auth_response + option string)
| LoginWithTokens (tok : string) (refreshTok : option string)
    (userData : user_record)
| InitializeAuth (closure : bool) (reply : option auth_response)
| VerifyResume (closure : bool) (reply : option auth_response)
| RefreshTokenCall (closure : bool)
| RefreshTokenResume (closure : bool) (p : nat) (reply : option auth_response)
| Logout
| UpdateActivity
| HandleActivity
| Cleanup
| Fire (id : positive)
| Tick (dt : N).

(** One operation and the render that follows it. *)
Definition step (o : op) (st : state) : state :=
  match o with
  | Login c r => snd (login c r st)
  | Register c r => snd (register c r st)
  | LoginWithTokens t r u => snd (loginWithTokens t r u st)
  | InitializeAuth c r => initializeAuth c r st
  | VerifyResume c r => initializeAuth_resume c r st
  | RefreshTokenCall c =>
      commit (isRefreshing st) (snd (refreshToken_call c st))
  | RefreshTokenResume c p r =>
      commit (isRefreshing st) (refreshToken_resume c p r st)
  | Logout => logout st
  | UpdateActivity => updateActivity st
  | HandleActivity => handleActivity st
  | Cleanup => cleanup st
  | Fire id => commit (isRefreshing st) (fire id st)
  | Tick dt => tick dt st
  end.

Definition run (os : list op) (st : state) : state :=
  foldl (fun s o => step o s) st os.

(** The provider as mounted: nothing stored, nothing scheduled. *)
Definition initial (t0 : Z) : state :=
  {| now := t0; storage := ∅; user := None; sessionExpiry := None;
     lastActivity := t0; isRefreshing := false; loading := true;
     refreshTimeoutRef := None; activityTimeoutRef := None;
     refreshPromiseRef := None; timers := ∅; nextTimer := 1%positive;
     promises := []; requests := []; alerts := [] |}.

(** The pending timeout a ref points to. *)
Definition scheduled (ref : option positive) (st : state) : option timer :=
  match ref with
  | Some id => timers st !! id
  | None => None
  end.

(** How many requests to [path] have reached the transport. *)
Definition requests_to (path : string) (st : state) : nat :=
  length (filter (fun r => endpoint r = path) (requests st)).
(** The ref that owns a pending timeout, by what the timeout runs. *)
Definition owner (cb : timer_callback) (st : state) : option positive :=
  match cb with
  | CallRefreshToken _ => refreshTimeoutRef st
  | CallHandleSessionTimeout => activityTimeoutRef st
  end.

(** Consistency of timers and refs: every pending timeout was handed out
    by [setTimeout] and is held by the ref of its kind, and the two refs
    hold distinct ids handed out earlier. *)
Definition timers_consistent (st : state) : Prop :=
  (forall id tm, timers st !! id = Some tm ->
     (id < nextTimer st)%positive /\ owner (callback tm) st = Some id) /\
  (forall id, refreshTimeoutRef st = Some id -> (id < nextTimer st)%positive) /\
  (forall id, activityTimeoutRef st = Some id -> (id < nextTimer st)%positive) /\
  (forall r a, refreshTimeoutRef st = Some r -> activityTimeoutRef st = Some a ->
     r <> a).

(** When [o] is a successful token issuance in [st]: the closure it runs in
    and the server's response. *)
Definition issues (o : op) (st : state) : option (bool * auth_response) :=
  match o with
  | Login c (inl data) | Register c (inl data) => Some (c, data)
  | InitializeAuth c (Some data) =>
      match getItem "token" st with
      | Some _ => Some (c, data)
      | None => None
      end
  | VerifyResume c (Some data) => Some (c, data)
  | RefreshTokenResume c p (Some data) =>
      match promises st !! p with
      | Some Pending => Some (c, data)
      | _ => None
      end
  | _ => None
  end.

(** When [o] establishes a session from a server response (login,
    registration, verification of a stored token): the closure and the
    response. *)
Definition establishes (o : op) (st : state) : option (bool * auth_response) :=
  match o with
  | RefreshTokenResume _ _ _ => None
  | _ => issues o st
  end.

(** The [expiresIn] the server supplied to the operation, if it received a
    successful response at all. *)
Definition server_expiresIn (o : op) : option Z :=
  match o with
  | Login _ (inl data) | Register _ (inl data)
  | InitializeAuth _ (Some data) | VerifyResume _ (Some data)
  | RefreshTokenResume _ _ (Some data) =>
      Some (expiresIn data)
  | _ => None
  end.

(** Sample data: a user, a login response valid for fifteen minutes, and
    the provider right after that login at time [t0]. *)
Definition sample_user : user_record :=
  {| id := 7; username := "abebe"; role := "user"; permissions := [] |}.
Definition sample_response : auth_response :=
  {| token := "t1"; refreshToken := Some "r1"; a_user := sample_user;
     expiresIn := 900 |}.
Definition signed_in (t0 : Z) : state :=
  run [Login false (inl sample_response)] (initial t0).

(** A login response for a session kept for thirty days. *)
Definition long_lived_response : auth_response :=
  {| token := "t1"; refreshToken := Some "r1"; a_user := sample_user;
     expiresIn := 30 * 24 * 60 * 60 |}.
End UserProvider.

(** ** Further sample inputs *)

Module RetrySamples.
(** A request that is always answered 401, and one that never gets through. *)
Definition always_unauthorized (_ : nat) : string + string :=
  inr "Authentication required".
Definition always_offline (_ : nat) : string + string :=
  inr "Network error. Please check your connection.".
End RetrySamples.

(** ** The request interceptor (client/src/API/axios.js) *)

Module RequestInterceptor.
Import Interceptor.

(** [sessionManager.currentSession]: its id and the user it belongs to. *)
Record session := { s_id : string; s_userId : option string }.

(** [{ allowed, reason, retryAfter }], the answer of
    [rateLimiter.checkRateLimit]. *)
Record rate_limit_check := {
  allowed : bool;
  reason : string;
  retryAfter : jsval }.

(** [config.metadata] *)
Record request_metadata := {
  startTime : Z;
  m_endpoint : option string;
  m_method : option string;
  m_userId : option string }.

(** The request configuration: url, method, headers, and the metadata the
    interceptor adds. *)
Record request_config := {
  rc_url : option string;
  rc_method : option string;
  rc_headers : gmap string string;
  rc_metadata : option request_metadata }.

(** What the interceptor reads besides the configuration: the stored token,
    the CSRF token if one was issued, the session manager's device
    fingerprint and current session, the clock, and how often the session
    manager was told of activity. *)
Record request_env := {
  stored_token : option string;
  csrf_token : option string;
  deviceFingerprint : option string;
  currentSession : option session;
  clock : Z;
  activity_updates : nat }.

(** [sessionManager.currentSession?.userId] *)
Definition session_userId (env : request_env) : option string :=
  match currentSession env with
  | Some s => s_userId s
  | None => None
  end.

(** A header is set when the value is truthy, otherwise left as it is. *)
Definition set_header_if (name : string) (value : option string)
    (headers : gmap string string) : gmap string string :=
  match value with
  | Some v => if truthy v then <[name := v]> headers else headers
  | None => headers
  end.

(** Modelled from the spec: [sessionManager.updateActivity] lives in
    [client/src/security/sessionManager], which is not among the sources;
    the spec has the interceptor touch the activity record. Only the number
    of calls is kept. *)
Definition updateActivity (env : request_env) : request_env :=
  {| stored_token := stored_token env; csrf_token := csrf_token env;
     deviceFingerprint := deviceFingerprint env;
     currentSession := currentSession env; clock := clock env;
     activity_updates := S (activity_updates env) |}.

(** The [Error] thrown when the limiter refuses: a plain error with the
    limiter's reason as message, [status] 429 and the limiter's
    [retryAfter]; it has neither [response] nor [config]. *)
Definition refusal (check : rate_limit_check) : string * axios_error :=
  (reason check,
   {| e_status := Some 429; e_retryAfter := retryAfter check;
      e_response := None; e_config := None |}).

Section OnRequest.
(** [rateLimiter.checkRateLimit(url, userId, scope)] and
    [csrfProtection.requiresCSRFProtection(method)] come from
    [client/src/security], which is not among the sources: they are
    parameters. *)
Variable checkRateLimit :
  option string -> option string -> string -> rate_limit_check.
Variable requiresCSRFProtection : option string -> bool.

(** The [(config) => ...] handler: [inl] is the error thrown, [inr] the
    configuration returned and the environment afterwards. The
    development-mode [console.log] has no effect. *)
Definition on_request (config : request_config) (env : request_env)
    : (string * axios_error) + (request_config * request_env) :=
  let rateLimitCheck :=
    checkRateLimit (rc_url config) (session_userId env) "client-side" in
  if negb (allowed rateLimitCheck) then inl (refusal rateLimitCheck)
  else
    let headers := rc_headers config in
    let headers :=
      set_header_if "Authorization"
        (match stored_token env with
         | Some token => if truthy token then Some ("Bearer " +:+ token)
                         else None
         | None => None
         end) headers in
    let headers :=
      if requiresCSRFProtection (rc_method config)
      then set_header_if "X-CSRF-Token" (csrf_token env) headers
      else headers in
    let headers :=
      set_header_if "X-Device-Fingerprint" (deviceFingerprint env) headers in
    let headers :=
      match currentSession env with
      | Some s => <["X-Session-ID" := s_id s]> headers
      | None => headers
      end in
    let metadata :=
      {| startTime := clock env; m_endpoint := rc_url config;
         m_method := rc_method config; m_userId := session_userId env |} in
    inr ({| rc_url := rc_url config; rc_method := rc_method config;
            rc_headers := headers; rc_metadata := Some metadata |},
         updateActivity env).
End OnRequest.


(** Sample parameters: a limiter that refuses the path /ai/chat for twelve
    seconds, and protection of the state-changing methods. *)
Definition sample_checkRateLimit (url _ : option string) (_ : string)
    : rate_limit_check :=
  match url with
  | Some "/ai/chat" =>
      {| allowed := false; reason := "Too many requests";
         retryAfter := JNum 12 |}
  | _ => {| allowed := true; reason := EmptyString; retryAfter := JUndefined |}
  end.
Definition sample_requiresCSRFProtection (method : option string) : bool :=
  match method with
  | Some m => bool_decide (m ∈ ["post"; "put"; "patch"; "delete"])
  | None => false
  end.
Definition sample_env : request_env :=
  {| stored_token := Some "t1"; csrf_token := Some "csrf-1";
     deviceFingerprint := Some "fp-1";
     currentSession := Some {| s_id := "s-1"; s_userId := Some "7" |};
     clock := 1000; activity_updates := 0 |}.
Definition sample_config (url method : string) : request_config :=
  {| rc_url := Some url; rc_method := Some method;
     rc_headers := {[ "Content-Type" := "application/json" ]};
     rc_metadata := None |}.
End RequestInterceptor.

Module InterceptorSamples.
Import Interceptor.
(** A 404 answer to a GET. *)
Definition not_found : axios_error :=
  {| e_status := Some 404; e_retryAfter := JUndefined;
     e_response := Some {| r_status := 404; r_data := None |};
     e_config := Some {| url := Some "/questions/999"; method := Some "get";
                         csrf_header := None |} |}.

(** A 400 answer to a POST, with the [message] of its body. *)
Definition bad_request (m : string) : axios_error :=
  {| e_status := Some 400; e_retryAfter := JUndefined;
     e_response := Some {| r_status := 400;
                           r_data := Some {| errors := None;
                                             data_message := Some m |} |};
     e_config := Some {| url := Some "/answer"; method := Some "post";
                         csrf_header := None |} |}.
End InterceptorSamples.

(** ** [apiBatch] (client/src/API/axios.js) *)

Module Batch.
(** A property that may be absent, [null], or hold a value. *)
Inductive field (A : Type) :=
| Undefined
| Null
| Value (a : A).
Arguments Undefined {A}.
Arguments Null {A}.
Arguments Value {A} a.

Section ApiBatch.
(** [D] is what a response carries as [data]. *)
Context {D : Type}.

(** How a request of the batch settled: fulfilled with a value, which may
    be absent and otherwise has a [data] property, or rejected with a reason,
    which may be absent and otherwise has a [message] property. *)
Inductive settlement :=
| Fulfilled (value : option (field D))
| Rejected (reason : option (field string)).

Inductive settled_status := fulfilled | rejected.

Record batch_result := {
  index : nat;
  status : settled_status;
  data : field D;
  error : field string }.

(** [obj?.prop] *)
Definition optional {A : Type} (o : option (field A)) : field A :=
  match o with
  | Some f => f
  | None => Undefined
  end.

(** One entry of [responses.map((response, index) => ...)]. *)
Definition entry (i : nat) (s : settlement) : batch_result :=
  match s with
  | Fulfilled value =>
      {| index := i; status := fulfilled; data := optional value;
         error := Null |}
  | Rejected reason =>
      {| index := i; status := rejected; data := Null;
         error := optional reason |}
  end.

(** [apiBatch], given how [Promise.allSettled] found the requests. *)
Definition apiBatch (responses : list settlement) : list batch_result :=
  imap entry responses.
End ApiBatch.
End Batch.

(** The last character of a string. *)
Fixpoint last_char (s : string) : option Ascii.ascii :=
  match s with
  | EmptyString => None
  | String c EmptyString => Some c
  | String _ rest => last_char rest
  end.

(** ** Session helpers of the [useAuth] hook (client/src/hooks/useAuth) *)

Module UseAuthSession.
Import UseAuth.

(** A number read for truthiness: [null] and 0 are falsy. *)
Definition truthy_number (n : option Z) : option Z :=
  match n with
  | Some v => if v =? 0 then None else Some v
  | None => None
  end.

(** [isSessionExpiringSoon], with the render's [sessionExpiry] and the
    value of [Date.now()]. *)
Definition isSessionExpiringSoon (sessionExpiry : option Z) (now : Z) : bool :=
  match truthy_number sessionExpiry with
  | None => false
  | Some expiry =>
      let fiveMinutesFromNow := now + 5 * 60 * 1000 in
      expiry <? fiveMinutesFromNow
  end.

(** [getTimeUntilExpiry]; [None] is [null]. *)
Definition getTimeUntilExpiry (sessionExpiry : option Z) (now : Z) : option Z :=
  match truthy_number sessionExpiry with
  | None => None
  | Some expiry =>
      let remaining := expiry - now in
      Some (if 0 <? remaining then remaining else 0)
  end.

(** [getFormattedTimeUntilExpiry] *)
Definition getFormattedTimeUntilExpiry (sessionExpiry : option Z) (now : Z)
    : string :=
  match truthy_number (getTimeUntilExpiry sessionExpiry now) with
  | None => "Expired"
  | Some remaining =>
      let minutes := remaining / (1000 * 60) in
      let seconds := (remaining mod (1000 * 60)) / 1000 in
      if 0 <? minutes then pretty minutes +:+ "m " +:+ pretty seconds +:+ "s"
      else pretty seconds +:+ "s"
  end.

(** [getInactivityTime] and [getFormattedInactivityTime] *)
Definition getInactivityTime (lastActivity : option Z) (now : Z) : Z :=
  match truthy_number lastActivity with
  | None => 0
  | Some last => now - last
  end.

Definition getFormattedInactivityTime (lastActivity : option Z) (now : Z)
    : string :=
  let inactive := getInactivityTime lastActivity now in
  let minutes := inactive / (1000 * 60) in
  if minutes <? 1 then "Less than a minute"
  else if minutes =? 1 then "1 minute"
  else pretty minutes +:+ " minutes".

Section Login.
(** [isValidEmail] comes from [client/src/utils/auth], which is not among
    the sources; [contextLogin] is the provider's [login]. *)
Variable isValidEmail : string -> bool.
Variable contextLogin : string -> string -> bool -> auth_result.

(** The [try] block of [login]: [inl msg] is [throw new Error(msg)]; the
    second component lists the calls made to [contextLogin]. *)
Definition login_try (email password : string) (rememberMe : bool)
    : (string + auth_result) * list (string * string * bool) :=
  if negb (truthy email) || negb (truthy password)
  then (inl "Email and password are required", [])
  else if negb (isValidEmail email)
  then (inl "Please enter a valid email address", [])
  else
    let result := contextLogin email password rememberMe in
    match result with
    | Success => (inr result, [(email, password, rememberMe)])
    | Failure error => (inl error, [(email, password, rememberMe)])
    end.

Definition login (email password : string) (rememberMe : bool)
    : auth_result * list (string * string * bool) :=
  match login_try email password rememberMe with
  | (inr result, net) => (result, net)
  | (inl msg, net) => (Failure (or_default msg "Login failed"), net)
  end.
End Login.

(** The members of the context value the provider passes down
    ([const value = { ... }] in UserProvider.jsx). *)
Definition provider_value : list string :=
  ["user"; "login"; "loginWithTokens"; "register"; "logout"; "loading";
   "isAuthenticated"; "sessionExpiry"; "lastActivity"; "isRefreshing";
   "refreshToken"; "hasRole"; "hasPermission"; "updateActivity"].

(** [loginWithTokens] of the hook, over a context value with the members
    [context]. It stores both tokens and then calls [userContext.setUser]:
    when the context has no such member the call throws a TypeError, whose
    message [not_a_function] is the engine's, and the [catch] returns the
    failure. [refreshToken] is [None] when the caller passes [undefined],
    which [setItem] stores as the string "undefined". *)
Definition loginWithTokens (context : list string) (not_a_function : string)
    (token : string) (refreshToken : option string)
    (storage : gmap string string) : auth_result * gmap string string :=
  let storage := <["token" := token]> storage in
  let storage :=
    <["refreshToken" := default "undefined" refreshToken]> storage in
  if bool_decide ("setUser" ∈ context) then (Success, storage)
  else (Failure (or_default not_a_function "OAuth login failed"), storage).
End UseAuthSession.

(** ** Role and permission checks, and [ProtectedRoute]
    (client/src/context/UserProvider.jsx, client/src/components/ProtectedRoute) *)

Module Access.
Import UserProvider.

(** [hasRole]: [user?.role === role] *)
Definition hasRole (user : option user_record) (r : string) : bool :=
  match user with
  | Some u => String.eqb (role u) r
  | None => false
  end.

(** [hasPermission]: [user?.permissions?.includes(permission) || false] *)
Definition hasPermission (user : option user_record) (p : string) : bool :=
  match user with
  | Some u => bool_decide (p ∈ permissions u)
  | None => false
  end.

(** The props of [ProtectedRoute]; the two optional components are kept as
    whether they were given. *)
Record route_props := {
  requireAuth : bool;
  requiredRoles : list string;
  requiredPermissions : list string;
  fallbackPath : string;
  showFallback : bool;
  loadingComponent : bool;
  unauthorizedComponent : bool }.

(** The defaults of the destructured props. *)
Definition default_props : route_props :=
  {| requireAuth := true; requiredRoles := []; requiredPermissions := [];
     fallbackPath := "/login"; showFallback := true;
     loadingComponent := false; unauthorizedComponent := false |}.

(** What the component renders. *)
Inductive rendering :=
| LoadingComponent
| VerifyingAccess
| NavigateTo (path : string)
| Nothing
| UnauthorizedComponent
| AccessDenied (required : string) (yours : string)
| InsufficientPermissions (required : string)
| Children.

(** [ProtectedRoute], given the provider's [loading] and [user]
    ([isAuthenticated] is [!!user]). *)
Definition ProtectedRoute (props : route_props) (loading : bool)
    (user : option user_record) : rendering :=
  if loading then
    if loadingComponent props then LoadingComponent else VerifyingAccess
  else if requireAuth props && negb (bool_decide (is_Some user)) then
    if showFallback props then NavigateTo (fallbackPath props) else Nothing
  else if (0 <? length (requiredRoles props))%nat
          && negb (existsb (hasRole user) (requiredRoles props)) then
    if unauthorizedComponent props then UnauthorizedComponent
    else if showFallback props then
      AccessDenied (join ", " (requiredRoles props))
        (match user with
         | Some u => or_default (role u) "None"
         | None => "None"
         end)
    else Nothing
  else if (0 <? length (requiredPermissions props))%nat
          && negb (existsb (hasPermission user) (requiredPermissions props)) then
    if unauthorizedComponent props then UnauthorizedComponent
    else if showFallback props then
      InsufficientPermissions (join ", " (requiredPermissions props))
    else Nothing
  else Children.

(** The specialised routes: the props given explicitly come after the
    spread of the caller's props and override them. *)
Definition AdminRoute (props : route_props) : bool -> option user_record -> rendering :=
  ProtectedRoute
    {| requireAuth := requireAuth props;
       requiredRoles := ["admin"; "superadmin"];
       requiredPermissions := requiredPermissions props;
       fallbackPath := "/admin/login";
       showFallback := showFallback props;
       loadingComponent := loadingComponent props;
       unauthorizedComponent := unauthorizedComponent props |}.

Definition ModeratorRoute (props : route_props) : bool -> option user_record -> rendering :=
  ProtectedRoute
    {| requireAuth := requireAuth props;
       requiredRoles := ["admin"; "moderator"];
       requiredPermissions := ["moderate_content"];
       fallbackPath := fallbackPath props;
       showFallback := showFallback props;
       loadingComponent := loadingComponent props;
       unauthorizedComponent := unauthorizedComponent props |}.

Definition PremiumRoute (props : route_props) : bool -> option user_record -> rendering :=
  ProtectedRoute
    {| requireAuth := requireAuth props;
       requiredRoles := requiredRoles props;
       requiredPermissions := ["premium_access"];
       fallbackPath := fallbackPath props;
       showFallback := showFallback props;
       loadingComponent := loadingComponent props;
       unauthorizedComponent := unauthorizedComponent props |}.

(** Sample users. *)
Definition moderator_without_permission : user_record :=
  {| id := 3; username := "sara"; role := "moderator"; permissions := [] |}.
Definition admin_user : user_record :=
  {| id := 1; username := "root"; role := "admin";
     permissions := ["moderate_content"] |}.
End Access.

(** ** The answers API of the server
    (middleware/authMiddleware.js, controller/answerController.js,
    routes/answerRoutes.js, app.js) *)

Module Server.
(** [s.split(sep)] for a separator of one character. *)
Fixpoint split_on (sep : Ascii.ascii) (s : string) : list string :=
  match s with
  | EmptyString => [EmptyString]
  | String c rest =>
      if Ascii.eqb c sep then EmptyString :: split_on sep rest
      else match split_on sep rest with
           | piece :: pieces => String c piece :: pieces
           | [] => [String c EmptyString]
           end
  end.

(** The payload [jwt.verify] returns for a valid token. *)
Record decoded_token := { userid : Z; token_username : string }.

(** [req.loggedInUser] *)
Record logged_in_user := { lu_id : Z; lu_name : string }.

(** A JSON value of the request body, as far as the controller reads it. *)
Inductive body_value :=
| BNumber (n : Z)
| BString (s : string).

Definition truthy_value (v : option body_value) : bool :=
  match v with
  | Some (BNumber n) => negb (n =? 0)
  | Some (BString s) => truthy s
  | None => false
  end.

Record request := {
  authorization : option string;
  param_questionId : string;
  body_questionId : option body_value;
  body_answerText : option body_value;
  loggedInUser : option logged_in_user }.

(** A row of the answers query. *)
Record answer_row := {
  answer_id : Z;
  content : string;
  author : string;
  created_at : string }.

Inductive response_body :=
| ErrorBody (error message : string)
| MessageBody (message : string)
| AnswersBody (answers : list answer_row).

(** [res.status(code).json(body)] *)
Record response := { status : Z; body : response_body }.

(** The statements sent to the database. *)
Inductive query :=
| SelectAnswers (questionId : string)
| InsertAnswer (questionId : option body_value) (userId : Z)
    (answerText : option body_value).

(** A middleware either answers or calls [next()] with the request. *)
Inductive passed :=
| Respond (r : response)
| Next (req : request).

Definition set_loggedInUser (u : logged_in_user) (req : request) : request :=
  {| authorization := authorization req;
     param_questionId := param_questionId req;
     body_questionId := body_questionId req;
     body_answerText := body_answerText req;
     loggedInUser := Some u |}.

Section Handlers.
(** [jwt.verify(token, JWT_SECRET_KEY)]: the payload, or [None] when it
    throws. The two database statements: the rows, or [None] when the query
    throws; whether the insert went through. *)
Variable verify : string -> option decoded_token.
Variable select_answers : string -> option (list answer_row).
Variable insert_answer : option body_value -> Z -> option body_value -> bool.

Definition verifyUserToken (req : request) : passed :=
  match authorization req with
  | Some authHeader =>
      if negb (truthy authHeader) || negb (String.prefix "Bearer " authHeader)
      then Respond {| status := 401;
                      body := ErrorBody "Unauthorized"
                                "Token missing or invalid format" |}
      else
        let token := split_on Ascii.Space authHeader !! 1%nat in
        match (match token with Some t => verify t | None => None end) with
        | Some decodedToken =>
            Next (set_loggedInUser
                    {| lu_id := userid decodedToken;
                       lu_name := token_username decodedToken |} req)
        | None =>
            Respond {| status := 401;
                       body := ErrorBody "Unauthorized" "Token is not valid" |}
        end
  | None =>
      Respond {| status := 401;
                 body := ErrorBody "Unauthorized"
                           "Token missing or invalid format" |}
  end.


(** [createAnswer] reads [req.loggedInUser], which the middleware before it
    has set; without it the destructuring throws, which is [None] here. *)
Definition createAnswer (req : request) : option (response * list query) :=
  match loggedInUser req with
  | None => None
  | Some user =>
      let questionId := body_questionId req in
      let answerText := body_answerText req in
      let userId := lu_id user in
      if negb (truthy_value questionId) || negb (truthy_value answerText)
      then Some ({| status := 400;
                    body := ErrorBody "Bad Request"
                              "Question ID and Answer text are required" |},
                 [])
      else if insert_answer questionId userId answerText
      then Some ({| status := 201;
                    body := MessageBody "Answer posted successfully" |},
                 [InsertAnswer questionId userId answerText])
      else Some ({| status := 500;
                    body := ErrorBody "Internal Server Error"
                              "Something went wrong while posting your answer" |},
                 [InsertAnswer questionId userId answerText])
  end.


(** [POST /api/answer]: [verifyUserToken] of the application, then the one
    of the route, then [createAnswer]. *)
Definition post_answer_route (req : request) : option (response * list query) :=
  match verifyUserToken req with
  | Respond r => Some (r, [])
  | Next req =>
      match verifyUserToken req with
      | Respond r => Some (r, [])
      | Next req => createAnswer req
      end
  end.
End Handlers.

(** Sample parameters: one valid token, belonging to user 7. *)
Definition sample_verify (token : string) : option decoded_token :=
  if String.eqb token "good-token"
  then Some {| userid := 7; token_username := "abebe" |} else None.
Definition sample_request (header : option string) : request :=
  {| authorization := header; param_questionId := "12";
     body_questionId := Some (BNumber 12);
     body_answerText := Some (BString "Use a join.");
     loggedInUser := None |}.

(** A post by the holder of the valid token that lacks the answer text. *)
Definition incomplete_post : request :=
  {| authorization := Some "Bearer good-token";
     param_questionId := EmptyString;
     body_questionId := Some (BNumber 12);
     body_answerText := None;
     loggedInUser := None |}.
End Server.

(** * Properties *)

(** ** [retryRequest] *)

Section RetryFacts.
Import Retry.
Context {T E : Type} (message : E -> option string) (requestFn : nat -> T + E).
Variables maxRetries delay : Z.

Local Abbreviation loop := (retry_loop message requestFn maxRetries delay).
Local Abbreviation loop_post := (loop_post message requestFn maxRetries delay).

Ltac loop_leaf :=
  split_and!;
  try lia; try done; try (intros ? ? ?; lia);
  try (rewrite ?seqZ_nil by lia; simpl; by rewrite ?app_nil_r).

Lemma retry_loop_post fuel : forall attempt lastError w r w',
  loop fuel attempt lastError w = Some (r, w') ->
  loop_post attempt lastError w r w'.
Proof.
  induction fuel as [|fuel IH]; intros attempt lastError w r w' Hrun;
    [discriminate|].
  simpl in Hrun.
  destruct (Z.leb_spec attempt maxRetries) as [Hle|Hgt].
  - destruct (requestFn (calls w)) as [v|error] eqn:Hreq.
    + inversion Hrun; subst; clear Hrun. unfold loop_post; simpl.
      replace (S (calls w) - calls w)%nat with 1%nat by lia.
      loop_leaf.
    + destruct (no_retry (message error)) eqn:Hterm.
      * inversion Hrun; subst; clear Hrun. unfold loop_post; simpl.
        replace (S (calls w) - calls w)%nat with 1%nat by lia.
        loop_leaf. simpl. exists error. auto.
      * apply IH in Hrun. clear IH.
        destruct Hrun as (Hmono & Hbound & Hsome & Hsl & Hpre & Hres).
        destruct (Z.ltb_spec attempt maxRetries) as [Hlt|Hge];
          simpl in *.
        -- specialize (Hsome ltac:(lia)).
           unfold loop_post.
           replace (calls w' - calls w)%nat
             with (S (calls w' - S (calls w)))%nat by lia.
           split_and!; try lia.
           ++ rewrite Hsl.
              rewrite (seqZ_cons attempt) by lia.
              rewrite fmap_cons, <- app_assoc. simpl.
              do 4 f_equal; lia.
           ++ intros j Hj1 Hj2.
              destruct (decide (j = calls w)) as [->|Hne]; [eauto|].
              apply Hpre; lia.
           ++ destruct r as [v|x]; [split; [lia|tauto]|].
              destruct (decide (calls w' - S (calls w) = 0)%nat); [lia|].
              destruct (decide (S (calls w' - S (calls w)) = 0)%nat); [lia|].
              destruct Hres as (e & -> & Hlast & Hwhy).
              exists e. split_and!; auto. destruct Hwhy; [auto|right; lia].
        -- assert (attempt = maxRetries) as -> by lia.
           assert (calls w' = S (calls w)) as Hn by lia.
           unfold loop_post. rewrite Hn in *.
           replace (S (calls w) - calls w)%nat with 1%nat by lia.
           replace (S (calls w) - S (calls w))%nat with 0%nat in * by lia.
           split_and!; try lia.
           ++ rewrite Hsl. rewrite !seqZ_nil by lia. done.
           ++ destruct r as [v|x]; [destruct Hres; lia|].
              simpl in *. subst x. exists error. split_and!; auto.
              right; lia.
  - inversion Hrun; subst; clear Hrun. unfold loop_post.
    replace (calls w' - calls w')%nat with 0%nat by lia.
    loop_leaf.
Qed.

Lemma retry_loop_terminates fuel : forall attempt lastError w,
  (Z.to_nat (maxRetries + 1 - attempt) < fuel)%nat ->
  is_Some (loop fuel attempt lastError w).
Proof.
  induction fuel as [|fuel IH]; intros attempt lastError w Hfuel; [lia|].
  simpl. destruct (Z.leb_spec attempt maxRetries) as [Hle|Hgt]; [|eauto].
  destruct (requestFn (calls w)); [eauto|].
  destruct (no_retry _); [eauto|].
  apply IH. lia.
Qed.

(** C10: with [maxRetries < 1] the loop body never runs: [requestFn] is not
    invoked and the call rejects with [undefined], the initial value of
    [lastError]. *)
Theorem retryRequest_no_attempts :
  maxRetries < 1 ->
  retryRequest message requestFn maxRetries delay
  = Some (Throws None, {| calls := 0; sleeps := [] |}).
Proof.
  intros Hlt. unfold retryRequest. simpl.
  destruct (Z.leb_spec 1 maxRetries); [lia|reflexivity].
Qed.
End RetryFacts.

Section RetryDefault.
Import Retry.
Context {T E : Type} (message : E -> option string) (requestFn : nat -> T + E).

(** With the defaults (3 attempts, 1000 ms) [retryRequest] settles after
    one to three invocations; the wait before attempt k+1 is 1000 * k ms;
    two retryable failures followed by a success return the success after
    exactly three invocations. An error is not retried exactly when its
    message contains, letter for letter, "Authentication", "Access denied"
    or "validation": such an error ends the run at once and is thrown as it
    is (after a single invocation when it is the first), and every failure
    before the last invocation was of the other kind. Whatever is thrown
    is the error of the last invocation, unchanged, and three failures of
    the other kind take three invocations with waits of 1000 and 2000 ms. *)
Lemma retryRequest_policy_by_substring :
  let terminal (e : E) :=
    match message e with
    | Some m =>
        includes "Authentication" m || includes "Access denied" m
        || includes "validation" m
    | None => false
    end in
  exists r w,
    retryRequest message requestFn 3 1000 = Some (r, w) /\
    (1 <= calls w <= 3)%nat /\
    length (sleeps w) = pred (calls w) /\
    (forall k : nat, (1 <= k)%nat -> (k < calls w)%nat ->
       sleeps w !! pred k = Some (1000 * Z.of_nat k)) /\
    (forall e0 e1 v,
       requestFn 0%nat = inr e0 -> terminal e0 = false ->
       requestFn 1%nat = inr e1 -> terminal e1 = false ->
       requestFn 2%nat = inl v ->
       r = Returns v /\ calls w = 3%nat) /\
    (forall k e,
       (k < calls w)%nat -> requestFn k = inr e -> terminal e = true ->
       r = Throws (Some e) /\ calls w = S k) /\
    (forall e,
       requestFn 0%nat = inr e -> terminal e = true ->
       r = Throws (Some e) /\ calls w = 1%nat) /\
    (forall k, (S k < calls w)%nat ->
       exists e, requestFn k = inr e /\ terminal e = false) /\
    (forall x, r = Throws x ->
       exists e, x = Some e /\ requestFn (pred (calls w)) = inr e) /\
    ((forall k, (k < 3)%nat ->
        exists e, requestFn k = inr e /\ terminal e = false) ->
       calls w = 3%nat /\ sleeps w = [1000; 2000] /\
       exists e, r = Throws (Some e) /\ requestFn 2%nat = inr e).
Proof.
  cbv zeta.
  change (fun e : E =>
            match message e with
            | Some m =>
                includes "Authentication" m || includes "Access denied" m
                || includes "validation" m
            | None => false
            end) with (fun e : E => no_retry (message e)).
  cbv beta.
  destruct (retry_loop_terminates message requestFn 3 1000
              (S (Z.to_nat 3)) 1 None {| calls := 0; sleeps := [] |})
    as [[r w] Hrun]; [simpl; lia|].
  exists r, w. split; [exact Hrun|].
  apply retry_loop_post in Hrun.
  destruct Hrun as (_ & Hbound & Hsome & Hsl & Hpre & Hres).
  simpl in *. rewrite Nat.sub_0_r in *.
  specialize (Hsome ltac:(lia)).
  assert (Hterm : forall k e, (k < calls w)%nat -> requestFn k = inr e ->
            no_retry (message e) = true ->
            r = Throws (Some e) /\ calls w = S k).
  { intros k e Hk Hreq Hno.
    assert (calls w = S k) as Hn.
    { destruct (decide (S k < calls w)%nat) as [Hlt|]; [|lia].
      destruct (Hpre k ltac:(lia) Hlt) as (e' & He' & Hno').
      congruence. }
    split; [|exact Hn]. rewrite Hn in Hres. simpl in Hres.
    destruct r as [v|x]; [destruct Hres; congruence|].
    destruct (decide (S k = 0)%nat); [lia|].
    destruct Hres as (e' & -> & He' & _). congruence. }
  split_and!; try lia.
  - rewrite Hsl, length_fmap, length_seqZ. lia.
  - intros k Hk1 Hk2. rewrite Hsl, list_lookup_fmap.
    rewrite lookup_seqZ_lt by lia. simpl. f_equal. lia.
  - intros e0 e1 v H0 Hn0 H1 Hn1 H2.
    assert (calls w = 3%nat) as Hn.
    { destruct (decide (calls w = 1%nat)) as [Hc|].
      { rewrite Hc in Hres. simpl in Hres.
        destruct r as [?|x]; [destruct Hres; congruence|].
        destruct Hres as (e & _ & He & [Hno|?]); [|lia]. congruence. }
      destruct (decide (calls w = 2%nat)) as [Hc|]; [|lia].
      rewrite Hc in Hres. simpl in Hres.
      destruct r as [?|x]; [destruct Hres; congruence|].
      destruct Hres as (e & _ & He & [Hno|?]); [|lia]. congruence. }
    split; [|exact Hn]. rewrite Hn in Hres. simpl in Hres.
    destruct r as [v'|x]; [destruct Hres; congruence|].
    destruct Hres as (e & _ & He & _). congruence.
  - exact Hterm.
  - intros e He Hno. apply (Hterm 0%nat e); [lia|done|done].
  - intros k Hk. apply Hpre; lia.
  - intros x ->. destruct (decide (calls w = 0)%nat); [lia|].
    destruct Hres as (e & -> & He & _). eauto.
  - intros Hall.
    assert (calls w = 3%nat) as Hn.
    { destruct r as [v|x].
      - destruct Hres as [_ Hv].
        destruct (Hall (pred (calls w)) ltac:(lia)) as (e & He & _).
        congruence.
      - destruct (decide (calls w = 0)%nat); [lia|].
        destruct Hres as (e & _ & He & [Hno|Hfull]); [|lia].
        destruct (Hall (pred (calls w)) ltac:(lia)) as (e' & He' & Hno').
        congruence. }
    split; [exact Hn|]. split.
    + rewrite Hsl, Hn. reflexivity.
    + rewrite Hn in Hres. simpl in Hres.
      destruct r as [v|x].
      * destruct Hres as [_ Hv]. destruct (Hall 2%nat ltac:(lia))
          as (e & He & _). congruence.
      * destruct Hres as (e & -> & He & _). eauto.
Qed.
End RetryDefault.

Section RetryWitnesses.
Import Retry.

(** C5 fails on the code. The comment above the test in [retryRequest]
    says "Don't retry on authentication or validation errors", and an error
    whose message contains "Authentication", "Access denied" or
    "validation" is indeed thrown after the invocation that met it, while
    attempts, waits, the success after two retryable failures and the last
    error are as claimed. But the test looks for these three substrings,
    letter for letter, and a validation failure need not carry the third.
    A request that is always refused with "Validation failed" is invoked
    three times, with waits of 1000 and 2000 ms, before the error is
    thrown. So is a post that lacks the answer text: the answer controller
    refuses it with status 400 and "Question ID and Answer text are
    required", the response-error interceptor rejects with that message,
    and [retryRequest] sends the post three times. *)
Theorem retryRequest_retries_validation_failures :
  (forall (T E : Type) (message : E -> option string)
          (requestFn : nat -> T + E),
     let terminal (e : E) :=
       match message e with
       | Some m =>
           includes "Authentication" m || includes "Access denied" m
           || includes "validation" m
       | None => false
       end in
     exists r w,
       retryRequest message requestFn 3 1000 = Some (r, w) /\
       (1 <= calls w <= 3)%nat /\
       length (sleeps w) = pred (calls w) /\
       (forall k : nat, (1 <= k)%nat -> (k < calls w)%nat ->
          sleeps w !! pred k = Some (1000 * Z.of_nat k)) /\
       (forall e0 e1 v,
          requestFn 0%nat = inr e0 -> terminal e0 = false ->
          requestFn 1%nat = inr e1 -> terminal e1 = false ->
          requestFn 2%nat = inl v ->
          r = Returns v /\ calls w = 3%nat) /\
       (forall k e,
          (k < calls w)%nat -> requestFn k = inr e -> terminal e = true ->
          r = Throws (Some e) /\ calls w = S k) /\
       (forall e,
          requestFn 0%nat = inr e -> terminal e = true ->
          r = Throws (Some e) /\ calls w = 1%nat) /\
       (forall k, (S k < calls w)%nat ->
          exists e, requestFn k = inr e /\ terminal e = false) /\
       (forall x, r = Throws x ->
          exists e, x = Some e /\ requestFn (pred (calls w)) = inr e) /\
       ((forall k, (k < 3)%nat ->
           exists e, requestFn k = inr e /\ terminal e = false) ->
          calls w = 3%nat /\ sleeps w = [1000; 2000] /\
          exists e, r = Throws (Some e) /\ requestFn 2%nat = inr e)) /\
  retryRequest Some always_invalid 3 1000
  = Some (Throws (Some "Validation failed"),
          {| calls := 3; sleeps := [1000; 2000] |}) /\
  (forall (insert_answer : option Server.body_value -> Z ->
                           option Server.body_value -> bool)
          (h : Interceptor.host),
     let refused := "Question ID and Answer text are required" in
     Server.post_answer_route Server.sample_verify insert_answer
       Server.incomplete_post
     = Some ({| Server.status := 400;
                Server.body := Server.ErrorBody "Bad Request" refused |}, []) /\
     Interceptor.on_response_error (InterceptorSamples.bad_request refused) h
     = (refused, h) /\
     retryRequest Some (always_refused refused) 3 1000
     = Some (Throws (Some refused),
             {| calls := 3; sleeps := [1000; 2000] |})).
Proof.
  split; [|split].
  - intros T E message requestFn.
    exact (retryRequest_policy_by_substring message requestFn).
  - reflexivity.
  - intros insert_answer h. cbv zeta. split_and!; reflexivity.
Qed.

Lemma retryRequest_retries_validation_failures_witness :
  (exists r w, retryRequest Some flaky 3 1000 = Some (r, w) /\
     r = Returns "ok" /\ calls w = 3%nat) /\
  (exists r w, retryRequest Some always_unauthenticated 3 1000 = Some (r, w) /\
     r = Throws (Some "Authentication required") /\ calls w = 1%nat) /\
  (exists r w, retryRequest Some always_invalid 3 1000 = Some (r, w) /\
     r = Throws (Some "Validation failed") /\ calls w = 3%nat).
Proof.
  split_and!.
  - destruct (proj1 retryRequest_retries_validation_failures
                string string Some flaky)
      as (r & w & Hrun & _ & _ & _ & Hflaky & _).
    exists r, w. split; [exact Hrun|].
    apply (Hflaky "Network error. Please check your connection."
                  "Network error. Please check your connection." "ok");
      reflexivity.
  - destruct (proj1 retryRequest_retries_validation_failures
                string string Some always_unauthenticated)
      as (r & w & Hrun & _ & _ & _ & _ & _ & Hfirst & _).
    exists r, w. split; [exact Hrun|].
    apply (Hfirst "Authentication required"); reflexivity.
  - destruct (proj1 retryRequest_retries_validation_failures
                string string Some always_invalid)
      as (r & w & Hrun & _ & _ & _ & _ & _ & _ & _ & _ & Hall).
    exists r, w. split; [exact Hrun|].
    destruct Hall as (Hn & _ & e & -> & He).
    + intros k _. exists "Validation failed". split; reflexivity.
    + injection He as <-. split; [reflexivity|exact Hn].
Defined.

Lemma retryRequest_no_attempts_witness :
  0 < 1 /\
  retryRequest Some flaky 0 1000
  = Some (Throws None, {| calls := 0; sleeps := [] |}).
Proof.
  split; [lia|]. apply retryRequest_no_attempts. lia.
Defined.
End RetryWitnesses.

(** ** The response-error interceptor *)

Section InterceptorFacts.
Import Interceptor.

Lemma emitted_none h : emitted h h = [].
Proof. unfold emitted. apply drop_all. Qed.

Lemma emitted_log k d h : emitted h (logSecurityEvent k d h) = [{| kind := k; details := d |}].
Proof. unfold emitted. simpl. apply drop_app_length. Qed.

(** C4, as stated, fails: a 401 received on a page whose path merely
    contains "/login" is answered with "Authentication required", but no
    navigation to the login path is started. *)
Lemma unauthorized_stays_put :
  let '(msg, h') :=
    on_response_error unauthorized (browsing "/admin/login-audit") in
  msg = "Authentication required" /\
  pathname h' = "/admin/login-audit" /\
  navigations h' = [].
Proof. vm_compute. split_and!; reflexivity. Qed.

Lemma redirect_to_login_log h :
  securityLog (redirect_to_login h) = securityLog h.
Proof. unfold redirect_to_login. by destruct (includes _ _). Qed.

Lemma redirect_to_login_session h :
  currentSession (redirect_to_login h) = currentSession h.
Proof. unfold redirect_to_login. by destruct (includes _ _). Qed.

Lemma redirect_to_login_storage h :
  localStorage (redirect_to_login h) = localStorage h.
Proof. unfold redirect_to_login. by destruct (includes _ _). Qed.

Lemma redirect_to_login_navigations h :
  navigations (redirect_to_login h)
  = navigations h ++ (if includes "/login" (pathname h) then [] else ["/login"]).
Proof.
  unfold redirect_to_login. destruct (includes _ _); simpl; [|done].
  by rewrite app_nil_r.
Qed.

Lemma emitted_unauthorized d h :
  emitted h (redirect_to_login (clear_session_and_tokens
               (logSecurityEvent UNAUTHORIZED_ACCESS d h)))
  = [{| kind := UNAUTHORIZED_ACCESS; details := d |}].
Proof.
  unfold emitted. rewrite redirect_to_login_log. simpl. apply drop_app_length.
Qed.

Lemma emitted_generateToken k d h :
  emitted h (generateToken (logSecurityEvent k d h))
  = [{| kind := k; details := d |}].
Proof. unfold emitted. simpl. apply drop_app_length. Qed.

(** C4 (amended): the handler answers by the first rule of the table that
    applies, with that rule's message and event; the 429 rule looks at the
    error's own status. With status 429 and retryAfter 5 the message is
    "Rate limit exceeded. Try again in 5 seconds." and one RATE_LIMIT_EXCEEDED
    event is logged. A 401 response (the 429 rule not applying) clears the
    session and both tokens, is answered "Authentication required", and
    navigates to "/login" unless the current path already contains "/login". *)
Theorem response_error_classification error h :
  let '(msg, h') := on_response_error error h in
  (exists r, classify error = Some r /\ msg = says r error /\
             kind <$> emitted h h' = option_list (emits r)) /\
  (e_status error = Some 429 -> e_retryAfter error = JNum 5 ->
     msg = "Rate limit exceeded. Try again in 5 seconds." /\
     kind <$> emitted h h' = [RATE_LIMIT_EXCEEDED]) /\
  (e_status error <> Some 429 -> response_status_is error 401 = true ->
     msg = "Authentication required" /\
     kind <$> emitted h h' = [UNAUTHORIZED_ACCESS] /\
     currentSession h' = None /\
     localStorage h' !! "token" = None /\
     localStorage h' !! "refreshToken" = None /\
     navigations h' =
       navigations h ++ (if includes "/login" (pathname h) then [] else ["/login"])).
Proof.
  unfold on_response_error, classify, classification_table.
  cbn [List.find applies].
  destruct (bool_decide (e_status error = Some 429)) eqn:H429.
  { apply bool_decide_eq_true in H429. rewrite emitted_log.
    split_and!; [eexists; split_and!; reflexivity | by intros _ -> | done]. }
  apply bool_decide_eq_false in H429.
  destruct (response_status_is error 401) eqn:H401.
  { rewrite emitted_unauthorized, redirect_to_login_session,
      redirect_to_login_storage, redirect_to_login_navigations.
    split_and!; [eexists; split_and!; reflexivity | done |].
    intros _ _. simpl. split_and!; try done.
    - rewrite lookup_delete_ne by done. apply lookup_delete_eq.
    - apply lookup_delete_eq. }
  destruct (response_status_is error 403) eqn:H403.
  { rewrite emitted_log.
    split_and!; [eexists; split_and!; reflexivity | done | done]. }
  destruct (response_status_is error 404) eqn:H404.
  { rewrite emitted_none.
    split_and!; [eexists; split_and!; reflexivity | done | done]. }
  destruct (response_status_is error 419) eqn:H419.
  { rewrite emitted_generateToken.
    split_and!; [eexists; split_and!; reflexivity | done | done]. }
  destruct (response_status_ge error 500) eqn:H500.
  { rewrite emitted_log.
    split_and!; [eexists; split_and!; reflexivity | done | done]. }
  unfold has_field_errors, has_server_message.
  destruct (e_response error) as [r|] eqn:Hresp.
  2:{ rewrite emitted_log. rewrite bool_decide_eq_true_2 by done.
      split_and!; [eexists; split_and!; reflexivity | done | done]. }
  rewrite bool_decide_eq_false_2 by done.
  destruct (r_status r =? 422) eqn:H422; simpl.
  - destruct (response_errors r) as [errs|] eqn:Herrs.
    + rewrite emitted_none. rewrite bool_decide_eq_true_2 by eauto.
      split_and!; [eexists; split_and!; try reflexivity | done | done].
      simpl. by rewrite Hresp, Herrs.
    + rewrite (bool_decide_eq_false_2 (is_Some None)) by (by intros [? ?]).
      destruct (response_message r) as [m|] eqn:Hmsg.
      * rewrite emitted_none. rewrite bool_decide_eq_true_2 by eauto.
        split_and!; [eexists; split_and!; try reflexivity | done | done].
        simpl. by rewrite Hresp, Hmsg.
      * rewrite (bool_decide_eq_false_2 (is_Some None)) by (by intros [? ?]).
        rewrite emitted_none.
        split_and!; [eexists; split_and!; reflexivity | done | done].
  - destruct (response_message r) as [m|] eqn:Hmsg.
    + rewrite emitted_none. rewrite bool_decide_eq_true_2 by eauto.
      split_and!; [eexists; split_and!; try reflexivity | done | done].
      simpl. by rewrite Hresp, Hmsg.
    + rewrite (bool_decide_eq_false_2 (is_Some None)) by (by intros [? ?]).
      rewrite emitted_none.
      split_and!; [eexists; split_and!; reflexivity | done | done].
Qed.

Lemma response_error_classification_witness :
  fst (on_response_error rate_limited (browsing "/questions"))
    = "Rate limit exceeded. Try again in 5 seconds." /\
  fst (on_response_error unauthorized (browsing "/questions"))
    = "Authentication required" /\
  navigations (snd (on_response_error unauthorized (browsing "/questions")))
    = ["/login"].
Proof.
  generalize (response_error_classification rate_limited (browsing "/questions")).
  generalize (response_error_classification unauthorized (browsing "/questions")).
  destruct (on_response_error rate_limited _) as [m1 h1].
  destruct (on_response_error unauthorized _) as [m2 h2].
  intros (_ & _ & H2) (_ & H1 & _). simpl.
  destruct H1 as [-> _]; [reflexivity | reflexivity |].
  destruct H2 as (-> & _ & _ & _ & _ & ->); [discriminate | reflexivity |].
  split_and!; reflexivity.
Defined.
End InterceptorFacts.

(** ** [register] of the [useAuth] hook *)

Section RegisterFacts.
Import UseAuth.
Variable isValidEmail : string -> bool.
Variable validatePassword : string -> password_validation.
Variable contextRegister : string -> string -> string -> auth_result.

Local Abbreviation register :=
  (register isValidEmail validatePassword contextRegister).

(** C6 (amended): [register] runs its local checks before any network call,
    in this order: all four fields non-empty, email format, password
    strength, password equal to its confirmation, username of at least three
    characters, counted as [username.length] counts them, in UTF-16 code
    units. The first failing check decides the error returned and no call
    is made; the password-strength message joins all the violations
    reported by [validatePassword]. When every check passes, the provider's
    [register] is called exactly once; so a call is made only for a
    username of three code units or more, a valid email, a valid password
    and a matching confirmation. *)
Theorem register_validates_in_code_order username email password confirmPassword :
  match first_failure (checks_in_code_order isValidEmail validatePassword
                         username email password confirmPassword) with
  | Some msg =>
      register username email password confirmPassword
      = (Failure (or_default msg "Registration failed"), [])
  | None =>
      register username email password confirmPassword
      = (match contextRegister username email password with
         | Success => Success
         | Failure error => Failure (or_default error "Registration failed")
         end, [(username, email, password)])
  end /\
  ((js_length username < 3)%nat ->
   snd (register username email password confirmPassword) = []) /\
  (snd (register username email password confirmPassword) <> [] ->
   (3 <= js_length username)%nat /\ isValidEmail email = true /\
   isValid (validatePassword password) = true /\
   password = confirmPassword).
Proof.
  unfold register, UseAuth.register, register_try, checks_in_code_order.
  cbn [first_failure].
  destruct (negb (truthy username) || negb (truthy email)
            || negb (truthy password) || negb (truthy confirmPassword));
    [by split_and!|].
  destruct (isValidEmail email); cbn [negb]; [|by split_and!].
  destruct (isValid (validatePassword password)); cbn [negb];
    [|by split_and!].
  destruct (String.eqb_spec password confirmPassword); cbn [negb];
    [|by split_and!].
  destruct (Z.ltb_spec (Z.of_nat (js_length username)) 3);
    [by split_and!; try done; lia|].
  destruct (contextRegister username email password);
    (split_and!; [reflexivity|cbn [snd]; lia|intros _; split_and!; try done; lia]).
Qed.

(** Whatever the helpers accept otherwise: a malformed email is reported
    even when the username is too short. *)
Lemma register_reports_email_first username email password confirmPassword :
  truthy username = true -> truthy email = true ->
  truthy password = true -> truthy confirmPassword = true ->
  isValidEmail email = false ->
  register username email password confirmPassword
  = (Failure "Please enter a valid email address", []).
Proof.
  intros Hu He Hp Hc Hbad.
  unfold register, UseAuth.register, register_try.
  by rewrite Hu, He, Hp, Hc, Hbad.
Qed.
End RegisterFacts.

Section RegisterExamples.
Import UseAuth.

(** C6, as stated, fails: with a two-letter username and a malformed email
    the username check comes first in the stated order, yet the error
    returned is the email one. *)
Lemma register_email_before_username :
  first_failure (checks_in_spec_order sample_isValidEmail
                   sample_validatePassword "ab" "not-an-email"
                   "Secret123!" "Secret123!")
    = Some "Username must be at least 3 characters long" /\
  register sample_isValidEmail sample_validatePassword sample_contextRegister
    "ab" "not-an-email" "Secret123!" "Secret123!"
    = (Failure "Please enter a valid email address", []).
Proof. split; reflexivity. Qed.

(** The length is counted in UTF-16 code units, as JavaScript counts it: a
    username of two accented letters is too short, whatever the number of
    bytes that encode it. *)
Example register_counts_code_units :
  register sample_isValidEmail sample_validatePassword sample_contextRegister
    "éé" "abebe@example.com" "Secret123!" "Secret123!"
  = (Failure "Username must be at least 3 characters long", []).
Proof. reflexivity. Qed.

Lemma register_validates_in_code_order_witness :
  snd (register sample_isValidEmail sample_validatePassword
         sample_contextRegister
         "éé" "abebe@example.com" "Secret123!" "Secret123!") = [] /\
  snd (register sample_isValidEmail sample_validatePassword
         sample_contextRegister
         "abebe" "abebe@example.com" "Secret123!" "Secret123!")
  = [("abebe", "abebe@example.com", "Secret123!")] /\
  (3 <= js_length "abebe")%nat.
Proof.
  split_and!.
  - apply (proj1 (proj2 (register_validates_in_code_order
                           sample_isValidEmail sample_validatePassword
                           sample_contextRegister
                           "éé" "abebe@example.com" "Secret123!"
                           "Secret123!"))).
    vm_compute. lia.
  - reflexivity.
  - apply (proj2 (proj2 (register_validates_in_code_order
                           sample_isValidEmail sample_validatePassword
                           sample_contextRegister
                           "abebe" "abebe@example.com" "Secret123!"
                           "Secret123!"))).
    discriminate.
Defined.
End RegisterExamples.

(** ** The session provider *)

Section ProviderFacts.
Import UserProvider.

Ltac map_cases :=
  repeat match goal with
  | H : context [<[_ := _]> _ !! _] |- _ =>
      rewrite lookup_insert in H; case_decide; simplify_eq; simpl in *
  | H : context [delete _ _ !! _] |- _ =>
      rewrite lookup_delete in H; case_decide; simplify_eq; simpl in *
  end.

Ltac consistent_tac :=
  unfold timers_consistent, owner in *; simpl in *;
  split_and!; intros; map_cases;
  repeat match goal with
  | H : forall id tm, timers _ !! id = Some tm -> _,
    L : timers _ !! _ = Some _ |- _ =>
      let Hlt := fresh "Hlt" in
      let Hown := fresh "Hown" in
      pose proof (H _ _ L) as [Hlt Hown]; clear L
  end;
  repeat case_match; simplify_eq; simpl in *;
  try split; try done; try lia; try solve [eauto];
  try solve [ match goal with
              | Hb : forall id, _ = Some id -> (id < _)%positive,
                E : _ = Some _ |- _ => pose proof (Hb _ E); lia
              end ].

Lemma scheduleTokenRefresh_consistent c d st :
  timers_consistent st -> timers_consistent (scheduleTokenRefresh c d st).
Proof.
  intros (Ht & Hr & Ha & Hd). unfold scheduleTokenRefresh.
  destruct (refreshTimeoutRef st) as [r|] eqn:Er; consistent_tac.
Qed.

Lemma scheduleActivityTimeout_consistent st :
  timers_consistent st -> timers_consistent (scheduleActivityTimeout st).
Proof.
  intros (Ht & Hr & Ha & Hd). unfold scheduleActivityTimeout.
  destruct (activityTimeoutRef st) as [r|] eqn:Er; consistent_tac.
Qed.

Lemma handleLogout_consistent st :
  timers_consistent st -> timers_consistent (handleLogout st).
Proof.
  intros (Ht & Hr & Ha & Hd). unfold handleLogout. simpl.
  destruct (refreshTimeoutRef st) as [r|] eqn:Er;
  destruct (activityTimeoutRef st) as [a|] eqn:Ea; simpl; rewrite ?Ea; consistent_tac.
Qed.

Ltac via_activity :=
  lazymatch goal with
  | |- context [scheduleActivityTimeout ?x] =>
      refine (scheduleActivityTimeout_consistent x _)
  end.
Ltac via_refresh :=
  lazymatch goal with
  | |- context [scheduleTokenRefresh ?c ?d ?x] =>
      refine (scheduleTokenRefresh_consistent c d x _)
  end.
Ltac via_logout :=
  lazymatch goal with
  | |- context [handleLogout ?x] => refine (handleLogout_consistent x _)
  end.

Lemma cleanup_consistent st :
  timers_consistent st -> timers_consistent (cleanup st).
Proof.
  intros (Ht & Hr & Ha & Hd). unfold cleanup.
  destruct (refreshTimeoutRef st) as [r|] eqn:Er;
  destruct (activityTimeoutRef st) as [a|] eqn:Ea; simpl; rewrite ?Ea; consistent_tac.
Qed.

Lemma store_refresh_token_consistent r st :
  timers_consistent st -> timers_consistent (store_refresh_token r st).
Proof. intros H. unfold store_refresh_token. repeat case_match; exact H. Qed.

Ltac via_store :=
  lazymatch goal with
  | |- context [store_refresh_token ?r ?x] =>
      refine (store_refresh_token_consistent r x _)
  end.

Lemma handleSessionTimeout_consistent st :
  timers_consistent st -> timers_consistent (handleSessionTimeout st).
Proof. intros H. unfold handleSessionTimeout. via_logout. exact H. Qed.

Lemma refreshToken_call_consistent c st :
  timers_consistent st -> timers_consistent (snd (refreshToken_call c st)).
Proof.
  intros H. unfold refreshToken_call.
  destruct (if c then refreshPromiseRef st else None); [exact H|].
  destruct (getItem "token" (set_isRefreshing true st)); [exact H|].
  simpl. via_logout. exact H.
Qed.

Lemma refreshToken_resume_consistent c p reply st :
  timers_consistent st -> timers_consistent (refreshToken_resume c p reply st).
Proof.
  intros H. unfold refreshToken_resume.
  destruct (promises st !! p) as [[|]|]; try exact H.
  destruct reply as [data|]; [via_refresh|via_logout]; exact H.
Qed.

Lemma login_consistent c reply st :
  timers_consistent st -> timers_consistent (snd (login c reply st)).
Proof.
  intros H. unfold login. destruct reply as [data|m]; [|exact H]. simpl.
  via_activity. via_refresh. via_store. exact H.
Qed.

Lemma register_consistent c reply st :
  timers_consistent st -> timers_consistent (snd (register c reply st)).
Proof.
  intros H. unfold register. destruct reply as [data|m]; [|exact H]. simpl.
  via_activity. via_refresh. exact H.
Qed.

Lemma loginWithTokens_consistent t r u st :
  timers_consistent st -> timers_consistent (snd (loginWithTokens t r u st)).
Proof.
  intros H. unfold loginWithTokens. simpl.
  via_activity. via_store. exact H.
Qed.

Lemma set_loading_consistent b st :
  timers_consistent st -> timers_consistent (set_loading b st).
Proof. intros H. exact H. Qed.

Lemma initializeAuth_consistent c reply st :
  timers_consistent st -> timers_consistent (initializeAuth c reply st).
Proof.
  intros H. unfold initializeAuth. apply set_loading_consistent.
  destruct (getItem "token" st); [|exact H].
  destruct reply as [data|].
  - via_activity. via_refresh. exact H.
  - via_logout. exact H.
Qed.

Lemma initializeAuth_call_consistent st :
  timers_consistent st -> timers_consistent (initializeAuth_call st).
Proof.
  intros H. unfold initializeAuth_call.
  destruct (getItem "token" st); exact H.
Qed.

Lemma initializeAuth_resume_consistent c reply st :
  timers_consistent st -> timers_consistent (initializeAuth_resume c reply st).
Proof.
  intros H. unfold initializeAuth_resume. apply set_loading_consistent.
  destruct reply as [data|].
  - via_activity. via_refresh. exact H.
  - via_logout. exact H.
Qed.

(** The mount is the start of [initializeAuth] followed, when a request
    went out, by its continuation. *)
Lemma initializeAuth_split c reply st :
  initializeAuth c reply st
  = match getItem "token" st with
    | Some _ => initializeAuth_resume c reply (initializeAuth_call st)
    | None => initializeAuth_call st
    end.
Proof.
  unfold initializeAuth, initializeAuth_call, initializeAuth_resume.
  destruct (getItem "token" st); [|done]. by destruct reply.
Qed.

Lemma fire_consistent id st :
  timers_consistent st -> timers_consistent (fire id st).
Proof.
  intros H. unfold fire.
  destruct (timers st !! id) as [tm|] eqn:Hid; [|exact H].
  destruct (due (now st) tm); [|exact H].
  assert (timers_consistent (set_timers (delete id (timers st)) st)) as H'.
  { destruct H as (Ht & Hr & Ha & Hd). consistent_tac. }
  destruct (callback tm).
  - by apply refreshToken_call_consistent.
  - by apply handleSessionTimeout_consistent.
Qed.

Lemma initial_consistent t0 : timers_consistent (initial t0).
Proof. unfold timers_consistent. simpl. split_and!; intros; simplify_map_eq. Qed.

Lemma commit_consistent rendered st :
  timers_consistent st -> timers_consistent (commit rendered st).
Proof.
  intros H. unfold commit, rerun_effect.
  destruct (Bool.eqb (isRefreshing st) rendered); [exact H|].
  by apply initializeAuth_call_consistent, cleanup_consistent.
Qed.

Lemma step_consistent o st :
  timers_consistent st -> timers_consistent (step o st).
Proof.
  intros H. destruct o; cbn [step].
  - by apply login_consistent.
  - by apply register_consistent.
  - by apply loginWithTokens_consistent.
  - by apply initializeAuth_consistent.
  - by apply initializeAuth_resume_consistent.
  - by apply commit_consistent, refreshToken_call_consistent.
  - by apply commit_consistent, refreshToken_resume_consistent.
  - by apply handleLogout_consistent.
  - exact H.
  - by apply (scheduleActivityTimeout_consistent (updateActivity st)).
  - by apply cleanup_consistent.
  - by apply commit_consistent, fire_consistent.
  - exact H.
Qed.

(** The consistency of timers and refs is an invariant of the provider. *)
Lemma run_consistent os : forall st,
  timers_consistent st -> timers_consistent (run os st).
Proof.
  induction os as [|o os IH]; intros st H; [done|].
  apply IH. by apply step_consistent.
Qed.

Lemma signed_in_consistent t0 : timers_consistent (signed_in t0).
Proof. apply run_consistent, initial_consistent. Qed.

(** *** The delay the host waits for *)

Lemma host_delay_in_range d : 0 <= d <= 2147483647 -> host_delay d = d.
Proof. intros H. unfold host_delay. rewrite Z.mod_small by lia. lia. Qed.

Lemma host_delay_wraps d : 2147483647 < d < 4294967296 -> host_delay d = 0.
Proof.
  intros H. unfold host_delay.
  rewrite <- (Z_mod_plus_full _ (-1)). rewrite Z.mod_small by lia. lia.
Qed.

(** *** What the scheduling functions leave behind *)

Lemma scheduleTokenRefresh_scheduled c d st :
  let st' := scheduleTokenRefresh c d st in
  scheduled (refreshTimeoutRef st') st'
  = Some {| fires_at := now st + host_delay (Z.max (d - 60000) 0);
            callback := CallRefreshToken c |}.
Proof.
  unfold scheduleTokenRefresh, scheduled.
  destruct (refreshTimeoutRef st); simpl; apply lookup_insert_eq.
Qed.

Lemma scheduleActivityTimeout_scheduled st :
  let st' := scheduleActivityTimeout st in
  scheduled (activityTimeoutRef st') st'
  = Some {| fires_at := now st + 30 * 60 * 1000;
            callback := CallHandleSessionTimeout |}.
Proof.
  unfold scheduleActivityTimeout, scheduled.
  destruct (activityTimeoutRef st); simpl; apply lookup_insert_eq.
Qed.

Lemma scheduleActivityTimeout_keeps_refresh st :
  timers_consistent st ->
  let st' := scheduleActivityTimeout st in
  refreshTimeoutRef st' = refreshTimeoutRef st /\
  scheduled (refreshTimeoutRef st') st' = scheduled (refreshTimeoutRef st) st.
Proof.
  intros (Ht & Hr & Ha & Hd). unfold scheduleActivityTimeout, scheduled.
  destruct (activityTimeoutRef st) as [a|] eqn:Ea; simpl; (split; [done|]);
    destruct (refreshTimeoutRef st) as [r|] eqn:Er; try done.
  - rewrite lookup_insert_ne by (specialize (Hr r eq_refl); lia).
    apply lookup_delete_ne. intros ->. by apply (Hd r r).
  - rewrite lookup_insert_ne by (specialize (Hr r eq_refl); lia). done.
Qed.


Lemma scheduleTokenRefresh_now c d st :
  now (scheduleTokenRefresh c d st) = now st.
Proof. unfold scheduleTokenRefresh. by destruct (refreshTimeoutRef st). Qed.

Lemma scheduleActivityTimeout_now st :
  now (scheduleActivityTimeout st) = now st.
Proof. unfold scheduleActivityTimeout. by destruct (activityTimeoutRef st). Qed.

(** After [scheduleTokenRefresh] then [scheduleActivityTimeout], as every
    operation that establishes a session from a server response runs them,
    both timers are pending with their deadlines. *)
Lemma schedule_both c d st :
  timers_consistent st ->
  let st' := scheduleActivityTimeout (scheduleTokenRefresh c d st) in
  scheduled (refreshTimeoutRef st') st'
    = Some {| fires_at := now st + host_delay (Z.max (d - 60000) 0);
              callback := CallRefreshToken c |} /\
  scheduled (activityTimeoutRef st') st'
    = Some {| fires_at := now st + 30 * 60 * 1000;
              callback := CallHandleSessionTimeout |}.
Proof.
  intros H. cbv zeta. split.
  - destruct (scheduleActivityTimeout_keeps_refresh
                (scheduleTokenRefresh c d st)) as [Href Hsched];
      [by apply scheduleTokenRefresh_consistent|].
    cbv zeta in Href, Hsched. rewrite Href in Hsched. rewrite Href, Hsched.
    apply scheduleTokenRefresh_scheduled.
  - rewrite <- (scheduleTokenRefresh_now c d st).
    apply (scheduleActivityTimeout_scheduled (scheduleTokenRefresh c d st)).
Qed.

Lemma store_refresh_token_frame r st :
  now (store_refresh_token r st) = now st /\
  timers (store_refresh_token r st) = timers st /\
  nextTimer (store_refresh_token r st) = nextTimer st /\
  refreshTimeoutRef (store_refresh_token r st) = refreshTimeoutRef st /\
  activityTimeoutRef (store_refresh_token r st) = activityTimeoutRef st.
Proof. unfold store_refresh_token. by repeat case_match. Qed.

(** Login, registration and verification leave the refresh timer pending,
    with the delay the host makes of [expiresIn * 1000 - 60000], or of 0. *)
Lemma step_establishes_refresh_timer o st c data :
  timers_consistent st -> establishes o st = Some (c, data) ->
  scheduled (refreshTimeoutRef (step o st)) (step o st)
  = Some {| fires_at :=
              now st + host_delay (Z.max (expiresIn data * 1000 - 60000) 0);
            callback := CallRefreshToken c |}.
Proof.
  intros H Hiss.
  destruct o as [c' [d|]|c' [d|]| |c' [d|]|c' [d|]| |c' p [d|]| | | | | |];
    simpl in Hiss; try discriminate.
  - injection Hiss as -> ->. cbn [step login snd]. unfold store_refresh_token.
    destruct (refreshToken data) as [v|]; [destruct (truthy v)|];
      refine (proj1 (schedule_both c _ _ _)); exact H.
  - injection Hiss as -> ->. cbn [step register snd].
    refine (proj1 (schedule_both c _ _ _)); exact H.
  - cbn [step]. unfold initializeAuth.
    destruct (getItem "token" st); [|discriminate].
    injection Hiss as -> ->.
    refine (proj1 (schedule_both c _ _ _)); exact H.
  - injection Hiss as -> ->. cbn [step]. unfold initializeAuth_resume.
    refine (proj1 (schedule_both c _ _ _)); exact H.
Qed.


(** The host does not run a timeout before it is due. *)
Lemma fire_before_deadline id tm st :
  timers st !! id = Some tm -> now st < fires_at tm -> fire id st = st.
Proof.
  intros Hid Hearly. unfold fire, due. rewrite Hid.
  by destruct (Z.leb_spec (fires_at tm) (now st)); [lia|].
Qed.

(** A timeout that is due runs its callback, once. *)
Lemma fire_due id tm st :
  timers st !! id = Some tm -> fires_at tm <= now st ->
  fire id st
  = match callback tm with
    | CallRefreshToken closure =>
        snd (refreshToken_call closure (set_timers (delete id (timers st)) st))
    | CallHandleSessionTimeout =>
        handleSessionTimeout (set_timers (delete id (timers st)) st)
    end.
Proof.
  intros Hid Hdue. unfold fire, due. rewrite Hid.
  by destruct (Z.leb_spec (fires_at tm) (now st)); [|lia].
Qed.

(** A refresh that does not join one in flight, with a token stored, sends
    the request and leaves its promise pending. *)
Lemma refreshToken_call_sends c tok st :
  c = false \/ refreshPromiseRef st = None ->
  getItem "token" st = Some tok ->
  snd (refreshToken_call c st)
  = set_refreshPromiseRef (Some (length (promises st)))
      (set_promises (promises st ++ [Pending])
         (send {| endpoint := "/auth/refresh"; bearer := Some tok |}
            (set_isRefreshing true st))).
Proof.
  intros Hguard Htok. unfold refreshToken_call.
  assert ((if c then refreshPromiseRef st else None) = None) as ->
    by (destruct Hguard as [->| ->]; [done|by destruct c]).
  change (getItem "token" (set_isRefreshing true st))
    with (getItem "token" st).
  by rewrite Htok.
Qed.

Lemma step_establishes_now o st c data :
  establishes o st = Some (c, data) -> now (step o st) = now st.
Proof.
  intros Hest.
  destruct o as [c' [d|]|c' [d|]| |c' [d|]|c' [d|]| |c' p [d|]| | | | | |];
    simpl in Hest; try discriminate.
  - cbn [step login snd].
    etrans; [apply scheduleActivityTimeout_now|].
    etrans; [apply scheduleTokenRefresh_now|].
    etrans; [refine (proj1 (store_refresh_token_frame _ _))|]. done.
  - cbn [step register snd].
    etrans; [apply scheduleActivityTimeout_now|].
    etrans; [apply scheduleTokenRefresh_now|]. done.
  - cbn [step]. unfold initializeAuth.
    destruct (getItem "token" st); [|discriminate].
    etrans; [refine (scheduleActivityTimeout_now _)|].
    etrans; [apply scheduleTokenRefresh_now|]. done.
  - cbn [step]. unfold initializeAuth_resume.
    etrans; [refine (scheduleActivityTimeout_now _)|].
    etrans; [apply scheduleTokenRefresh_now|]. done.
Qed.

(** *** Activity *)

(** C2, as stated, fails: ten minutes after a login at time 0,
    [updateActivity] records the time but the inactivity timer still fires
    at minute 30, not at minute 40. *)
Lemma updateActivity_leaves_timer :
  let st := tick 600000 (signed_in 0) in
  let st' := updateActivity st in
  now st = 600000 /\
  lastActivity st' = 600000 /\
  scheduled (activityTimeoutRef st') st'
    = Some {| fires_at := 1800000; callback := CallHandleSessionTimeout |}.
Proof. vm_compute. split_and!; reflexivity. Qed.

(** C2 (amended): the activity listener, run at time T, records T as the
    last activity and, by calling [scheduleActivityTimeout] after
    [updateActivity], sets the inactivity timer to fire at T + 30 minutes;
    the timer scheduled before is cancelled, so that the new one is the
    only pending inactivity timer. [updateActivity] by itself records T and
    touches no timer. *)
Theorem activity_listener_reschedules st :
  timers_consistent st ->
  let st' := handleActivity st in
  lastActivity st' = now st /\
  scheduled (activityTimeoutRef st') st'
    = Some {| fires_at := now st + 30 * 60 * 1000;
              callback := CallHandleSessionTimeout |} /\
  scheduled (activityTimeoutRef st) st' = None /\
  (forall id tm, timers st' !! id = Some tm ->
     callback tm = CallHandleSessionTimeout ->
     activityTimeoutRef st' = Some id) /\
  lastActivity (updateActivity st) = now st /\
  timers (updateActivity st) = timers st /\
  activityTimeoutRef (updateActivity st) = activityTimeoutRef st.
Proof.
  intros H. cbv zeta. split_and!; try reflexivity.
  - unfold handleActivity, scheduleActivityTimeout.
    by destruct (activityTimeoutRef (updateActivity st)).
  - apply (scheduleActivityTimeout_scheduled (updateActivity st)).
  - destruct H as (Ht & Hr & Ha & Hd).
    unfold handleActivity, scheduleActivityTimeout, scheduled.
    change (activityTimeoutRef (updateActivity st))
      with (activityTimeoutRef st).
    destruct (activityTimeoutRef st) as [a|] eqn:Ea; [|done]. simpl.
    rewrite lookup_insert_ne by (specialize (Ha a eq_refl); lia).
    apply lookup_delete_eq.
  - intros id tm Hl Hcb.
    destruct (scheduleActivityTimeout_consistent (updateActivity st) H)
      as (Ht' & _).
    destruct (Ht' id tm Hl) as [_ Hown]. by rewrite Hcb in Hown.
Qed.

Lemma activity_listener_reschedules_witness :
  timers_consistent (tick 600000 (signed_in 0)) /\
  scheduled (activityTimeoutRef (handleActivity (tick 600000 (signed_in 0))))
    (handleActivity (tick 600000 (signed_in 0)))
  = Some {| fires_at := 600000 + 30 * 60 * 1000;
            callback := CallHandleSessionTimeout |}.
Proof.
  assert (Hc : timers_consistent (tick 600000 (signed_in 0)))
    by exact (signed_in_consistent 0).
  split; [exact Hc|].
  exact (proj1 (proj2 (activity_listener_reschedules _ Hc))).
Defined.

(** *** Logout *)

Lemma handleLogout_clears st :
  let st' := handleLogout st in
  storage st' = delete "refreshToken" (delete "token" (storage st)) /\
  user st' = None /\ sessionExpiry st' = None /\
  refreshTimeoutRef st' = None /\ activityTimeoutRef st' = None.
Proof.
  unfold handleLogout. simpl.
  destruct (refreshTimeoutRef st) eqn:Er; simpl;
    destruct (activityTimeoutRef st) eqn:Ea; simpl; by rewrite ?Er, ?Ea.
Qed.

(** [handleLogout] changes nothing when there is nothing to clear. *)
Lemma handleLogout_fixed s :
  refreshTimeoutRef s = None -> activityTimeoutRef s = None ->
  user s = None -> sessionExpiry s = None ->
  storage s !! "token" = None -> storage s !! "refreshToken" = None ->
  handleLogout s = s.
Proof.
  intros Hr Ha Hu He Ht Hrt. unfold handleLogout.
  change (refreshTimeoutRef (set_sessionExpiry None (set_user None
            (removeItem "refreshToken" (removeItem "token" s)))))
    with (refreshTimeoutRef s).
  rewrite Hr.
  change (activityTimeoutRef (set_sessionExpiry None (set_user None
            (removeItem "refreshToken" (removeItem "token" s)))))
    with (activityTimeoutRef s).
  rewrite Ha. unfold removeItem. cbn.
  rewrite (delete_id _ "token") by done. rewrite (delete_id _ "refreshToken") by done.
  rewrite <- Hu, <- He. reflexivity.
Qed.

(** Once logged out, nothing is pending, provided timers and refs were
    consistent. *)
Lemma handleLogout_no_timers st :
  timers_consistent st -> timers (handleLogout st) = ∅.
Proof.
  intros (Ht & _). apply map_empty. intros i.
  destruct (timers (handleLogout st) !! i) as [tm|] eqn:Hl; [|done].
  exfalso. revert Hl. unfold handleLogout. simpl.
  destruct (refreshTimeoutRef st) as [r|] eqn:Er; simpl;
    destruct (activityTimeoutRef st) as [a|] eqn:Ea; simpl;
    intros Hl; map_cases;
    destruct (Ht _ _ Hl) as [_ Hown]; unfold owner in Hown;
    destruct (callback tm); congruence.
Qed.

(** C7: [logout] never fails; from any state, with or without a session, it
    leaves no stored token, no user and no expiry, both timer refs empty and
    the timers they held cancelled; a second [logout] changes nothing. *)
Theorem logout_idempotent st :
  let st' := logout st in
  storage st' !! "token" = None /\
  storage st' !! "refreshToken" = None /\
  user st' = None /\
  sessionExpiry st' = None /\
  refreshTimeoutRef st' = None /\
  activityTimeoutRef st' = None /\
  scheduled (refreshTimeoutRef st) st' = None /\
  scheduled (activityTimeoutRef st) st' = None /\
  logout st' = st'.
Proof.
  cbv zeta. unfold logout.
  destruct (handleLogout_clears st) as (Hs & Hu & He & Hr & Ha).
  cbv zeta in Hs, Hu, He, Hr, Ha. split_and!; try done.
  - rewrite Hs. rewrite lookup_delete_ne by done. apply lookup_delete_eq.
  - rewrite Hs. apply lookup_delete_eq.
  - unfold handleLogout, scheduled. simpl.
    destruct (refreshTimeoutRef st) as [r|]; [|done]. simpl.
    destruct (activityTimeoutRef st) as [a|]; simpl.
    + rewrite lookup_delete. case_decide; [done|]. apply lookup_delete_eq.
    + apply lookup_delete_eq.
  - unfold handleLogout, scheduled. simpl.
    destruct (refreshTimeoutRef st) as [r|]; simpl;
      (destruct (activityTimeoutRef st) as [a|]; [|done]); simpl;
      apply lookup_delete_eq.
  - apply handleLogout_fixed; try done.
    + rewrite Hs. rewrite lookup_delete_ne by done. apply lookup_delete_eq.
    + rewrite Hs. apply lookup_delete_eq.
Qed.

(** *** What the functions leave alone *)

Lemma handleLogout_frame st :
  let st' := handleLogout st in
  now st' = now st /\ lastActivity st' = lastActivity st /\
  isRefreshing st' = isRefreshing st /\ loading st' = loading st /\
  refreshPromiseRef st' = refreshPromiseRef st /\
  promises st' = promises st /\ requests st' = requests st /\
  alerts st' = alerts st.
Proof.
  unfold handleLogout. simpl.
  destruct (refreshTimeoutRef st) eqn:Er; simpl;
    destruct (activityTimeoutRef st) eqn:Ea; simpl; by rewrite ?Er, ?Ea.
Qed.

Lemma handleLogout_tokens st :
  storage (handleLogout st) !! "token" = None /\
  storage (handleLogout st) !! "refreshToken" = None.
Proof.
  destruct (handleLogout_clears st) as (Hs & _). cbv zeta in Hs.
  rewrite Hs. split.
  - rewrite lookup_delete_ne by done. apply lookup_delete_eq.
  - apply lookup_delete_eq.
Qed.

Lemma fired_timer_consistent id st :
  timers_consistent st ->
  timers_consistent (set_timers (delete id (timers st)) st).
Proof.
  intros (Ht & Hr & Ha & Hd). unfold timers_consistent, owner in *. simpl.
  split_and!; try done.
  intros i tm Hl. rewrite lookup_delete in Hl.
  case_decide; [done|]. exact (Ht i tm Hl).
Qed.

(** What the two scheduling functions and the storing of a refresh token
    leave alone. *)
Lemma scheduleTokenRefresh_frame c d st :
  let st' := scheduleTokenRefresh c d st in
  storage st' = storage st /\ user st' = user st /\
  lastActivity st' = lastActivity st /\ isRefreshing st' = isRefreshing st /\
  loading st' = loading st /\
  refreshPromiseRef st' = refreshPromiseRef st /\
  promises st' = promises st /\ requests st' = requests st /\
  alerts st' = alerts st.
Proof. unfold scheduleTokenRefresh. by destruct (refreshTimeoutRef st). Qed.

Lemma scheduleActivityTimeout_frame st :
  let st' := scheduleActivityTimeout st in
  storage st' = storage st /\ user st' = user st /\
  lastActivity st' = lastActivity st /\ isRefreshing st' = isRefreshing st /\
  loading st' = loading st /\
  refreshPromiseRef st' = refreshPromiseRef st /\
  promises st' = promises st /\ requests st' = requests st /\
  alerts st' = alerts st.
Proof. unfold scheduleActivityTimeout. by destruct (activityTimeoutRef st). Qed.

Lemma store_refresh_token_rest r st :
  let st' := store_refresh_token r st in
  user st' = user st /\ sessionExpiry st' = sessionExpiry st /\
  lastActivity st' = lastActivity st /\ isRefreshing st' = isRefreshing st /\
  loading st' = loading st /\
  refreshPromiseRef st' = refreshPromiseRef st /\
  promises st' = promises st /\ requests st' = requests st /\
  alerts st' = alerts st /\
  storage st' !! "token" = storage st !! "token".
Proof.
  unfold store_refresh_token. destruct r as [v|]; [|done].
  destruct (truthy v); [|done]. cbn. split_and!; try done.
  by rewrite lookup_insert_ne.
Qed.

Lemma scheduleTokenRefresh_requests c d st :
  requests (scheduleTokenRefresh c d st) = requests st.
Proof. apply scheduleTokenRefresh_frame. Qed.

Lemma scheduleActivityTimeout_requests st :
  requests (scheduleActivityTimeout st) = requests st.
Proof. apply scheduleActivityTimeout_frame. Qed.

Lemma handleLogout_requests st : requests (handleLogout st) = requests st.
Proof. apply handleLogout_frame. Qed.

Lemma requests_after_schedules c d st :
  requests (scheduleActivityTimeout (scheduleTokenRefresh c d st))
  = requests st.
Proof.
  etrans; [apply scheduleActivityTimeout_frame|].
  apply scheduleTokenRefresh_frame.
Qed.

Lemma login_success_rest c data st :
  let st1 := snd (login c (inl data) st) in
  now st1 = now st /\
  requests st1
  = requests st ++ [{| endpoint := "/auth/login"; bearer := None |}] /\
  refreshPromiseRef st1 = refreshPromiseRef st /\
  promises st1 = promises st /\
  storage st1 !! "token" = Some (token data).
Proof.
  cbv zeta. unfold login. cbn [snd].
  set (st0 := send _ st).
  set (sa := setItem "token" (token data) st0).
  destruct (store_refresh_token_rest (refreshToken data) sa)
    as (_ & _ & _ & _ & _ & Hrp & Hpr & Hrq & _ & Htok).
  destruct (store_refresh_token_frame (refreshToken data) sa)
    as (Hnow & _).
  cbv zeta in *.
  set (sb := set_sessionExpiry _ _).
  set (d := expiresIn data * 1000).
  destruct (scheduleTokenRefresh_frame c d sb)
    as (Hs1 & _ & _ & _ & _ & Hrp1 & Hpr1 & Hrq1 & _).
  destruct (scheduleActivityTimeout_frame (scheduleTokenRefresh c d sb))
    as (Hs2 & _ & _ & _ & _ & Hrp2 & Hpr2 & Hrq2 & _).
  cbv zeta in *. split_and!.
  - etrans; [apply scheduleActivityTimeout_now|].
    etrans; [apply scheduleTokenRefresh_now|]. exact Hnow.
  - etrans; [exact Hrq2|]. etrans; [exact Hrq1|]. exact Hrq.
  - etrans; [exact Hrp2|]. etrans; [exact Hrp1|]. exact Hrp.
  - etrans; [exact Hpr2|]. etrans; [exact Hpr1|]. exact Hpr.
  - etrans; [exact (f_equal (fun m => m !! "token") Hs2)|].
    etrans; [exact (f_equal (fun m => m !! "token") Hs1)|].
    etrans; [exact Htok|]. apply lookup_insert_eq.
Qed.

Lemma cleanup_frame st :
  let st' := cleanup st in
  now st' = now st /\ storage st' = storage st /\ user st' = user st /\
  sessionExpiry st' = sessionExpiry st /\
  lastActivity st' = lastActivity st /\ isRefreshing st' = isRefreshing st /\
  loading st' = loading st /\
  refreshTimeoutRef st' = refreshTimeoutRef st /\
  activityTimeoutRef st' = activityTimeoutRef st /\
  refreshPromiseRef st' = refreshPromiseRef st /\
  nextTimer st' = nextTimer st /\
  promises st' = promises st /\ requests st' = requests st /\
  alerts st' = alerts st.
Proof.
  unfold cleanup.
  destruct (refreshTimeoutRef st) eqn:Er; cbn; rewrite ?Er;
    destruct (activityTimeoutRef st) eqn:Ea; cbn; by rewrite ?Er, ?Ea.
Qed.

Lemma cleanup_getItem k st : getItem k (cleanup st) = getItem k st.
Proof.
  unfold getItem. by rewrite (proj1 (proj2 (cleanup_frame st))).
Qed.

(** With consistent timers, the cleanup leaves nothing pending. *)
Lemma cleanup_no_timers st :
  timers_consistent st -> timers (cleanup st) = ∅.
Proof.
  intros (Ht & _). unfold cleanup.
  destruct (refreshTimeoutRef st) as [r|] eqn:Er; cbn; rewrite ?Er;
    destruct (activityTimeoutRef st) as [a|] eqn:Ea; cbn;
    apply map_empty; intros i;
    match goal with |- ?m !! i = None =>
      destruct (m !! i) as [tm|] eqn:Hl; [|done] end;
    exfalso; rewrite ?lookup_delete in Hl;
    repeat (case_decide; [done|]);
    destruct (Ht _ _ Hl) as [_ Hown]; unfold owner in Hown;
    destruct (callback tm); congruence.
Qed.

(** The effect run again: the cleanup, and then the verification of the
    stored token is sent. *)
Lemma rerun_effect_cases st :
  rerun_effect st
  = match getItem "token" st with
    | None => set_loading false (cleanup st)
    | Some tok =>
        send {| endpoint := "/auth/verify"; bearer := Some tok |} (cleanup st)
    end.
Proof. unfold rerun_effect, initializeAuth_call. by rewrite cleanup_getItem. Qed.

Lemma rerun_effect_frame st :
  let st' := rerun_effect st in
  now st' = now st /\ storage st' = storage st /\ user st' = user st /\
  sessionExpiry st' = sessionExpiry st /\
  lastActivity st' = lastActivity st /\ isRefreshing st' = isRefreshing st /\
  refreshTimeoutRef st' = refreshTimeoutRef st /\
  activityTimeoutRef st' = activityTimeoutRef st /\
  refreshPromiseRef st' = refreshPromiseRef st /\
  nextTimer st' = nextTimer st /\
  promises st' = promises st /\ alerts st' = alerts st.
Proof.
  cbv zeta. rewrite rerun_effect_cases.
  destruct (cleanup_frame st)
    as (H1 & H2 & H3 & H4 & H5 & H6 & _ & H8 & H9 & H10 & H11 & H12 & _ & H14).
  cbv zeta in *.
  by destruct (getItem "token" st).
Qed.

Lemma commit_cases rendered st :
  commit rendered st
  = if Bool.eqb (isRefreshing st) rendered then st else rerun_effect st.
Proof. reflexivity. Qed.

Lemma commit_same st : commit (isRefreshing st) st = st.
Proof. unfold commit. by rewrite Bool.eqb_reflx. Qed.

Lemma refreshToken_call_now c st : now (snd (refreshToken_call c st)) = now st.
Proof.
  unfold refreshToken_call.
  destruct (if c then refreshPromiseRef st else None); [done|].
  destruct (getItem "token" (set_isRefreshing true st)); [done|].
  cbn. apply (handleLogout_frame (set_isRefreshing true st)).
Qed.

Lemma refreshToken_resume_now c p r st :
  now (refreshToken_resume c p r st) = now st.
Proof.
  unfold refreshToken_resume.
  destruct (promises st !! p) as [[|]|]; try done.
  destruct r as [data|].
  - etrans; [refine (scheduleTokenRefresh_now c (expiresIn data * 1000) _)|].
    done.
  - refine (proj1 (handleLogout_frame st)).
Qed.

Lemma fire_now id st : now (fire id st) = now st.
Proof.
  unfold fire. destruct (timers st !! id) as [tm|]; [|done].
  destruct (due (now st) tm); [|done].
  destruct (callback tm) as [c|].
  - apply (refreshToken_call_now c (set_timers (delete id (timers st)) st)).
  - refine (proj1 (handleLogout_frame
                     (set_timers (delete id (timers st)) st))).
Qed.

(** The scheduling functions hand out new ids: a timeout that was not
    pending under an id handed out before is not pending afterwards. *)
Lemma scheduleTokenRefresh_old_ids c d st id :
  timers st !! id = None -> (id < nextTimer st)%positive ->
  timers (scheduleTokenRefresh c d st) !! id = None /\
  (id < nextTimer (scheduleTokenRefresh c d st))%positive.
Proof.
  intros Hnone Hold. unfold scheduleTokenRefresh.
  destruct (refreshTimeoutRef st) as [r|]; cbn; (split; [|lia]);
    rewrite lookup_insert_ne by lia; [|done].
  rewrite lookup_delete. by case_decide.
Qed.

Lemma scheduleActivityTimeout_old_ids st id :
  timers st !! id = None -> (id < nextTimer st)%positive ->
  timers (scheduleActivityTimeout st) !! id = None /\
  (id < nextTimer (scheduleActivityTimeout st))%positive.
Proof.
  intros Hnone Hold. unfold scheduleActivityTimeout.
  destruct (activityTimeoutRef st) as [r|]; cbn; (split; [|lia]);
    rewrite lookup_insert_ne by lia; [|done].
  rewrite lookup_delete. by case_decide.
Qed.

(** After the effect has run again, no timeout is pending. *)
Lemma rerun_effect_no_timers st :
  timers_consistent st -> timers (rerun_effect st) = ∅.
Proof.
  intros Hc. rewrite rerun_effect_cases.
  pose proof (cleanup_no_timers st Hc) as Hnone.
  by destruct (getItem "token" st).
Qed.

Lemma getItem_logged_out k st :
  k = "token" \/ k = "refreshToken" -> getItem k (handleLogout st) = None.
Proof.
  intros Hk. unfold getItem.
  destruct (handleLogout_tokens st) as [Ht Hr].
  by destruct Hk as [-> | ->]; rewrite ?Ht, ?Hr.
Qed.

(** The continuation of a refresh leaves a token stored exactly when the
    response carried a non-empty one. *)
Lemma refreshToken_resume_success c p data st :
  promises st !! p = Some Pending ->
  let st1 := refreshToken_resume c p (Some data) st in
  isRefreshing st1 = false /\
  refreshPromiseRef st1 = None /\
  storage st1 = <["token" := token data]> (storage st) /\
  getItem "token" st1
  = (if truthy (token data) then Some (token data) else None) /\
  requests st1 = requests st /\
  promises st1 = <[p := Settled Success]> (promises st) /\
  lastActivity st1 = lastActivity st /\
  now st1 = now st /\
  user st1 = Some (a_user data).
Proof.
  intros Hp. cbv zeta. unfold refreshToken_resume. rewrite Hp.
  set (st0 := set_sessionExpiry _ _).
  destruct (scheduleTokenRefresh_frame c (expiresIn data * 1000) st0)
    as (Hst & Hu & Hla & _ & _ & _ & Hpr & Hrq & _).
  pose proof (scheduleTokenRefresh_now c (expiresIn data * 1000) st0) as Hnow.
  cbv zeta in *.
  assert (Hstore : storage (scheduleTokenRefresh c (expiresIn data * 1000) st0)
                   = <["token" := token data]> (storage st)) by exact Hst.
  split_and!; try done.
  - unfold getItem.
    etrans; [exact (f_equal (fun m => match m !! "token" with
                                      | Some v => if truthy v then Some v
                                                  else None
                                      | None => None
                                      end) Hstore)|].
    by rewrite lookup_insert_eq.
  - exact (f_equal (fun l => <[p := Settled Success]> l) Hpr).
Qed.

Lemma refreshToken_resume_failure c p st :
  promises st !! p = Some Pending ->
  let st1 := refreshToken_resume c p None st in
  isRefreshing st1 = false /\
  getItem "token" st1 = None /\
  storage st1 !! "refreshToken" = None /\
  requests st1 = requests st.
Proof.
  intros Hp. cbv zeta. unfold refreshToken_resume. rewrite Hp.
  split_and!.
  - done.
  - exact (getItem_logged_out "token" st (or_introl eq_refl)).
  - exact (proj2 (handleLogout_tokens st)).
  - exact (handleLogout_requests st).
Qed.

Lemma refreshToken_resume_idle c p r st :
  promises st !! p <> Some Pending -> refreshToken_resume c p r st = st.
Proof.
  intros Hp. unfold refreshToken_resume.
  by destruct (promises st !! p) as [[|]|].
Qed.

(** *** Where the expiry comes from *)



Lemma store_refresh_token_sessionExpiry r st :
  sessionExpiry (store_refresh_token r st) = sessionExpiry st.
Proof. unfold store_refresh_token. by repeat case_match. Qed.




(** C8 fails on the code: [loginWithTokens] establishes a session without
    any server response to take [expiresIn] from, and sets the expiry to
    fifteen minutes from now, where login, registration, verification and
    refresh derive it from the server's [expiresIn]. *)
Theorem loginWithTokens_fixed_expiry tok r u st :
  let o := LoginWithTokens tok r u in
  let st' := step o st in
  server_expiresIn o = None /\
  user st' = Some u /\
  storage st' !! "token" = Some tok /\
  sessionExpiry st' = Some (now st + 15 * 60 * 1000).
Proof.
  cbv zeta. cbn [step loginWithTokens snd server_expiresIn].
  unfold store_refresh_token, scheduleActivityTimeout.
  destruct r as [v|]; [destruct (truthy v)|]; simpl;
    destruct (activityTimeoutRef st); simpl; split_and!; try done;
    by simplify_map_eq.
Qed.

(** For instance, right after mounting at time 0. *)
Example oauth_login_at_mount_expires_in_fifteen_minutes :
  let st' := step (LoginWithTokens "oauth-access" (Some "oauth-refresh")
                     sample_user) (initial 0) in
  user st' = Some sample_user /\ sessionExpiry st' = Some 900000.
Proof. vm_compute. split; reflexivity. Qed.



(** *** Which timers an operation schedules *)

(** C9 fails on the code: [loginWithTokens] establishes a session and
    schedules the inactivity timer, but never touches the refresh timer;
    right after mounting, the inactivity timer is the only one pending. *)
Theorem loginWithTokens_schedules_one_timer tok r u st :
  let st' := step (LoginWithTokens tok r u) st in
  let mounted := step (LoginWithTokens tok r u) (initial 0) in
  user st' = Some u /\
  scheduled (activityTimeoutRef st') st'
    = Some {| fires_at := now st + 30 * 60 * 1000;
              callback := CallHandleSessionTimeout |} /\
  refreshTimeoutRef st' = refreshTimeoutRef st /\
  refreshTimeoutRef mounted = None /\
  timers mounted
    = {[ 1%positive := {| fires_at := 1800000;
                          callback := CallHandleSessionTimeout |} ]}.
Proof.
  cbv zeta. split_and!.
  - cbn [step loginWithTokens snd].
    unfold store_refresh_token, scheduleActivityTimeout.
    destruct r as [v|]; [destruct (truthy v)|]; simpl;
      by destruct (activityTimeoutRef st).
  - cbn [step loginWithTokens snd]. unfold store_refresh_token.
    destruct r as [v|]; [destruct (truthy v)|];
      refine (scheduleActivityTimeout_scheduled _).
  - cbn [step loginWithTokens snd].
    unfold store_refresh_token, scheduleActivityTimeout.
    destruct r as [v|]; [destruct (truthy v)|]; simpl;
      by destruct (activityTimeoutRef st).
  - cbn [step loginWithTokens snd].
    unfold store_refresh_token, scheduleActivityTimeout.
    by destruct r as [v|]; [destruct (truthy v)|].
  - cbn [step loginWithTokens snd].
    unfold store_refresh_token, scheduleActivityTimeout.
    by destruct r as [v|]; [destruct (truthy v)|].
Qed.


(** *** What the render after an operation adds *)

Lemma rerun_effect_requests st :
  requests (rerun_effect st)
  = requests st
    ++ match getItem "token" st with
       | Some tok => [{| endpoint := "/auth/verify"; bearer := Some tok |}]
       | None => []
       end.
Proof.
  rewrite rerun_effect_cases.
  pose proof (proj1 (proj2 (proj2 (proj2 (proj2 (proj2 (proj2 (proj2
                (proj2 (proj2 (proj2 (proj2 (proj2 (cleanup_frame st))))))))))))))
    as Hrq.
  cbv zeta in Hrq.
  destruct (getItem "token" st) as [tok|].
  - exact (f_equal (fun l => l ++ [_]) Hrq).
  - rewrite app_nil_r. exact Hrq.
Qed.


Lemma commit_now rendered st : now (commit rendered st) = now st.
Proof.
  unfold commit. destruct (Bool.eqb (isRefreshing st) rendered); [done|].
  apply (rerun_effect_frame st).
Qed.

(** [refreshToken], by its guard and by whether a token is stored. *)
Lemma refreshToken_call_body c st :
  snd (refreshToken_call c st)
  = match (if c then refreshPromiseRef st else None) with
    | Some _ => st
    | None =>
        match getItem "token" st with
        | Some tok =>
            set_refreshPromiseRef (Some (length (promises st)))
              (set_promises (promises st ++ [Pending])
                 (send {| endpoint := "/auth/refresh"; bearer := Some tok |}
                    (set_isRefreshing true st)))
        | None =>
            let st1 := refresh_finally
                         (handleLogout (set_isRefreshing true st)) in
            set_refreshPromiseRef (Some (length (promises st)))
              (set_promises
                 (promises st1 ++ [Settled (Failure "Session expired")]) st1)
        end
    end.
Proof.
  unfold refreshToken_call.
  destruct (if c then refreshPromiseRef st else None); [done|].
  change (getItem "token" (set_isRefreshing true st))
    with (getItem "token" st).
  by destruct (getItem "token" st).
Qed.

(** A refresh and the render after it: what is sent. *)
Lemma refreshToken_call_commit_requests c st :
  requests (commit (isRefreshing st) (snd (refreshToken_call c st)))
  = requests st
    ++ match (if c then refreshPromiseRef st else None) with
       | Some _ => []
       | None =>
           match getItem "token" st with
           | Some tok =>
               {| endpoint := "/auth/refresh"; bearer := Some tok |}
               :: (if isRefreshing st then []
                   else [{| endpoint := "/auth/verify"; bearer := Some tok |}])
           | None => []
           end
       end.
Proof.
  rewrite refreshToken_call_body.
  destruct (if c then refreshPromiseRef st else None).
  { by rewrite commit_same, app_nil_r. }
  destruct (getItem "token" st) as [tok|] eqn:Etok.
  - set (s1 := set_refreshPromiseRef _ _).
    assert (Hg : getItem "token" s1 = Some tok) by exact Etok.
    unfold commit. change (isRefreshing s1) with true.
    destruct (isRefreshing st); cbn [Bool.eqb]; [done|].
    rewrite rerun_effect_requests, Hg. unfold s1. cbn.
    by rewrite <- app_assoc.
  - cbv zeta. set (s1 := set_refreshPromiseRef _ _).
    assert (Hg : getItem "token" s1 = None).
    { exact (getItem_logged_out "token" (set_isRefreshing true st)
               (or_introl eq_refl)). }
    assert (Hrq : requests s1 = requests st).
    { exact (handleLogout_requests (set_isRefreshing true st)). }
    unfold commit. change (isRefreshing s1) with false.
    destruct (isRefreshing st); cbn [Bool.eqb].
    + by rewrite rerun_effect_requests, Hg, Hrq.
    + by rewrite Hrq, app_nil_r.
Qed.



Lemma login_isRefreshing c data st :
  isRefreshing (snd (login c (inl data) st)) = isRefreshing st.
Proof.
  unfold login. cbn [snd].
  etrans; [refine (proj1 (proj2 (proj2 (proj2
                     (scheduleActivityTimeout_frame _)))))|].
  etrans; [refine (proj1 (proj2 (proj2 (proj2
                     (scheduleTokenRefresh_frame c
                        (expiresIn data * 1000) _)))))|].
  etrans; [refine (proj1 (proj2 (proj2 (proj2
                     (store_refresh_token_rest (refreshToken data) _)))))|].
  done.
Qed.

(** A refresh timeout that is due, fired where a token is stored and no
    refresh is joined. *)
Lemma fire_refresh_sends id tm c tok st :
  timers st !! id = Some tm -> callback tm = CallRefreshToken c ->
  fires_at tm <= now st ->
  c = false \/ refreshPromiseRef st = None ->
  getItem "token" st = Some tok ->
  let st' := fire id st in
  isRefreshing st' = true /\
  timers st' = delete id (timers st) /\
  nextTimer st' = nextTimer st /\
  getItem "token" st' = Some tok /\
  requests st'
  = requests st ++ [{| endpoint := "/auth/refresh"; bearer := Some tok |}].
Proof.
  intros Hid Hcb Hdue Hguard Htok. cbv zeta.
  rewrite (fire_due id tm st Hid Hdue), Hcb. cbv beta iota.
  set (s0 := set_timers (delete id (timers st)) st).
  pose proof (refreshToken_call_sends c tok s0 Hguard Htok) as Hs.
  rewrite Hs. by split_and!.
Qed.

Lemma tick_frame dt st :
  now (tick dt st) = now st + Z.of_N dt /\
  timers (tick dt st) = timers st /\
  isRefreshing (tick dt st) = isRefreshing st /\
  refreshPromiseRef (tick dt st) = refreshPromiseRef st /\
  getItem "token" (tick dt st) = getItem "token" st /\
  requests (tick dt st) = requests st /\
  (timers_consistent st -> timers_consistent (tick dt st)).
Proof. by split_and!. Qed.

Lemma fire_spent id st :
  timers st !! id = None -> step (Fire id) st = st.
Proof.
  intros Hnone. cbn [step]. unfold fire. rewrite Hnone. apply commit_same.
Qed.

(** A refresh timeout that is due, fired with the render that follows. *)
Lemma step_fire_refresh_requests id tm c tok st :
  timers st !! id = Some tm -> callback tm = CallRefreshToken c ->
  fires_at tm <= now st ->
  c = false \/ refreshPromiseRef st = None ->
  getItem "token" st = Some tok ->
  requests (step (Fire id) st)
  = requests st
    ++ {| endpoint := "/auth/refresh"; bearer := Some tok |}
       :: (if isRefreshing st then []
           else [{| endpoint := "/auth/verify"; bearer := Some tok |}]).
Proof.
  intros Hid Hcb Hdue Hguard Htok.
  destruct (fire_refresh_sends id tm c tok st Hid Hcb Hdue Hguard Htok)
    as (Hir & _ & _ & Hg & Hrq).
  cbv zeta in Hir, Hg, Hrq.
  cbn [step]. unfold commit. rewrite Hir.
  destruct (isRefreshing st); cbn [Bool.eqb]; [exact Hrq|].
  rewrite rerun_effect_requests, Hg, Hrq. by rewrite <- app_assoc.
Qed.

(** *** The refresh timer *)

(** C3 fails on the code, in two ways. Login, registration and verification
    hand max(expiresIn * 1000 - 60000, 0) to [setTimeout], and the timeout
    they leave pending runs [refreshToken] when fired at or after its
    deadline and does nothing when fired before. Up to 2147483647 ms that
    deadline is the time of issuance plus the delay, as claimed. From
    2147483648 ms on, that is from an [expiresIn] of 2147544 seconds, a
    little under 25 days, the host's 32-bit delay has wrapped to a negative
    number: the timeout is due at the time of issuance itself, and fired
    then, with no time passed, it sends POST /auth/refresh. And the timeout
    that the continuation of a refresh schedules from the [expiresIn] of its
    response does not outlive the render: the continuation ends the refresh
    in flight, the mount effect runs again, and its cleanup cancels the
    timeout, so that none is pending until the verification which the
    effect has sent is answered. *)
Theorem refresh_timer_not_as_claimed :
  (forall o st c data,
     timers_consistent st -> establishes o st = Some (c, data) ->
     let st' := step o st in
     let delay := Z.max (expiresIn data * 1000 - 60000) 0 in
     exists id tm,
       refreshTimeoutRef st' = Some id /\
       timers st' !! id = Some tm /\
       callback tm = CallRefreshToken c /\
       now st' = now st /\
       (forall s, timers s !! id = Some tm -> now s < fires_at tm ->
          step (Fire id) s = s) /\
       (forall s, timers s !! id = Some tm -> fires_at tm <= now s ->
          step (Fire id) s
          = commit (isRefreshing s)
              (snd (refreshToken_call c
                      (set_timers (delete id (timers s)) s)))) /\
       (delay <= 2147483647 -> fires_at tm = now st + delay) /\
       (2147483647 < delay < 4294967296 ->
          fires_at tm = now st /\
          forall tok, getItem "token" st' = Some tok ->
            refreshPromiseRef st' = None ->
            requests (step (Fire id) st')
            = requests st'
              ++ {| endpoint := "/auth/refresh"; bearer := Some tok |}
                 :: (if isRefreshing st' then []
                     else [{| endpoint := "/auth/verify";
                              bearer := Some tok |}]))) /\
  (forall c p data st,
     timers_consistent st -> promises st !! p = Some Pending ->
     isRefreshing st = true ->
     let resumed := refreshToken_resume c p (Some data) st in
     let st' := step (RefreshTokenResume c p (Some data)) st in
     exists id,
       refreshTimeoutRef resumed = Some id /\
       timers resumed !! id
       = Some {| fires_at :=
                   now st
                   + host_delay (Z.max (expiresIn data * 1000 - 60000) 0);
                 callback := CallRefreshToken c |} /\
       timers st' = ∅).
Proof.
  split.
  - intros o st c data H Hest st' delay.
    pose proof (step_establishes_refresh_timer o st c data H Hest) as Hsched.
    pose proof (step_establishes_now o st c data Hest) as Hnow.
    fold st' in Hsched, Hnow. fold delay in Hsched.
    unfold scheduled in Hsched.
    destruct (refreshTimeoutRef st') as [id|] eqn:Eref; [|discriminate].
    eexists id, _.
    split_and!; [reflexivity|exact Hsched|reflexivity|exact Hnow| | | |].
    + intros s Hs Hearly. cbn [step].
      rewrite (fire_before_deadline id _ s Hs Hearly). apply commit_same.
    + intros s Hs Hdue. cbn [step]. by rewrite (fire_due id _ s Hs Hdue).
    + intros Hsmall. cbn [fires_at]. rewrite host_delay_in_range; [done|].
      unfold delay in *. lia.
    + intros Hbig. cbn [fires_at]. rewrite (host_delay_wraps delay Hbig).
      split; [lia|]. intros tok Htok Hnone.
      apply (step_fire_refresh_requests id _ c tok st' Hsched eq_refl);
        [|by right|exact Htok].
      cbn [fires_at]. rewrite (host_delay_wraps delay Hbig), Hnow. lia.
  - intros c p data st Hc Hp Hir resumed st'.
    pose proof (refreshToken_resume_consistent c p (Some data) st Hc) as Hc1.
    destruct (refreshToken_resume_success c p data st Hp) as (Hir1 & _).
    cbv zeta in Hir1. fold resumed in Hc1, Hir1.
    assert (Hstep : st' = rerun_effect resumed).
    { unfold st'. cbn [step]. fold resumed. unfold commit.
      by rewrite Hir, Hir1. }
    pose proof (scheduleTokenRefresh_scheduled c (expiresIn data * 1000)
                  (set_sessionExpiry (Some (now st + expiresIn data * 1000))
                     (set_user (Some (a_user data))
                        (setItem "token" (token data) st)))) as Hs.
    cbv zeta in Hs. unfold scheduled in Hs.
    assert (Href : refreshTimeoutRef resumed
                   = refreshTimeoutRef
                       (scheduleTokenRefresh c (expiresIn data * 1000)
                          (set_sessionExpiry
                             (Some (now st + expiresIn data * 1000))
                             (set_user (Some (a_user data))
                                (setItem "token" (token data) st))))).
    { unfold resumed, refreshToken_resume. by rewrite Hp. }
    assert (Htm : timers resumed
                  = timers
                      (scheduleTokenRefresh c (expiresIn data * 1000)
                         (set_sessionExpiry
                            (Some (now st + expiresIn data * 1000))
                            (set_user (Some (a_user data))
                               (setItem "token" (token data) st))))).
    { unfold resumed, refreshToken_resume. by rewrite Hp. }
    rewrite <- Href, <- Htm in Hs.
    destruct (refreshTimeoutRef resumed) as [id|] eqn:Eid; [|discriminate].
    exists id. split_and!; [done|exact Hs|].
    rewrite Hstep. by apply rerun_effect_no_timers.
Qed.

Lemma refresh_timer_not_as_claimed_witness :
  let st' := step (Login false (inl long_lived_response)) (initial 0) in
  let refreshing := step (RefreshTokenCall false) (signed_in 0) in
  (timers st' !! 1%positive
     = Some {| fires_at := 0; callback := CallRefreshToken false |} /\
   requests (step (Fire 1) st')
   = [{| endpoint := "/auth/login"; bearer := None |};
      {| endpoint := "/auth/refresh"; bearer := Some "t1" |};
      {| endpoint := "/auth/verify"; bearer := Some "t1" |}]) /\
  (timers (refreshToken_resume false 0 (Some sample_response) refreshing)
     !! 3%positive
   = Some {| fires_at := 840000; callback := CallRefreshToken false |} /\
   timers (step (RefreshTokenResume false 0 (Some sample_response)) refreshing)
   = ∅).
Proof.
  cbv zeta. split.
  - destruct (proj1 refresh_timer_not_as_claimed
                (Login false (inl long_lived_response))
                (initial 0) false long_lived_response
                (initial_consistent 0) eq_refl)
      as (id & tm & Hid & Htm & _ & _ & _ & _ & _ & Hwrap).
    injection Hid as <-.
    destruct (Hwrap ltac:(vm_compute; split; reflexivity)) as [_ Hsend].
    split; [reflexivity|].
    exact (Hsend "t1" eq_refl eq_refl).
  - destruct (proj2 refresh_timer_not_as_claimed false 0%nat sample_response
                (step (RefreshTokenCall false) (signed_in 0))
                (step_consistent _ _ (signed_in_consistent 0))
                eq_refl eq_refl)
      as (id & Hid & Htm & Hnone).
    injection Hid as <-.
    split; [exact Htm | exact Hnone].
Defined.

(** *** Token refresh in flight *)

(** Called through the closure of a render that saw [isRefreshing] set,
    [refreshToken] hands out the promise in flight and starts nothing. *)
Lemma refreshToken_call_joins p st :
  refreshPromiseRef st = Some p -> refreshToken_call true st = (p, st).
Proof. intros Hp. unfold refreshToken_call. by rewrite Hp. Qed.

(** Called through the closure of a render that saw [isRefreshing] unset,
    [refreshToken] starts a request whenever a token is stored, whatever
    [refreshPromiseRef] holds. *)
Lemma refreshToken_call_stale_sends tok st :
  getItem "token" st = Some tok ->
  let '(p, st') := refreshToken_call false st in
  p = length (promises st) /\
  requests st' = requests st
                 ++ [{| endpoint := "/auth/refresh"; bearer := Some tok |}] /\
  promises st' = promises st ++ [Pending].
Proof.
  intros Htok. unfold refreshToken_call. cbn match.
  change (getItem "token" (set_isRefreshing true st))
    with (getItem "token" st).
  by rewrite Htok.
Qed.

(** C1 fails on the code: two calls of [refreshToken] made through the same
    render's closure, the second while the first request is in flight, send
    two requests to /auth/refresh and return two different promises, which
    may settle differently. *)
Theorem refreshToken_twice_from_one_render :
  let st0 := signed_in 0 in
  let '(p1, st1) := refreshToken_call false st0 in
  let '(p2, st2) := refreshToken_call false st1 in
  let st3 := refreshToken_resume false p1 (Some sample_response) st2 in
  let st4 := refreshToken_resume false p2 None st3 in
  requests_to "/auth/refresh" st0 = 0%nat /\
  promises st1 !! p1 = Some Pending /\
  refreshPromiseRef st1 = Some p1 /\
  isRefreshing st1 = true /\
  requests_to "/auth/refresh" st1 = 1%nat /\
  p2 <> p1 /\
  promises st2 !! p1 = Some Pending /\
  requests_to "/auth/refresh" st2 = 2%nat /\
  promises st4 !! p1 = Some (Settled Success) /\
  promises st4 !! p2 = Some (Settled (Failure "Session expired")) /\
  user st4 = None.
Proof. vm_compute. split_and!; done. Qed.
End ProviderFacts.

(** * Further properties *)

(** ** [retryRequest] for any bound and delay *)

Section RetryGeneral.
Import Retry.
Context {T E : Type} (message : E -> option string) (requestFn : nat -> T + E).
Variables maxRetries delay : Z.

(** Twice the sum of the waits [delay * 1, ..., delay * m]. *)
Lemma backoff_sum (m : nat) :
  2 * foldr Z.add 0 (Z.mul delay <$> seqZ 1 (Z.of_nat m))
  = delay * Z.of_nat m * (Z.of_nat m + 1).
Proof.
  induction m as [|m IH]; [rewrite seqZ_nil by lia; simpl; lia|].
  rewrite seqZ_S, fmap_app, foldr_app. simpl.
  assert (Hshift : forall (l : list Z) a,
            foldr Z.add a l = foldr Z.add 0 l + a).
  { induction l as [|x l IHl]; intros a; simpl; [lia|]. rewrite IHl. lia. }
  rewrite Hshift. lia.
Qed.

(** X1: [retryRequest] always settles; it invokes the request at most
    [maxRetries] times (never, when [maxRetries] is below 1), waits
    [delay * k] before attempt k+1 and at no other time, so that after n
    invocations it has waited [delay * n * (n - 1) / 2] in total. *)
Theorem retryRequest_settles_within_bound :
  exists r w,
    retryRequest message requestFn maxRetries delay = Some (r, w) /\
    Z.of_nat (calls w) <= Z.max 0 maxRetries /\
    sleeps w = Z.mul delay <$> seqZ 1 (Z.of_nat (calls w) - 1) /\
    2 * foldr Z.add 0 (sleeps w)
      = delay * Z.of_nat (calls w) * (Z.of_nat (calls w) - 1).
Proof.
  destruct (retry_loop_terminates message requestFn maxRetries delay
              (S (Z.to_nat maxRetries)) 1 None {| calls := 0; sleeps := [] |})
    as [[r w] Hrun]; [lia|].
  exists r, w. split; [exact Hrun|].
  apply retry_loop_post in Hrun.
  destruct Hrun as (_ & Hbound & _ & Hsl & _).
  simpl in *. rewrite Nat.sub_0_r in *.
  split_and!; [lia|exact Hsl|].
  rewrite Hsl. destruct (calls w) as [|n];
    [rewrite seqZ_nil by lia; simpl; lia|].
  replace (Z.of_nat (S n) - 1) with (Z.of_nat n) by lia.
  rewrite backoff_sum. lia.
Qed.

(** X2: The run ends at the first invocation that succeeds: when invocation
    number k (counting from 0) succeeds, every earlier one failed with a
    retryable error, and k is within the bound, the call returns that
    success after exactly k+1 invocations and the k waits before. *)
Theorem retryRequest_returns_first_success (k : nat) (v : T) :
  Z.of_nat k < maxRetries ->
  requestFn k = inl v ->
  (forall j, (j < k)%nat ->
     exists e, requestFn j = inr e /\ no_retry (message e) = false) ->
  retryRequest message requestFn maxRetries delay
  = Some (Returns v,
          {| calls := S k; sleeps := Z.mul delay <$> seqZ 1 (Z.of_nat k) |}).
Proof.
  intros Hk Hv Hbefore.
  destruct (retry_loop_terminates message requestFn maxRetries delay
              (S (Z.to_nat maxRetries)) 1 None {| calls := 0; sleeps := [] |})
    as [[r w] Hrun]; [lia|].
  unfold retryRequest. rewrite Hrun.
  apply retry_loop_post in Hrun.
  destruct Hrun as (_ & Hbound & Hsome & Hsl & Hpre & Hres).
  simpl in *. rewrite Nat.sub_0_r in *.
  specialize (Hsome ltac:(lia)).
  assert (calls w = S k) as Hn.
  { destruct (decide (S k < calls w)%nat) as [Hlt|Hge].
    { destruct (Hpre k ltac:(lia) Hlt) as (e & He & _). congruence. }
    destruct (decide (calls w = S k)) as [|Hne]; [done|].
    assert (pred (calls w) < k)%nat as Hlast by lia.
    destruct (Hbefore _ Hlast) as (e & He & Hno).
    destruct r as [v'|x]; [destruct Hres; congruence|].
    destruct (decide (calls w = 0)%nat); [lia|].
    destruct Hres as (e' & _ & He' & [Hterm|Hmax]); [congruence|lia]. }
  destruct w as [nc sl]. simpl in *. subst nc.
  replace (Z.of_nat (S k) - 1) with (Z.of_nat k) in Hsl by lia. subst sl.
  destruct r as [v'|x].
  - destruct Hres as [_ Hv']. simpl in Hv'. congruence.
  - simpl in Hres. destruct Hres as (e & _ & He & _). congruence.
Qed.

(** X3: The run also ends at the first error that is not to be retried, which
    is thrown as it is. *)
Theorem retryRequest_stops_at_terminal_error (k : nat) (e : E) :
  Z.of_nat k < maxRetries ->
  requestFn k = inr e -> no_retry (message e) = true ->
  (forall j, (j < k)%nat ->
     exists e', requestFn j = inr e' /\ no_retry (message e') = false) ->
  retryRequest message requestFn maxRetries delay
  = Some (Throws (Some e),
          {| calls := S k; sleeps := Z.mul delay <$> seqZ 1 (Z.of_nat k) |}).
Proof.
  intros Hk He Hterm Hbefore.
  destruct (retry_loop_terminates message requestFn maxRetries delay
              (S (Z.to_nat maxRetries)) 1 None {| calls := 0; sleeps := [] |})
    as [[r w] Hrun]; [lia|].
  unfold retryRequest. rewrite Hrun.
  apply retry_loop_post in Hrun.
  destruct Hrun as (_ & Hbound & Hsome & Hsl & Hpre & Hres).
  simpl in *. rewrite Nat.sub_0_r in *.
  specialize (Hsome ltac:(lia)).
  assert (calls w = S k) as Hn.
  { destruct (decide (S k < calls w)%nat) as [Hlt|Hge].
    { destruct (Hpre k ltac:(lia) Hlt) as (e' & He' & Hno). congruence. }
    destruct (decide (calls w = S k)) as [|Hne]; [done|].
    assert (pred (calls w) < k)%nat as Hlast by lia.
    destruct (Hbefore _ Hlast) as (e' & He' & Hno).
    destruct r as [v'|x]; [destruct Hres; congruence|].
    destruct (decide (calls w = 0)%nat); [lia|].
    destruct Hres as (e'' & _ & He'' & [Ht|Hmax]); [congruence|lia]. }
  destruct w as [nc sl]. simpl in *. subst nc.
  replace (Z.of_nat (S k) - 1) with (Z.of_nat k) in Hsl by lia. subst sl.
  destruct r as [v'|x].
  - destruct Hres as [_ Hv']. simpl in Hv'. congruence.
  - simpl in Hres. destruct Hres as (e' & -> & He' & _). congruence.
Qed.

(** X4: When every attempt within the bound fails with a retryable error, the
    request has been invoked exactly [maxRetries] times and the error of the
    last invocation is thrown. *)
Theorem retryRequest_exhausts_then_throws_last :
  1 <= maxRetries ->
  (forall j, Z.of_nat j < maxRetries ->
     exists e, requestFn j = inr e /\ no_retry (message e) = false) ->
  exists e,
    requestFn (Z.to_nat maxRetries - 1) = inr e /\
    retryRequest message requestFn maxRetries delay
    = Some (Throws (Some e),
            {| calls := Z.to_nat maxRetries;
               sleeps := Z.mul delay <$> seqZ 1 (maxRetries - 1) |}).
Proof.
  intros Hpos Hall.
  destruct (retry_loop_terminates message requestFn maxRetries delay
              (S (Z.to_nat maxRetries)) 1 None {| calls := 0; sleeps := [] |})
    as [[r w] Hrun]; [lia|].
  unfold retryRequest. rewrite Hrun.
  apply retry_loop_post in Hrun.
  destruct Hrun as (_ & Hbound & Hsome & Hsl & Hpre & Hres).
  simpl in *. rewrite Nat.sub_0_r in *.
  specialize (Hsome ltac:(lia)).
  destruct (Hall (pred (calls w)) ltac:(lia)) as (e & He & Hno).
  destruct r as [v'|x]; [destruct Hres; congruence|].
  destruct (decide (calls w = 0)%nat); [lia|].
  destruct Hres as (e' & -> & He' & [Ht|Hmax]); [congruence|].
  assert (e' = e) as -> by congruence.
  assert (calls w = Z.to_nat maxRetries) as Hn by lia.
  exists e. split; [by rewrite <- Hn, Nat.sub_1_r|].
  destruct w as [nc sl]. simpl in *. subst nc.
  replace (Z.of_nat (Z.to_nat maxRetries) - 1) with (maxRetries - 1) in Hsl
    by lia.
  by subst sl.
Qed.
End RetryGeneral.

Section RetryGeneralWitnesses.
Import Retry RetrySamples.

Lemma retryRequest_returns_first_success_witness :
  retryRequest Some flaky 5 250
  = Some (Returns "ok", {| calls := 3; sleeps := [250; 500] |}).
Proof.
  apply (retryRequest_returns_first_success Some flaky 5 250 2 "ok").
  - lia.
  - reflexivity.
  - intros j Hj. exists "Network error. Please check your connection.".
    destruct j as [|[|j]]; [done|done|lia].
Defined.

Lemma retryRequest_stops_at_terminal_error_witness :
  retryRequest Some always_unauthorized 3 1000
  = Some (Throws (Some "Authentication required"),
          {| calls := 1; sleeps := [] |}).
Proof.
  apply (retryRequest_stops_at_terminal_error Some always_unauthorized
           3 1000 0 "Authentication required").
  - lia.
  - reflexivity.
  - reflexivity.
  - intros j Hj. lia.
Defined.

Lemma retryRequest_exhausts_then_throws_last_witness :
  exists e,
    always_offline (Z.to_nat 3 - 1) = inr e /\
    retryRequest Some always_offline 3 1000
    = Some (Throws (Some e),
            {| calls := Z.to_nat 3;
               sleeps := Z.mul 1000 <$> seqZ 1 (3 - 1) |}).
Proof.
  apply (retryRequest_exhausts_then_throws_last Some always_offline 3 1000).
  - lia.
  - intros j _. by exists "Network error. Please check your connection.".
Defined.
End RetryGeneralWitnesses.

(** ** The request interceptor and what follows a refusal *)

Section RequestInterceptorFacts.
Import Interceptor RequestInterceptor.
Variable checkRateLimit :
  option string -> option string -> string -> rate_limit_check.
Variable requiresCSRFProtection : option string -> bool.

Local Abbreviation on_request :=
  (on_request checkRateLimit requiresCSRFProtection).

(** X5: A request the client-side limiter refuses is not passed on: the
    interceptor throws, and the response-error handler turns what it threw
    into "Rate limit exceeded. Try again in N seconds." with the limiter's
    [retryAfter] for N, logging one RATE_LIMIT_EXCEEDED event without an
    endpoint; the limiter's own reason does not reach the caller, and the
    session, the tokens and the location are left alone. *)
Theorem refused_request_reported_as_rate_limit config env h :
  let check := checkRateLimit (rc_url config) (session_userId env)
                 "client-side" in
  allowed check = false ->
  exists thrown,
    on_request config env = inl (reason check, thrown) /\
    on_response_error thrown h
    = ("Rate limit exceeded. Try again in "
         +:+ template (retryAfter check) +:+ " seconds.",
       logSecurityEvent RATE_LIMIT_EXCEEDED
         [("endpoint", MString None);
          ("retryAfter", MValue (retryAfter check))] h).
Proof.
  intros check Hrefused. unfold on_request, RequestInterceptor.on_request.
  fold check. rewrite Hrefused. simpl. eexists. split; reflexivity.
Qed.


End RequestInterceptorFacts.

Section RequestInterceptorWitnesses.
Import Interceptor RequestInterceptor.

Lemma refused_request_reported_as_rate_limit_witness :
  exists thrown,
    on_request sample_checkRateLimit sample_requiresCSRFProtection
      (sample_config "/ai/chat" "post") sample_env
    = inl ("Too many requests", thrown) /\
    fst (on_response_error thrown (browsing "/questions"))
    = "Rate limit exceeded. Try again in 12 seconds.".
Proof.
  destruct (refused_request_reported_as_rate_limit
              sample_checkRateLimit sample_requiresCSRFProtection
              (sample_config "/ai/chat" "post") sample_env
              (browsing "/questions") eq_refl)
    as (thrown & Hthrown & Hmsg).
  exists thrown. split; [exact Hthrown|]. by rewrite Hmsg.
Defined.

End RequestInterceptorWitnesses.

(** ** More on the response-error handler *)

Section InterceptorMore.
Import Interceptor InterceptorSamples.

(** X7: Only a 401 makes the handler touch the session: for every other error
    the session, the stored tokens and the location are as before; the
    security log only grows, by one event at most; and the CSRF token is
    regenerated for a 419 only. *)
Theorem only_unauthorized_clears_session error h :
  e_status error = Some 429 \/ response_status_is error 401 = false ->
  let h' := snd (on_response_error error h) in
  currentSession h' = currentSession h /\
  localStorage h' = localStorage h /\
  navigations h' = navigations h /\
  pathname h' = pathname h /\
  securityLog h `prefix_of` securityLog h' /\
  (length (securityLog h') <= S (length (securityLog h)))%nat /\
  (csrfGenerations h' <> csrfGenerations h ->
     response_status_is error 419 = true).
Proof.
  intros Hnot. cbv zeta. unfold on_response_error.
  destruct (bool_decide (e_status error = Some 429)) eqn:H429.
  { simpl. split_and!; try done.
    - by apply prefix_app_r.
    - rewrite length_app. simpl. lia. }
  apply bool_decide_eq_false in H429.
  destruct Hnot as [?|H401]; [done|]. rewrite H401.
  destruct (response_status_is error 403).
  { simpl. split_and!; try done.
    - by apply prefix_app_r.
    - rewrite length_app. simpl. lia. }
  destruct (response_status_is error 404).
  { simpl. split_and!; try done. lia. }
  destruct (response_status_is error 419).
  { simpl. split_and!; try done.
    - by apply prefix_app_r.
    - rewrite length_app. simpl. lia. }
  destruct (response_status_ge error 500).
  { simpl. split_and!; try done.
    - by apply prefix_app_r.
    - rewrite length_app. simpl. lia. }
  destruct (e_response error) as [r|].
  2:{ simpl. split_and!; try done.
      - by apply prefix_app_r.
      - rewrite length_app. simpl. lia. }
  destruct (if r_status r =? 422 then response_errors r else None);
    [|destruct (response_message r)]; simpl; split_and!; try done; lia.
Qed.

Lemma only_unauthorized_clears_session_witness :
  let h := browsing "/questions" in
  let h' := snd (on_response_error rate_limited h) in
  currentSession h' = Some "session-1" /\
  localStorage h' !! "token" = Some "t1" /\
  navigations h' = [].
Proof.
  destruct (only_unauthorized_clears_session rate_limited
              (browsing "/questions") (or_introl eq_refl))
    as (Hs & Hl & Hn & _).
  cbv zeta. rewrite Hs, Hl, Hn. split_and!; reflexivity.
Defined.

(** X8: How [retryRequest] treats what the handler rejects with: the message
    for a 401 or a 403 stops the retries; the messages for a 404, a 419, a
    server error and a network failure do not, so that such requests are
    tried again. *)
Theorem handler_messages_and_retry error h :
  e_status error <> Some 429 ->
  let msg := fst (on_response_error error h) in
  (response_status_is error 401 || response_status_is error 403 = true ->
     Retry.no_retry (Some msg) = true) /\
  (response_status_is error 401 || response_status_is error 403 = false ->
   response_status_is error 404 || response_status_is error 419
     || response_status_ge error 500 || bool_decide (e_response error = None)
     = true ->
     Retry.no_retry (Some msg) = false).
Proof.
  intros H429. cbv zeta. unfold on_response_error.
  rewrite bool_decide_eq_false_2 by done.
  destruct (response_status_is error 401); [by split|].
  destruct (response_status_is error 403); [by split|].
  split; [done|]. intros _.
  destruct (response_status_is error 404); [done|].
  destruct (response_status_is error 419); [done|].
  destruct (response_status_ge error 500); [done|].
  destruct (e_response error) as [r|]; [|done].
  rewrite bool_decide_eq_false_2 by done. done.
Qed.

Lemma handler_messages_and_retry_witness :
  Retry.no_retry
    (Some (fst (on_response_error unauthorized (browsing "/questions"))))
  = true /\
  Retry.no_retry
    (Some (fst (on_response_error not_found (browsing "/questions"))))
  = false.
Proof.
  split.
  - apply (handler_messages_and_retry unauthorized (browsing "/questions"));
      [discriminate|reflexivity].
  - apply (handler_messages_and_retry not_found (browsing "/questions"));
      [discriminate|reflexivity|reflexivity].
Defined.
End InterceptorMore.

(** ** [apiBatch] *)

Section BatchFacts.
Import Batch.
Context {D : Type}.

(** X9: [apiBatch] answers with one entry per request, in the order of the
    requests, whatever became of them: entry i carries index i and the
    status of request i, a fulfilled one its data and a [null] error, a
    rejected one its message and [null] data. *)
Theorem apiBatch_one_entry_per_request (responses : list (@settlement D)) :
  length (apiBatch responses) = length responses /\
  (forall i r, apiBatch responses !! i = Some r ->
     index r = i /\
     match responses !! i with
     | Some (Fulfilled value) =>
         status r = fulfilled /\ data r = optional value /\ error r = Null
     | Some (Rejected reason) =>
         status r = rejected /\ data r = Null /\ error r = optional reason
     | None => False
     end).
Proof.
  unfold apiBatch. split; [apply length_imap|].
  intros i r. rewrite list_lookup_imap.
  destruct (responses !! i) as [[value|reason]|]; simpl; [| |done];
    intros [= <-]; done.
Qed.
End BatchFacts.

Lemma apiBatch_one_entry_per_request_witness :
  Batch.index
    (default (Batch.entry 9 (Batch.Rejected None))
       (Batch.apiBatch [Batch.Fulfilled (Some (Batch.Value 5));
                        Batch.Rejected (Some (Batch.Value "Network down"))]
          !! 1%nat))
  = 1%nat.
Proof.
  apply (proj2 (apiBatch_one_entry_per_request
                  [Batch.Fulfilled (Some (Batch.Value 5));
                   Batch.Rejected (Some (Batch.Value "Network down"))])
               1%nat).
  reflexivity.
Defined.

(** ** Session helpers of the [useAuth] hook *)

Section UseAuthSessionFacts.
Import UseAuth UseAuthSession.

Lemma getTimeUntilExpiry_nonneg (sessionExpiry : option Z) (now r : Z) :
  getTimeUntilExpiry sessionExpiry now = Some r -> 0 <= r.
Proof.
  unfold getTimeUntilExpiry, truthy_number.
  destruct sessionExpiry as [e|]; [destruct (Z.eqb_spec e 0)|]; simpl;
    try done.
  intros [= <-]. destruct (Z.ltb_spec 0 (e - now)); lia.
Qed.

(** X10: The time left is never negative; it is [null] exactly when no expiry is
    set; and the session counts as expiring soon exactly when a time left is
    known and below five minutes, which includes sessions already expired. *)
Theorem time_left_and_expiring_soon (sessionExpiry : option Z) (now : Z) :
  (forall r, getTimeUntilExpiry sessionExpiry now = Some r -> 0 <= r) /\
  (getTimeUntilExpiry sessionExpiry now = None
     <-> sessionExpiry = None \/ sessionExpiry = Some 0) /\
  (isSessionExpiringSoon sessionExpiry now = true
     <-> exists r, getTimeUntilExpiry sessionExpiry now = Some r
                   /\ r < 5 * 60 * 1000).
Proof.
  unfold getTimeUntilExpiry, isSessionExpiringSoon, truthy_number.
  destruct sessionExpiry as [e|]; [destruct (Z.eqb_spec e 0)|]; simpl.
  - subst. split_and!; [done|split; auto|].
    split; [done|]. by intros (r & ? & _).
  - split_and!.
    + intros r [= <-]. destruct (Z.ltb_spec 0 (e - now)); lia.
    + split; [done|]. intros [?|[= ?]]; done.
    + split.
      * intros Hsoon. apply Z.ltb_lt in Hsoon. eexists. split; [reflexivity|].
        destruct (Z.ltb_spec 0 (e - now)); lia.
      * intros (r & [= <-] & Hr). apply Z.ltb_lt.
        destruct (Z.ltb_spec 0 (e - now)); lia.
  - split_and!; [done|split; auto|].
    split; [done|]. by intros (r & ? & _).
Qed.

Lemma last_char_app (a : string) (c : Ascii.ascii) (b : string) :
  last_char (a +:+ String c b) = last_char (String c b).
Proof.
  induction a as [|x a IH]; [done|].
  change (String x a +:+ String c b) with (String x (a +:+ String c b)).
  destruct (a +:+ String c b) as [|y rest] eqn:Heq.
  - by destruct a.
  - exact IH.
Qed.

Lemma last_char_app_s (a : string) : last_char (a +:+ "s") = last_char "s".
Proof. apply last_char_app. Qed.

Lemma last_char_app_r (a b : string) :
  last_char b <> None -> last_char (a +:+ b) = last_char b.
Proof. destruct b; [done|]. intros _. apply last_char_app. Qed.

(** X11: The formatted time left is "Expired" exactly when no time is left
    (no expiry set, or expiry reached). Otherwise it shows whole minutes m
    and seconds s below 60, as "<m>m <s>s", or as "<s>s" in the last minute,
    that are at most the time left and less than a second short of it; a
    session with less than a second left shows "0s". *)
Theorem formatted_time_left (sessionExpiry : option Z) (now : Z) :
  (getFormattedTimeUntilExpiry sessionExpiry now = "Expired"
     <-> forall r, getTimeUntilExpiry sessionExpiry now = Some r -> r = 0) /\
  (forall r, getTimeUntilExpiry sessionExpiry now = Some r -> 0 < r ->
     exists m s,
       0 <= m /\ 0 <= s < 60 /\
       m * 60000 + s * 1000 <= r < m * 60000 + s * 1000 + 1000 /\
       getFormattedTimeUntilExpiry sessionExpiry now
       = if 0 <? m then pretty m +:+ "m " +:+ pretty s +:+ "s"
         else pretty s +:+ "s").
Proof.
  unfold getFormattedTimeUntilExpiry.
  destruct (getTimeUntilExpiry sessionExpiry now) as [r|] eqn:Hleft;
    [|split; [by split|done]].
  pose proof (getTimeUntilExpiry_nonneg sessionExpiry now r Hleft)
    as Hpos.
  unfold truthy_number. destruct (Z.eqb_spec r 0) as [->|Hne].
  { split; [split; [by intros _ ? [= <-]|done]|]. intros ? [= <-]. lia. }
  split.
  - split; [|intros Hall; specialize (Hall r eq_refl); lia].
    intros Hfmt. exfalso.
    assert (last_char (getFormattedTimeUntilExpiry sessionExpiry now)
            = last_char "s") as Hlast.
    { unfold getFormattedTimeUntilExpiry. rewrite Hleft. unfold truthy_number.
      destruct (Z.eqb_spec r 0); [done|]. cbv zeta.
      destruct (0 <? r / (1000 * 60)); [|apply last_char_app_s].
      assert (Hs : forall a, last_char (a +:+ "s") <> None)
        by (intros a; by rewrite last_char_app_s).
      rewrite last_char_app_r; rewrite last_char_app_r;
        rewrite ?last_char_app_s; try done; try apply Hs.
      all: rewrite last_char_app_r; rewrite ?last_char_app_s; try done;
        apply Hs. }
    unfold getFormattedTimeUntilExpiry in Hlast. rewrite Hleft in Hlast.
    unfold truthy_number in Hlast.
    destruct (Z.eqb_spec r 0); [done|]. cbv zeta in Hlast.
    rewrite Hfmt in Hlast. discriminate.
  - intros ? [= <-] _. exists (r / (1000 * 60)), (r mod (1000 * 60) / 1000).
    pose proof (Z.div_mod r (1000 * 60) ltac:(lia)).
    pose proof (Z.mod_pos_bound r (1000 * 60) ltac:(lia)).
    pose proof (Z.div_mod (r mod (1000 * 60)) 1000 ltac:(lia)).
    pose proof (Z.mod_pos_bound (r mod (1000 * 60)) 1000 ltac:(lia)).
    split_and!; try done.
    + apply Z.div_pos; lia.
    + apply Z.div_pos; lia.
    + apply Z.div_lt_upper_bound; lia.
    + lia.
    + lia.
Qed.

Lemma formatted_time_left_witness :
  getFormattedTimeUntilExpiry (Some 900000) 59500 = "14m 0s" /\
  getFormattedTimeUntilExpiry (Some 900000) 899500 = "0s".
Proof.
  split.
  - destruct (proj2 (formatted_time_left (Some 900000) 59500) 840500
                eq_refl ltac:(lia)) as (m & s & Hm & Hs & Hr & ->).
    assert (m = 14) as -> by lia. assert (s = 0) as -> by lia. reflexivity.
  - destruct (proj2 (formatted_time_left (Some 900000) 899500) 500
                eq_refl ltac:(lia)) as (m & s & Hm & Hs & Hr & ->).
    assert (m = 0) as -> by lia. assert (s = 0) as -> by lia. reflexivity.
Defined.

Section HookLogin.
Variable isValidEmail : string -> bool.
Variable contextLogin : string -> string -> bool -> auth_result.

Local Abbreviation login := (UseAuthSession.login isValidEmail contextLogin).

(** X12: The hook's [login] reaches the provider only with a non-empty email and
    password and an email [isValidEmail] accepts; otherwise it returns
    "Email and password are required" or, for a malformed email, "Please
    enter a valid email address", without any call. When it does call, it
    calls once, hands the three arguments through, and turns a failure
    without a message into "Login failed". *)
Theorem hook_login_validates_first email password rememberMe :
  match first_failure
          [ (negb (truthy email) || negb (truthy password),
             "Email and password are required");
            (negb (isValidEmail email),
             "Please enter a valid email address") ] with
  | Some msg => login email password rememberMe = (Failure msg, [])
  | None =>
      login email password rememberMe
      = (match contextLogin email password rememberMe with
         | Success => Success
         | Failure error => Failure (or_default error "Login failed")
         end, [(email, password, rememberMe)])
  end.
Proof.
  unfold login, UseAuthSession.login, login_try. cbn [first_failure].
  destruct (negb (truthy email) || negb (truthy password)); [reflexivity|].
  destruct (negb (isValidEmail email)); [reflexivity|].
  destruct (contextLogin email password rememberMe); reflexivity.
Qed.
End HookLogin.

(** X13: The hook's [loginWithTokens], used with the provider's context value,
    never succeeds, because that value has no [setUser]; yet by then both
    tokens are in the store, the refresh token as the string "undefined"
    when none was passed. *)
Theorem hook_loginWithTokens_never_succeeds not_a_function token refreshToken
    (storage : gmap string string) :
  let '(result, storage') :=
    loginWithTokens provider_value not_a_function token refreshToken storage in
  result <> Success /\
  storage' !! "token" = Some token /\
  storage' !! "refreshToken" = Some (default "undefined" refreshToken).
Proof.
  unfold loginWithTokens.
  rewrite bool_decide_eq_false_2 by (vm_compute; intros H;
    repeat (apply elem_of_cons in H as [H|H]; [discriminate|]);
    by apply not_elem_of_nil in H).
  split_and!; [done| |by rewrite lookup_insert_eq].
  rewrite lookup_insert_ne by done. by rewrite lookup_insert_eq.
Qed.
End UseAuthSessionFacts.

(** ** Access control *)

Section AccessFacts.
Import UserProvider Access.

Lemma ProtectedRoute_children props loading user :
  ProtectedRoute props loading user = Children <->
  loading = false /\
  (requireAuth props = true -> is_Some user) /\
  (requiredRoles props <> [] ->
     exists u, user = Some u /\ role u ∈ requiredRoles props) /\
  (requiredPermissions props <> [] ->
     exists u p, user = Some u /\ p ∈ requiredPermissions props
                 /\ p ∈ permissions u).
Proof.
  assert (Hroles : forall rs,
            existsb (hasRole user) rs = true
            <-> exists u, user = Some u /\ role u ∈ rs).
  { intros rs. rewrite existsb_exists. split.
    - intros (r & Hin & Hr). destruct user as [u|]; [|done].
      exists u. split; [done|]. apply String.eqb_eq in Hr. subst.
      by apply list_elem_of_In.
    - intros (u & -> & Hin). exists (role u). split.
      + by apply list_elem_of_In.
      + apply String.eqb_refl. }
  assert (Hperms : forall ps,
            existsb (hasPermission user) ps = true
            <-> exists u p, user = Some u /\ p ∈ ps /\ p ∈ permissions u).
  { intros ps. rewrite existsb_exists. split.
    - intros (p & Hin & Hp). destruct user as [u|]; [|done].
      exists u, p. split_and!; [done|by apply list_elem_of_In|].
      by apply bool_decide_eq_true in Hp.
    - intros (u & p & -> & Hin & Hp). exists p. split.
      + by apply list_elem_of_In.
      + by apply bool_decide_eq_true. }
  assert (Hnonempty : forall (l : list string),
            (0 <? length l)%nat = true <-> l <> []).
  { intros [|x l]; simpl; split; done. }
  unfold ProtectedRoute.
  set (c1 := requireAuth props && negb (bool_decide (is_Some user))).
  set (c2 := (0 <? length (requiredRoles props))%nat
             && negb (existsb (hasRole user) (requiredRoles props))).
  set (c3 := (0 <? length (requiredPermissions props))%nat
             && negb (existsb (hasPermission user) (requiredPermissions props))).
  assert (H1 : c1 = false <-> (requireAuth props = true -> is_Some user)).
  { unfold c1. destruct (requireAuth props); simpl; [|by split].
    destruct user as [u|].
    - rewrite bool_decide_eq_true_2 by eauto. split; eauto.
    - rewrite bool_decide_eq_false_2 by (by intros [? ?]). simpl.
      split; [done|]. intros H. by destruct (H eq_refl). }
  assert (H2 : c2 = false <->
               (requiredRoles props <> [] ->
                exists u, user = Some u /\ role u ∈ requiredRoles props)).
  { unfold c2. rewrite <- Hroles, <- Hnonempty.
    destruct (0 <? length (requiredRoles props))%nat; simpl; [|by split].
    destruct (existsb (hasRole user) _); simpl; split; auto; try done.
    intros H. by specialize (H eq_refl). }
  assert (H3 : c3 = false <->
               (requiredPermissions props <> [] ->
                exists u p, user = Some u /\ p ∈ requiredPermissions props
                            /\ p ∈ permissions u)).
  { unfold c3. rewrite <- Hperms, <- Hnonempty.
    destruct (0 <? length (requiredPermissions props))%nat; simpl;
      [|by split].
    destruct (existsb (hasPermission user) _); simpl; split; auto; try done.
    intros H. by specialize (H eq_refl). }
  rewrite <- H1, <- H2, <- H3. clearbody c1 c2 c3. clear.
  destruct loading; [split; [by case_match|by intros [? _]]|].
  destruct c1; [split; [by case_match|by intros (_ & ? & _)]|].
  destruct c2; [split; [by repeat case_match|by intros (_ & _ & ? & _)]|].
  destruct c3; [split; [by repeat case_match|by intros (_ & _ & _ & ?)]|].
  done.
Qed.

(** X14: [ProtectedRoute] shows its children exactly when the provider has
    finished loading, a user is signed in if the route requires it, the
    user's role is one of the required roles if there are any, and the user
    holds one of the required permissions if there are any. In particular a
    route with required roles or permissions is closed to visitors who are
    not signed in, even when it does not require authentication. *)
Theorem ProtectedRoute_children_iff props loading user :
  ProtectedRoute props loading user = Children <->
  loading = false /\
  (requireAuth props = true -> is_Some user) /\
  (requiredRoles props <> [] ->
     exists u, user = Some u /\ role u ∈ requiredRoles props) /\
  (requiredPermissions props <> [] ->
     exists u p, user = Some u /\ p ∈ requiredPermissions props
                 /\ p ∈ permissions u).
Proof. apply ProtectedRoute_children. Qed.

(** X15: Whatever props the caller passes, [AdminRoute] shows its children only
    to a signed-in admin or superadmin, and [ModeratorRoute] only to an
    admin or moderator who also holds the moderate_content permission;
    neither sends anyone away before loading has finished. *)
Theorem specialised_routes_guard props loading user :
  (AdminRoute props loading user = Children ->
     exists u, user = Some u /\ (role u = "admin" \/ role u = "superadmin")) /\
  (ModeratorRoute props loading user = Children ->
     exists u, user = Some u /\ (role u = "admin" \/ role u = "moderator")
               /\ "moderate_content" ∈ permissions u) /\
  (loading = true ->
     forall path, AdminRoute props loading user <> NavigateTo path
                  /\ ModeratorRoute props loading user <> NavigateTo path).
Proof.
  split_and!.
  - intros Hc. apply ProtectedRoute_children in Hc.
    destruct Hc as (_ & _ & Hr & _). destruct (Hr ltac:(done)) as (u & -> & Hin).
    exists u. split; [done|]. simpl in Hin.
    apply elem_of_cons in Hin as [?|Hin]; [by left|].
    apply elem_of_cons in Hin as [?|Hin]; [by right|].
    by apply not_elem_of_nil in Hin.
  - intros Hc. apply ProtectedRoute_children in Hc.
    destruct Hc as (_ & _ & Hr & Hp).
    destruct (Hr ltac:(done)) as (u & -> & Hin).
    destruct (Hp ltac:(done)) as (u' & p & [= <-] & Hp1 & Hp2).
    exists u. simpl in Hin, Hp1. split_and!; [done| |].
    + apply elem_of_cons in Hin as [?|Hin]; [by left|].
      apply elem_of_cons in Hin as [?|Hin]; [by right|].
      by apply not_elem_of_nil in Hin.
    + apply list_elem_of_singleton in Hp1. by subst.
  - intros -> path. unfold AdminRoute, ModeratorRoute, ProtectedRoute. simpl.
    by destruct (loadingComponent props).
Qed.
End AccessFacts.

(** ** The answers API of the server *)

Section ServerFacts.
Import Server.

Variable verify : string -> option decoded_token.
Variable select_answers : string -> option (list answer_row).
Variable insert_answer : option body_value -> Z -> option body_value -> bool.

(** The middleware either answers 401 or passes the request on with the
    user of the token; it passes exactly the headers that start with
    "Bearer " and whose second space-separated piece verifies. *)
Lemma verifyUserToken_cases (req : request) :
  (exists h t d,
      authorization req = Some h /\ String.prefix "Bearer " h = true /\
      split_on Ascii.Space h !! 1%nat = Some t /\ verify t = Some d /\
      verifyUserToken verify req =
        Next (set_loggedInUser
                {| lu_id := userid d; lu_name := token_username d |} req)) \/
  (exists m,
      verifyUserToken verify req =
        Respond {| status := 401; body := ErrorBody "Unauthorized" m |}).
Proof.
  unfold verifyUserToken.
  destruct (authorization req) as [h|] eqn:Eh; [|right; eauto].
  destruct (negb (truthy h) || negb (String.prefix "Bearer " h)) eqn:Eg;
    [right; eauto|].
  apply orb_false_elim in Eg as [_ Ep]. apply negb_false_iff in Ep.
  destruct (split_on Ascii.Space h !! 1%nat) as [t|] eqn:Et; [|right; eauto].
  destruct (verify t) as [d|] eqn:Ed; [|right; eauto].
  left. exists h, t, d. auto.
Qed.

Lemma split_on_first (t rest : string) :
  Ascii.Space ∉ String.list_ascii_of_string t ->
  split_on Ascii.Space (t ++ String Ascii.Space rest)
  = t :: split_on Ascii.Space rest.
Proof.
  induction t as [|c t IH]; intros Hn.
  - reflexivity.
  - simpl in Hn. apply not_elem_of_cons in Hn as [Hc Ht].
    change (String c t ++ String Ascii.Space rest)%string
      with (String c (t ++ String Ascii.Space rest)).
    cbn [split_on]. rewrite (IH Ht).
    destruct (Ascii.eqb c Ascii.Space) eqn:Ec; [|reflexivity].
    apply Ascii.eqb_eq in Ec. congruence.
Qed.

Lemma split_on_whole (t : string) :
  Ascii.Space ∉ String.list_ascii_of_string t ->
  split_on Ascii.Space t = [t].
Proof.
  induction t as [|c t IH]; intros Hn.
  - reflexivity.
  - simpl in Hn. apply not_elem_of_cons in Hn as [Hc Ht].
    cbn [split_on]. rewrite (IH Ht).
    destruct (Ascii.eqb c Ascii.Space) eqn:Ec; [|reflexivity].
    apply Ascii.eqb_eq in Ec. congruence.
Qed.

Lemma split_on_cons (s : string) :
  exists piece pieces, split_on Ascii.Space s = piece :: pieces.
Proof.
  destruct s as [|c s]; cbn [split_on]; [eauto|].
  destruct (Ascii.eqb c Ascii.Space); [eauto|].
  destruct (split_on Ascii.Space s); eauto.
Qed.

(** X16: the middleware verifies the word after "Bearer " only: whatever
    follows a second space in the header is ignored, so a header
    "Bearer <token> <anything>" passes like "Bearer <token>" and the request
    goes on with the id and name of the token's payload. *)
Theorem verifyUserToken_reads_second_word
    (req : request) (t junk : string) (d : decoded_token) :
  Ascii.Space ∉ String.list_ascii_of_string t ->
  verify t = Some d ->
  authorization req = Some ("Bearer " ++ t)%string \/
  authorization req
  = Some ("Bearer " ++ t ++ String Ascii.Space junk)%string ->
  verifyUserToken verify req
  = Next (set_loggedInUser
            {| lu_id := userid d; lu_name := token_username d |} req).
Proof.
  intros Hn Hv Hh. unfold verifyUserToken.
  assert (Hb : Ascii.Space ∉ String.list_ascii_of_string "Bearer").
  { simpl. rewrite !not_elem_of_cons. split_and!; try discriminate.
    apply not_elem_of_nil. }
  destruct Hh as [-> | ->].
  - change ("Bearer " ++ t)%string
      with ("Bearer" ++ String Ascii.Space t)%string.
    rewrite (split_on_first "Bearer" t Hb), (split_on_whole t Hn).
    simpl. rewrite Hv. by destruct t.
  - change ("Bearer " ++ t ++ String Ascii.Space junk)%string
      with ("Bearer" ++ String Ascii.Space (t ++ String Ascii.Space junk))%string.
    rewrite (split_on_first "Bearer" _ Hb), (split_on_first t junk Hn).
    simpl. rewrite Hv. by destruct t.
Qed.

(** X17: POST /api/answer always produces a response (behind the middleware
    the read of [req.loggedInUser] cannot throw); it runs at most one
    statement, an insert, and only for a verified token, with the user id of
    that token's payload and the truthy question id and text of the body;
    201 is answered only after such an insert. *)
Theorem post_answer_inserts_for_token_owner (req : request) :
  exists r qs,
    post_answer_route verify insert_answer req = Some (r, qs) /\
    (qs = [] \/
     exists h t d,
       authorization req = Some h /\ String.prefix "Bearer " h = true /\
       split_on Ascii.Space h !! 1%nat = Some t /\ verify t = Some d /\
       truthy_value (body_questionId req) = true /\
       truthy_value (body_answerText req) = true /\
       qs = [InsertAnswer (body_questionId req) (userid d)
               (body_answerText req)] /\
       (status r = 201 <->
        insert_answer (body_questionId req) (userid d) (body_answerText req)
        = true)) /\
    (status r = 201 -> qs <> []).
Proof.
  unfold post_answer_route.
  destruct (verifyUserToken_cases req)
    as [(h & t & d & Hh & Hp & Ht & Hv & ->) | (m & ->)].
  2: { eexists _, _. split_and!; [reflexivity|by left|discriminate]. }
  set (u := {| lu_id := userid d; lu_name := token_username d |}).
  assert (Hagain : verifyUserToken verify (set_loggedInUser u req)
                   = Next (set_loggedInUser u (set_loggedInUser u req))).
  { unfold verifyUserToken. cbn [set_loggedInUser authorization].
    rewrite Hh, Hp, Ht, Hv.
    destruct h; [discriminate Hp|reflexivity]. }
  rewrite Hagain. unfold createAnswer.
  cbn [set_loggedInUser loggedInUser body_questionId body_answerText u lu_id].
  destruct (truthy_value (body_questionId req)) eqn:Eq; cbn [negb orb].
  2: { eexists _, _. split_and!; [reflexivity|by left|discriminate]. }
  destruct (truthy_value (body_answerText req)) eqn:Ea; cbn [negb orb].
  2: { eexists _, _. split_and!; [reflexivity|by left|discriminate]. }
  destruct (insert_answer _ _ _) eqn:Ei.
  - eexists _, _. split_and!; [reflexivity| |discriminate].
    right. exists h, t, d. split_and!; auto. by rewrite Ei.
  - eexists _, _. split_and!; [reflexivity| |discriminate].
    right. exists h, t, d. split_and!; auto. rewrite Ei. by split.
Qed.


End ServerFacts.

Section ServerWitnesses.
Import Server.

Lemma verifyUserToken_reads_second_word_witness :
  verifyUserToken sample_verify
    (sample_request (Some "Bearer good-token and more"))
  = Next (set_loggedInUser {| lu_id := 7; lu_name := "abebe" |}
            (sample_request (Some "Bearer good-token and more"))).
Proof.
  apply (verifyUserToken_reads_second_word sample_verify
           (sample_request (Some "Bearer good-token and more"))
           "good-token" "and more"
           {| userid := 7; token_username := "abebe" |}).
  - simpl. rewrite !not_elem_of_cons. split_and!; try discriminate.
    apply not_elem_of_nil.
  - reflexivity.
  - right. reflexivity.
Defined.

End ServerWitnesses.

(** ** The session provider: timers, refresh and mount *)

Section ProviderMore.
Import UserProvider.

(** X19: in every state the provider reaches from its mount, at most one
    timeout of each kind is pending, and it is the one the ref of that kind
    holds. *)
Theorem one_pending_timer_per_kind (os : list op) (t0 : Z)
    (id1 id2 : positive) (tm1 tm2 : timer) :
  let st := run os (initial t0) in
  timers st !! id1 = Some tm1 ->
  timers st !! id2 = Some tm2 ->
  match callback tm1, callback tm2 with
  | CallRefreshToken _, CallRefreshToken _
  | CallHandleSessionTimeout, CallHandleSessionTimeout => True
  | _, _ => False
  end ->
  id1 = id2 /\
  match callback tm1 with
  | CallRefreshToken _ => refreshTimeoutRef st = Some id1
  | CallHandleSessionTimeout => activityTimeoutRef st = Some id1
  end.
Proof.
  intros st H1 H2 Hkind.
  destruct (run_consistent os (initial t0) (initial_consistent t0))
    as (Ht & _).
  destruct (Ht _ _ H1) as [_ Ho1]. destruct (Ht _ _ H2) as [_ Ho2].
  fold st in Ho1, Ho2. unfold owner in Ho1, Ho2.
  destruct (callback tm1), (callback tm2); try done;
    split; try done; congruence.
Qed.

Lemma one_pending_timer_per_kind_witness :
  let st := run [Login false (inl sample_response); Tick 5000;
                 HandleActivity] (initial 0) in
  timers st !! 3%positive
  = Some {| fires_at := 1805000; callback := CallHandleSessionTimeout |} /\
  activityTimeoutRef st = Some 3%positive.
Proof.
  cbv zeta. split; [reflexivity|].
  exact (proj2 (one_pending_timer_per_kind
                  [Login false (inl sample_response); Tick 5000;
                   HandleActivity] 0 3 3 _ _ eq_refl eq_refl I)).
Defined.

(** X20: when the inactivity timeout comes due and fires, the user is logged
    out (tokens removed, no user, no expiry), nothing stays pending, the
    notice is shown once, and no request is sent. *)
Theorem inactivity_timeout_logs_out (id : positive) (tm : timer) (st : state) :
  timers_consistent st ->
  timers st !! id = Some tm ->
  callback tm = CallHandleSessionTimeout ->
  fires_at tm <= now st ->
  let st' := fire id st in
  user st' = None /\ sessionExpiry st' = None /\
  storage st' !! "token" = None /\ storage st' !! "refreshToken" = None /\
  timers st' = ∅ /\
  refreshTimeoutRef st' = None /\ activityTimeoutRef st' = None /\
  alerts st'
  = alerts st
    ++ ["Your session has expired due to inactivity. Please log in again."] /\
  requests st' = requests st.
Proof.
  intros Hc Hl Hcb Hdue. cbv zeta. unfold fire. rewrite Hl.
  unfold due. rewrite (proj2 (Z.leb_le _ _) Hdue). rewrite Hcb.
  set (st1 := set_timers (delete id (timers st)) st).
  pose proof (fired_timer_consistent id st Hc) as Hc1. fold st1 in Hc1.
  unfold handleSessionTimeout.
  destruct (handleLogout_clears st1) as (_ & Hu & He & Hr & Ha).
  destruct (handleLogout_tokens st1) as (Htok & Hrtok).
  destruct (handleLogout_frame st1) as (_ & _ & _ & _ & _ & _ & Hreq & Hal).
  pose proof (handleLogout_no_timers st1 Hc1) as Hnone.
  cbv zeta in *. cbn. split_and!; try done.
  by rewrite Hal.
Qed.

Lemma inactivity_timeout_logs_out_witness :
  let st := tick 1800000 (signed_in 0) in
  user st = Some sample_user /\
  user (fire 2 st) = None /\ timers (fire 2 st) = ∅.
Proof.
  cbv zeta. split; [reflexivity|].
  pose proof (inactivity_timeout_logs_out 2
                {| fires_at := 1800000; callback := CallHandleSessionTimeout |}
                (tick 1800000 (signed_in 0))
                (run_consistent [Login false (inl sample_response);
                                 Tick 1800000] (initial 0)
                   (initial_consistent 0))
                eq_refl eq_refl ltac:(simpl; lia)) as H.
  cbv zeta in H. exact (conj (proj1 H) (proj1 (proj2 (proj2 (proj2 (proj2 H)))))).
Defined.

(** X21: when the refresh request fails, the promise settles with the
    failure "Session expired" and the user is logged out: tokens, user and
    expiry are cleared, no timeout stays pending, the refresh is no longer
    in flight, no further request is sent and no other promise changes. *)
Theorem refresh_failure_forces_logout (c : bool) (p : nat) (st : state) :
  timers_consistent st ->
  promises st !! p = Some Pending ->
  let st' := refreshToken_resume c p None st in
  promises st' = <[p := Settled (Failure "Session expired")]> (promises st) /\
  promises st' !! p = Some (Settled (Failure "Session expired")) /\
  user st' = None /\ sessionExpiry st' = None /\
  storage st' !! "token" = None /\ storage st' !! "refreshToken" = None /\
  timers st' = ∅ /\
  isRefreshing st' = false /\ refreshPromiseRef st' = None /\
  requests st' = requests st.
Proof.
  intros Hc Hp. cbv zeta. unfold refreshToken_resume. rewrite Hp.
  unfold refresh_finally.
  destruct (handleLogout_clears st) as (_ & Hu & He & Hr & Ha).
  destruct (handleLogout_tokens st) as (Htok & Hrtok).
  destruct (handleLogout_frame st) as (_ & _ & _ & _ & _ & Hpr & Hreq & _).
  pose proof (handleLogout_no_timers st Hc) as Hnone.
  cbv zeta in *. cbn. rewrite Hpr. split_and!; try done.
  apply list_lookup_insert_eq. by eapply lookup_lt_Some.
Qed.

Lemma refresh_failure_forces_logout_witness :
  let st := snd (refreshToken_call false (signed_in 0)) in
  user st = Some sample_user /\
  user (refreshToken_resume false 0 None st) = None /\
  promises (refreshToken_resume false 0 None st)
  = [Settled (Failure "Session expired")].
Proof.
  cbv zeta. split; [reflexivity|].
  pose proof (refresh_failure_forces_logout false 0
                (snd (refreshToken_call false (signed_in 0)))
                (refreshToken_call_consistent false (signed_in 0)
                   (signed_in_consistent 0))
                eq_refl) as H.
  cbv zeta in H. split; [exact (proj1 (proj2 (proj2 H)))|exact (proj1 H)].
Defined.

(** X22: a refresh started while no token is stored sends no request; its
    promise is settled with the failure "Session expired" at once, the user
    is logged out and the refresh is not marked in flight; the promise ref
    is left holding that settled promise, since the assignment after the
    body overwrites the [null] its [finally] block stored. *)
Theorem refresh_without_token_fails_locally (c : bool) (st : state) :
  c = false \/ refreshPromiseRef st = None ->
  getItem "token" st = None ->
  let p := fst (refreshToken_call c st) in
  let st' := snd (refreshToken_call c st) in
  p = length (promises st) /\
  promises st' = promises st ++ [Settled (Failure "Session expired")] /\
  requests st' = requests st /\
  user st' = None /\ sessionExpiry st' = None /\
  storage st' !! "token" = None /\ storage st' !! "refreshToken" = None /\
  isRefreshing st' = false /\
  refreshPromiseRef st' = Some p.
Proof.
  intros Hguard Htok. cbv zeta. unfold refreshToken_call.
  assert ((if c then refreshPromiseRef st else None) = None) as ->
    by (destruct Hguard as [->| ->]; [done|by destruct c]).
  change (getItem "token" (set_isRefreshing true st))
    with (getItem "token" st).
  rewrite Htok. unfold refresh_finally.
  set (st1 := set_isRefreshing true st).
  destruct (handleLogout_clears st1) as (_ & Hu & He & Hr & Ha).
  destruct (handleLogout_tokens st1) as (Ht & Hrt).
  destruct (handleLogout_frame st1) as (_ & _ & _ & _ & _ & Hpr & Hreq & _).
  cbv zeta in *. cbn. rewrite Hpr. split_and!; done.
Qed.

Lemma refresh_without_token_fails_locally_witness :
  requests (snd (refreshToken_call false (initial 0))) = [] /\
  promises (snd (refreshToken_call false (initial 0)))
  = [Settled (Failure "Session expired")].
Proof.
  pose proof (refresh_without_token_fails_locally false (initial 0)
                (or_introl eq_refl) eq_refl) as H.
  cbv zeta in H.
  exact (conj (proj1 (proj2 (proj2 H))) (proj1 (proj2 H))).
Defined.


(** X23: what each operation of the provider, with the render that follows
    it, hands to the transport. Login and registration send one request
    each; the mount sends one verification, with the stored token as bearer,
    when a token is stored; a refresh that does not join one in flight sends
    POST /auth/refresh with the stored token as bearer when a token is
    stored, and then, when it was the one to set [isRefreshing], the effect
    that runs again sends GET /auth/verify as well; a timeout that is due
    sends what the refresh it starts sends, and nothing when it is the
    inactivity timeout; the continuation of a refresh sends nothing itself,
    but when its response brought a non-empty token and it ends the refresh
    the render knew of, the effect that runs again verifies that token;
    the answer to a verification, logout, the OAuth login, the activity
    handlers, the unmount and the clock send nothing. Requests already sent
    are never dropped. *)
Theorem step_requests (o : op) (st : state) :
  let refresh (c : bool) :=
    match (if c then refreshPromiseRef st else None) with
    | Some _ => []
    | None =>
        match getItem "token" st with
        | Some tok =>
            {| endpoint := "/auth/refresh"; bearer := Some tok |}
            :: (if isRefreshing st then []
                else [{| endpoint := "/auth/verify"; bearer := Some tok |}])
        | None => []
        end
    end in
  requests (step o st)
  = requests st ++
    match o with
    | Login _ _ => [{| endpoint := "/auth/login"; bearer := None |}]
    | Register _ _ => [{| endpoint := "/auth/register"; bearer := None |}]
    | InitializeAuth _ _ =>
        match getItem "token" st with
        | Some tok => [{| endpoint := "/auth/verify"; bearer := Some tok |}]
        | None => []
        end
    | RefreshTokenCall c => refresh c
    | Fire id =>
        match timers st !! id with
        | Some tm =>
            if due (now st) tm then
              match callback tm with
              | CallRefreshToken c => refresh c
              | CallHandleSessionTimeout => []
              end
            else []
        | None => []
        end
    | RefreshTokenResume _ p reply =>
        match promises st !! p, reply with
        | Some Pending, Some data =>
            if isRefreshing st && truthy (token data)
            then [{| endpoint := "/auth/verify";
                     bearer := Some (token data) |}]
            else []
        | _, _ => []
        end
    | VerifyResume _ _ | LoginWithTokens _ _ _ | Logout | UpdateActivity
    | HandleActivity | Cleanup | Tick _ => []
    end.
Proof.
  cbv zeta.
  destruct o as [c r|c r|t r u|c r|c r|c|c p r| | | | |id|dt]; cbn [step].
  - unfold login. destruct r as [data|m]; [|done]. cbn [snd].
    etrans; [apply requests_after_schedules|]. cbn.
    etrans; [apply store_refresh_token_rest|]. done.
  - unfold register. destruct r as [data|m]; [|done]. cbn [snd].
    etrans; [apply requests_after_schedules|]. done.
  - rewrite app_nil_r. unfold loginWithTokens. cbn [snd].
    etrans; [apply scheduleActivityTimeout_frame|]. cbn.
    etrans; [apply store_refresh_token_rest|]. done.
  - unfold initializeAuth. destruct (getItem "token" st) as [tok|].
    + destruct r as [data|].
      * etrans;
          [refine (requests_after_schedules c (expiresIn data * 1000) _)|].
        done.
      * refine (handleLogout_requests (send _ st)).
    + cbn. by rewrite app_nil_r.
  - rewrite app_nil_r. unfold initializeAuth_resume. destruct r as [data|].
    + etrans;
        [refine (requests_after_schedules c (expiresIn data * 1000) _)|].
      done.
    + exact (handleLogout_requests st).
  - apply refreshToken_call_commit_requests.
  - destruct (promises st !! p) as [[|res]|] eqn:Hp.
    + destruct r as [data|].
      * destruct (refreshToken_resume_success c p data st Hp)
          as (Hir & _ & _ & Hg & Hrq & _).
        cbv zeta in Hir, Hg, Hrq. unfold commit. rewrite Hir.
        destruct (isRefreshing st); cbn [Bool.eqb andb].
        -- rewrite rerun_effect_requests, Hg, Hrq.
           by destruct (truthy (token data)).
        -- by rewrite Hrq, app_nil_r.
      * destruct (refreshToken_resume_failure c p st Hp)
          as (Hir & Hg & _ & Hrq).
        cbv zeta in Hir, Hg, Hrq. unfold commit. rewrite Hir.
        destruct (isRefreshing st); cbn [Bool.eqb].
        -- by rewrite rerun_effect_requests, Hg, Hrq.
        -- by rewrite Hrq, app_nil_r.
    + rewrite (refreshToken_resume_idle c p r st) by (by rewrite Hp).
      by rewrite commit_same, app_nil_r.
    + rewrite (refreshToken_resume_idle c p r st) by (by rewrite Hp).
      by rewrite commit_same, app_nil_r.
  - rewrite app_nil_r. apply handleLogout_requests.
  - by rewrite app_nil_r.
  - rewrite app_nil_r. refine (scheduleActivityTimeout_requests _).
  - rewrite app_nil_r. apply cleanup_frame.
  - unfold fire. destruct (timers st !! id) as [tm|];
      [|by rewrite commit_same, app_nil_r].
    destruct (due (now st) tm); [|by rewrite commit_same, app_nil_r].
    destruct (callback tm) as [c|].
    + pose proof (refreshToken_call_commit_requests c
                    (set_timers (delete id (timers st)) st)) as Hsent.
      set (s0 := set_timers (delete id (timers st)) st) in *.
      change (isRefreshing s0) with (isRefreshing st) in Hsent.
      change (refreshPromiseRef s0) with (refreshPromiseRef st) in Hsent.
      change (getItem "token" s0) with (getItem "token" st) in Hsent.
      change (requests s0) with (requests st) in Hsent.
      exact Hsent.
    + unfold handleSessionTimeout.
      set (s1 := set_alerts _ _).
      assert (Hir : isRefreshing s1 = isRefreshing st).
      { exact (proj1 (proj2 (proj2 (handleLogout_frame
                 (set_timers (delete id (timers st)) st))))). }
      assert (Hrq : requests s1 = requests st).
      { exact (handleLogout_requests
                 (set_timers (delete id (timers st)) st)). }
      unfold commit. rewrite Hir, Bool.eqb_reflx.
      by rewrite Hrq, app_nil_r.
  - by rewrite app_nil_r.
Qed.

Lemma step_requests_witness :
  let st := signed_in 0 in
  requests (step (RefreshTokenCall false) st)
  = [{| endpoint := "/auth/login"; bearer := None |};
     {| endpoint := "/auth/refresh"; bearer := Some "t1" |};
     {| endpoint := "/auth/verify"; bearer := Some "t1" |}] /\
  requests (step (RefreshTokenResume true 0 (Some sample_response))
              (step (RefreshTokenCall false) st))
  = requests (step (RefreshTokenCall false) st)
    ++ [{| endpoint := "/auth/verify"; bearer := Some "t1" |}].
Proof.
  cbv zeta. split.
  - exact (step_requests (RefreshTokenCall false) (signed_in 0)).
  - exact (step_requests (RefreshTokenResume true 0 (Some sample_response))
             (step (RefreshTokenCall false) (signed_in 0))).
Defined.

(** X24: on mount the provider ends loading in every case; without a stored
    token it asks the server nothing and changes nothing else; with one, a
    rejected verification logs out (tokens removed, nothing pending), and an
    accepted one sets the verified user while the stored token stays as it
    was. *)
Theorem initializeAuth_outcomes (c : bool) (reply : option auth_response)
    (st : state) :
  let st' := initializeAuth c reply st in
  loading st' = false /\
  (getItem "token" st = None -> st' = set_loading false st) /\
  (forall tok, getItem "token" st = Some tok ->
     match reply with
     | None =>
         user st' = None /\ sessionExpiry st' = None /\
         storage st' !! "token" = None /\
         storage st' !! "refreshToken" = None /\
         (timers_consistent st -> timers st' = ∅)
     | Some data =>
         user st' = Some (a_user data) /\
         storage st' = storage st
     end).
Proof.
  cbv zeta. unfold initializeAuth. split_and!.
  - done.
  - by intros ->.
  - intros tok ->. destruct reply as [data|].
    + split.
      * etrans; [apply scheduleActivityTimeout_frame|].
        etrans; [apply scheduleTokenRefresh_frame|]. done.
      * etrans; [apply scheduleActivityTimeout_frame|].
        etrans; [apply scheduleTokenRefresh_frame|]. done.
    + set (st1 := send _ st).
      destruct (handleLogout_clears st1) as (_ & Hu & He & _).
      destruct (handleLogout_tokens st1) as (Ht & Hrt).
      split_and!; try done.
      intros Hc. apply (handleLogout_no_timers st1). exact Hc.
Qed.





(** X26: unmounting cancels every pending timeout but does not log out: the
    stored tokens, the user and the expiry stay, and the two refs keep the
    ids of the cancelled timeouts. *)
Theorem cleanup_cancels_without_logout (st : state) :
  timers_consistent st ->
  let st' := cleanup st in
  timers st' = ∅ /\
  storage st' = storage st /\ user st' = user st /\
  sessionExpiry st' = sessionExpiry st /\
  refreshTimeoutRef st' = refreshTimeoutRef st /\
  activityTimeoutRef st' = activityTimeoutRef st.
Proof.
  intros (Ht & _). cbv zeta. unfold cleanup.
  destruct (refreshTimeoutRef st) as [r|] eqn:Er; cbn; rewrite ?Er;
    destruct (activityTimeoutRef st) as [a|] eqn:Ea; cbn; rewrite ?Er, ?Ea;
    (split_and!; try done);
    apply map_empty; intros i;
    match goal with |- ?m !! i = None =>
      destruct (m !! i) as [tm|] eqn:Hl; [|done] end;
    exfalso; rewrite ?lookup_delete in Hl;
    repeat (case_decide; [done|]);
    destruct (Ht _ _ Hl) as [_ Hown]; unfold owner in Hown;
    destruct (callback tm); congruence.
Qed.

Lemma cleanup_cancels_without_logout_witness :
  timers (cleanup (signed_in 0)) = ∅ /\
  user (cleanup (signed_in 0)) = Some sample_user.
Proof.
  pose proof (cleanup_cancels_without_logout (signed_in 0)
                (run_consistent [Login false (inl sample_response)]
                   (initial 0) (initial_consistent 0))) as H.
  cbv zeta in H. split; [exact (proj1 H)|reflexivity].
Defined.



(** X27: after a successful login the proactive refresh goes out exactly
    once. The deadline is the login plus the delay the host makes of
    max(expiresIn * 1000 - 60000, 0), which is that number itself up to
    2147483647 ms. As long as less than that has passed, firing the timeout
    does nothing; once it has passed, firing it sends one POST /auth/refresh
    with the access token the login stored as bearer, followed by the
    verification of the effect that runs again when the refresh is the one
    to set [isRefreshing]; the timeout, now spent, cannot fire again. *)
Theorem login_refresh_fires_once
    (c : bool) (data : auth_response) (dt : N) (st : state) :
  timers_consistent st ->
  token data <> EmptyString ->
  c = false \/ refreshPromiseRef st = None ->
  let st1 := step (Login c (inl data)) st in
  let delay := host_delay (Z.max (expiresIn data * 1000 - 60000) 0) in
  exists id,
    refreshTimeoutRef st1 = Some id /\
    (expiresIn data * 1000 - 60000 <= 2147483647 ->
     delay = Z.max (expiresIn data * 1000 - 60000) 0) /\
    (Z.of_N dt < delay -> step (Fire id) (tick dt st1) = tick dt st1) /\
    (delay <= Z.of_N dt ->
     let st2 := step (Fire id) (tick dt st1) in
     requests st2
     = requests st
       ++ [{| endpoint := "/auth/login"; bearer := None |};
           {| endpoint := "/auth/refresh"; bearer := Some (token data) |}]
       ++ (if isRefreshing st then []
           else [{| endpoint := "/auth/verify";
                    bearer := Some (token data) |}]) /\
     timers st2 !! id = None /\
     step (Fire id) st2 = st2).
Proof.
  intros Hc Htok Hguard. cbv zeta.
  pose proof (step_establishes_refresh_timer (Login c (inl data)) st c data
                Hc eq_refl) as Hsched.
  pose proof (step_consistent (Login c (inl data)) st Hc) as Hc1.
  destruct (login_success_rest c data st) as (Hnow & Hrq & Hrp & Hpr & Hst).
  pose proof (login_isRefreshing c data st) as Hir.
  cbv zeta in Hnow, Hrq, Hrp, Hpr, Hst.
  change (snd (login c (inl data) st))
    with (step (Login c (inl data)) st) in Hnow, Hrq, Hrp, Hpr, Hst, Hir.
  set (st1 := step (Login c (inl data)) st) in *. clearbody st1.
  destruct (refreshTimeoutRef st1) as [id|] eqn:Eref; [|done].
  exists id. unfold scheduled in Hsched.
  destruct (tick_frame dt st1) as (Hnowt & Htmt & Hirt & Hrpt & Hgt & Hrqt & Hct).
  specialize (Hct Hc1).
  set (stt := tick dt st1) in *. clearbody stt.
  rewrite <- Htmt in Hsched.
  split_and!; [done| | |].
  - intros Hsmall. apply host_delay_in_range. lia.
  - intros Hearly. cbn [step].
    rewrite (fire_before_deadline id _ stt Hsched).
    + apply commit_same.
    + rewrite Hnowt, Hnow. cbn [fires_at]. lia.
  - intros Hlate.
    assert (Hg : getItem "token" stt = Some (token data)).
    { rewrite Hgt. unfold getItem. rewrite Hst.
      destruct (token data); [done|reflexivity]. }
    assert (Hguardt : c = false \/ refreshPromiseRef stt = None).
    { destruct Hguard as [->|Hnone]; [by left|right].
      by rewrite Hrpt, Hrp. }
    destruct (fire_refresh_sends id _ c (token data) stt Hsched eq_refl)
      as (Hir2 & Htm2 & Hnx2 & Hg2 & Hrq2); try done.
    { rewrite Hnowt, Hnow. cbn [fires_at]. lia. }
    cbv zeta in Hir2, Htm2, Hnx2, Hg2, Hrq2.
    pose proof (fire_consistent id stt Hct) as Hc2.
    assert (Hstep : step (Fire id) stt
                    = commit (isRefreshing stt) (fire id stt))
      by reflexivity.
    rewrite Hstep. clear Hstep.
    set (s2 := fire id stt) in *. clearbody s2.
    assert (Hgone : timers s2 !! id = None).
    { rewrite Htm2. apply lookup_delete_eq. }
    unfold commit. rewrite Hir2, Hirt, Hir.
    rewrite Hrqt, Hrq in Hrq2.
    destruct (isRefreshing st) eqn:Eir; cbn [Bool.eqb].
    + split_and!.
      * by rewrite Hrq2, <- app_assoc.
      * exact Hgone.
      * exact (fire_spent id s2 Hgone).
    + assert (Hgone' : timers (rerun_effect s2) !! id = None)
        by (by rewrite (rerun_effect_no_timers s2 Hc2)).
      split_and!.
      * rewrite rerun_effect_requests, Hg2, Hrq2.
        by rewrite <- !app_assoc.
      * exact Hgone'.
      * exact (fire_spent id _ Hgone').
Qed.

Lemma login_refresh_fires_once_witness :
  requests_to "/auth/refresh" (step (Fire 1) (tick 841000 (signed_in 0)))
  = 1%nat.
Proof.
  destruct (login_refresh_fires_once false sample_response 841000
              (initial 0) (initial_consistent 0) ltac:(discriminate)
              (or_introl eq_refl)) as (id & Hid & _ & _ & Hlate).
  injection Hid as <-.
  unfold requests_to.
  change (signed_in 0)
    with (step (Login false (inl sample_response)) (initial 0)).
  rewrite (proj1 (Hlate ltac:(vm_compute; discriminate))). reflexivity.
Defined.


End ProviderMore.
